(** * The TLS network wrapper of the nRF52840 port (network_mbedtls_wrapper.c)

    A shallow embedding of [iot_tls_write], [iot_tls_read], [iot_tls_connect],
    [iot_tls_is_connected], [iot_tls_disconnect] and [iot_tls_destroy].

    The TLS engine, the transport and the timer are outside the wrapper.
    Each is a script of the answers it gives to the wrapper's successive
    calls; the wrapper's calls are collected in a trace.  The target is a
    Cortex-M4 (armgcc Makefile): [size_t] and [int] are 32 bits wide. *)

From Stdlib Require Import ZArith List Bool String Lia.
From Stdlib.Strings Require Import Byte.
Import ListNotations.
Local Open Scope Z_scope.

(** ** Result codes *)

(** The members of [IoT_Error_t] (aws_iot_error.h) the wrapper returns. *)
Inductive IoT_Error_t : Set :=
| NETWORK_PHYSICAL_LAYER_CONNECTED
| SUCCESS
| NULL_VALUE_ERROR
| SSL_CONNECTION_ERROR
| NETWORK_SSL_WRITE_ERROR
| NETWORK_SSL_WRITE_TIMEOUT_ERROR
| NETWORK_SSL_READ_ERROR
| NETWORK_SSL_READ_TIMEOUT_ERROR
| NETWORK_SSL_NOTHING_TO_READ
| NETWORK_MBEDTLS_ERR_CTR_DRBG_ENTROPY_SOURCE_FAILED
| NETWORK_X509_ROOT_CRT_PARSE_ERROR
| NETWORK_X509_DEVICE_CRT_PARSE_ERROR
| NETWORK_PK_PRIVATE_KEY_PARSE_ERROR
| NETWORK_ERR_NET_SOCKET_FAILED
| NETWORK_ERR_NET_UNKNOWN_HOST
| NETWORK_ERR_NET_CONNECT_FAILED.

(** Modelled from the spec: the engine's retryable results ("would block on
    read", "would block on write", "timeout") are negative codes, distinct
    from each other.  mbedtls/ssl.h, which declares them, is not among the
    sources; the values are the ones mbedTLS gives them. *)
Definition MBEDTLS_ERR_SSL_WANT_READ : Z := -0x6900.
Definition MBEDTLS_ERR_SSL_WANT_WRITE : Z := -0x6880.
Definition MBEDTLS_ERR_SSL_TIMEOUT : Z := -0x6800.

(** Modelled from the spec: the transport's three failure classes
    (mbedtls/net_sockets.h, not among the sources). *)
Definition MBEDTLS_ERR_NET_SOCKET_FAILED : Z := -0x0042.
Definition MBEDTLS_ERR_NET_CONNECT_FAILED : Z := -0x0044.
Definition MBEDTLS_ERR_NET_UNKNOWN_HOST : Z := -0x0052.

(** [#define IOT_SSL_READ_TIMEOUT 10] *)
Definition IOT_SSL_READ_TIMEOUT : Z := 10.

(** ** Machine arithmetic *)

(** [size_t] is an unsigned 32-bit integer: sums and differences wrap. *)
Definition SIZE_WIDTH : Z := 32.
Definition size_t_wrap (z : Z) : Z := z mod 2 ^ SIZE_WIDTH.

(** [a += r] for [size_t a] and [int r]: [r] is converted to [size_t]. *)
Definition size_add (a r : Z) : Z := size_t_wrap (a + r).
Definition size_sub (a r : Z) : Z := size_t_wrap (a - r).

(** ** The timer *)

(** The successive answers of [has_timer_expired(timer)].  Past the end of
    the script the deadline has passed. *)
Definition Timer := list bool.

Definition has_timer_expired (timer : Timer) : bool * Timer :=
  match timer with
  | [] => (true, [])
  | b :: timer' => (b, timer')
  end.

(** A timer that has expired stays expired. *)
Fixpoint monotone (timer : Timer) : bool :=
  match timer with
  | [] => true
  | b :: timer' => (if b then forallb (fun x => x) timer' else true) && monotone timer'
  end.

(** The first [n] polls all answer "not expired". *)
Fixpoint running (n : nat) (timer : Timer) : Prop :=
  match n with
  | O => True
  | S n' => match timer with
            | false :: timer' => running n' timer'
            | _ => False
            end
  end.

(** ** Timed write *)

(** The engine behind [mbedtls_ssl_write]: the script of its return values.
    Past the end of the script it would block. *)
Definition mbedtls_ssl_write (ssl : list Z) : Z * list Z :=
  match ssl with
  | [] => (MBEDTLS_ERR_SSL_WANT_WRITE, [])
  | r :: ssl' => (r, ssl')
  end.

(** One call of the record-write primitive: the bytes offered
    ([len - written_so_far] bytes at [pMsg + written_so_far]) and the
    engine's answer. *)
Definition write_call : Type := list byte * Z.

Definition offered (pMsg : list byte) (len written_so_far : Z) : list byte :=
  firstn (Z.to_nat (len - written_so_far)) (skipn (Z.to_nat written_so_far) pMsg).

(** The two loop heads of [iot_tls_write]. *)
Inductive write_pc : Set :=
| ForCond      (* [written_so_far < len && !has_timer_expired(timer)] *)
| WhileCond.   (* [!has_timer_expired(timer) && (ret = mbedtls_ssl_write(..)) <= 0] *)

Definition write_exit : Type := bool * Z * Timer * list write_call.

Definition logged (c : write_call) (r : write_exit) : write_exit :=
  let '(isErrorFlag, written_so_far, timer, calls) := r in
  (isErrorFlag, written_so_far, timer, c :: calls).

(** The nested loops of [iot_tls_write], from either loop head, up to the
    statement after the [for].  Every turn of either loop polls the timer,
    so the recursion is on the timer's script.  The result is
    [isErrorFlag], [written_so_far], what is left of the timer and the
    calls made.  ([frags] is only ever incremented and is left out.)

    When the inner [while] stops because the timer expired, [ret] still
    holds what the last call, or the initialisation, left in it, and the
    [for] increment adds it to [written_so_far]. *)
Fixpoint write_loop (pMsg : list byte) (len : Z) (timer : Timer) (pc : write_pc)
    (ssl : list Z) (written_so_far ret : Z) {struct timer} : write_exit :=
  match pc with
  | ForCond =>
      if written_so_far <? len then
        match timer with
        | [] => (false, written_so_far, [], [])
        | true :: timer' => (false, written_so_far, timer', [])
        | false :: timer' =>
            write_loop pMsg len timer' WhileCond ssl written_so_far ret
        end
      else (false, written_so_far, timer, [])
  | WhileCond =>
      match timer with
      | [] =>
          (* expired now and at the [for] condition that follows *)
          (false, size_add written_so_far ret, [], [])
      | true :: timer' =>
          write_loop pMsg len timer' ForCond ssl (size_add written_so_far ret) ret
      | false :: timer' =>
          let (ret', ssl') := mbedtls_ssl_write ssl in
          let call := (offered pMsg len written_so_far, ret') in
          if ret' <=? 0 then
            if negb (ret' =? MBEDTLS_ERR_SSL_WANT_READ)
               && negb (ret' =? MBEDTLS_ERR_SSL_WANT_WRITE)
            then (true, written_so_far, timer', [call])
            else logged call
                   (write_loop pMsg len timer' WhileCond ssl' written_so_far ret')
          else logged call
                 (write_loop pMsg len timer' ForCond ssl'
                    (size_add written_so_far ret') ret')
      end
  end.

(** The outcome of a timed transfer: the status, the value of the
    out-parameter ([*written_len], [*read_len]) after the call, and the
    calls made on the engine. *)
Record io_result (call : Type) : Type := mk_io_result
  { status : IoT_Error_t; out_len : Z; calls : list call }.
Arguments mk_io_result {call}.
Arguments status {call}.
Arguments out_len {call}.
Arguments calls {call}.

(** [iot_tls_write(pNetwork, pMsg, len, timer, written_len)].  [pNetwork] is
    used for [&pNetwork->tlsDataParams.ssl] only, which [ssl] stands for. *)
Definition iot_tls_write (ssl : list Z) (pMsg : list byte) (len : Z) (timer : Timer)
  : io_result write_call :=
  let '(isErrorFlag, written_so_far, timer', cs) :=
    write_loop pMsg len timer ForCond ssl 0 0 in
  if isErrorFlag then mk_io_result NETWORK_SSL_WRITE_ERROR written_so_far cs
  else if fst (has_timer_expired timer') && negb (written_so_far =? len)
  then mk_io_result NETWORK_SSL_WRITE_TIMEOUT_ERROR written_so_far cs
  else mk_io_result SUCCESS written_so_far cs.

(** The bytes the engine took in a call: the first [ret] offered bytes when
    [ret] is positive, none otherwise. *)
Definition accepted (c : write_call) : list byte :=
  if 0 <? snd c then firstn (Z.to_nat (snd c)) (fst c) else [].

Definition accepted_count (cs : list write_call) : Z :=
  fold_right (fun c n => (if 0 <? snd c then snd c else 0) + n) 0 cs.

(** The calls follow the cursor: each is made on the suffix that the bytes
    accepted before it leave. *)
Fixpoint chained (cur : list byte) (cs : list write_call) : Prop :=
  match cs with
  | [] => True
  | c :: cs' => fst c = cur /\ chained (skipn (List.length (accepted c)) cur) cs'
  end.

(** The bytes a script of answers takes in all: the sum of its positive
    answers. *)
Definition fragments_total (rets : list Z) : Z :=
  fold_right (fun r n => (if 0 <? r then r else 0) + n) 0 rets.

(** An answer of the engine to a write that goes on: a positive fragment or
    a would-block. *)
Definition write_answer_ok (r : Z) : Prop :=
  0 < r \/ (r = MBEDTLS_ERR_SSL_WANT_READ \/ r = MBEDTLS_ERR_SSL_WANT_WRITE).

(** A payload of 20 bytes. *)
Definition payload20 : list byte :=
  [x00; x01; x02; x03; x04; x05; x06; x07; x08; x09;
   x0a; x0b; x0c; x0d; x0e; x0f; x10; x11; x12; x13].

(** ** Timed read *)

(** The engine behind [mbedtls_ssl_read]; past the end of the script it
    would block. *)
Definition mbedtls_ssl_read (ssl : list Z) : Z * list Z :=
  match ssl with
  | [] => (MBEDTLS_ERR_SSL_WANT_READ, [])
  | r :: ssl' => (r, ssl')
  end.

(** One call of the record-read primitive: the length asked for and the
    engine's answer. *)
Definition read_call : Type := Z * Z.

Definition retryable_read (ret : Z) : bool :=
  (ret =? MBEDTLS_ERR_SSL_WANT_READ) || (ret =? MBEDTLS_ERR_SSL_WANT_WRITE)
  || (ret =? MBEDTLS_ERR_SSL_TIMEOUT).

(** [ret == 0 || (ret != WANT_READ && ret != WANT_WRITE && ret != TIMEOUT)] *)
Definition read_fatal (ret : Z) : bool :=
  (ret =? 0)
  || (negb (ret =? MBEDTLS_ERR_SSL_WANT_READ)
      && negb (ret =? MBEDTLS_ERR_SSL_WANT_WRITE)
      && negb (ret =? MBEDTLS_ERR_SSL_TIMEOUT)).

(** How the [while (len > 0)] loop of [iot_tls_read] is left: by [return]
    from inside, or at its end with the final [len] and [rxLen]. *)
Inductive read_exit : Type :=
| Returned (e : IoT_Error_t)
| Left (len rxLen : Z).

Definition read_logged (c : read_call) (r : read_exit * list read_call)
  : read_exit * list read_call :=
  (fst r, c :: snd r).

(** The loop of [iot_tls_read].  The read comes first, the timer is polled
    after it.  (The bytes stored through [pMsg] are not modelled: the
    function decides by the counts only.) *)
Fixpoint read_loop (timer : Timer) (ssl : list Z) (len rxLen : Z) {struct timer}
  : read_exit * list read_call :=
  if 0 <? len then
    let (ret, ssl') := mbedtls_ssl_read ssl in
    let call := (len, ret) in
    if (negb (0 <? ret)) && read_fatal ret then
      (Returned NETWORK_SSL_READ_ERROR, [call])
    else
      let rxLen' := if 0 <? ret then size_add rxLen ret else rxLen in
      let len' := if 0 <? ret then size_sub len ret else len in
      match timer with
      | [] => (Left len' rxLen', [call])
      | true :: _ => (Left len' rxLen', [call])
      | false :: timer' => read_logged call (read_loop timer' ssl' len' rxLen')
      end
  else (Left len rxLen, []).

(** [iot_tls_read(pNetwork, pMsg, len, timer, read_len)].  [read_len] is the
    value of [*read_len] before the call; it is assigned on one path only. *)
Definition iot_tls_read (ssl : list Z) (len : Z) (timer : Timer) (read_len : Z)
  : io_result read_call :=
  let (exit, cs) := read_loop timer ssl len 0 in
  match exit with
  | Returned e => mk_io_result e read_len cs
  | Left len' rxLen =>
      if len' =? 0 then mk_io_result SUCCESS rxLen cs
      else if rxLen =? 0 then mk_io_result NETWORK_SSL_NOTHING_TO_READ read_len cs
      else mk_io_result NETWORK_SSL_READ_TIMEOUT_ERROR read_len cs
  end.

(** The bytes the engine delivered over a list of calls. *)
Definition delivered (cs : list read_call) : Z :=
  fold_right (fun c n => (if 0 <? snd c then snd c else 0) + n) 0 cs.

(** The engine kept to its interface in a call: it delivered no more than
    was asked for, or gave one of the retryable results. *)
Definition read_call_ok (c : read_call) : Prop :=
  (0 < snd c <= fst c) \/ retryable_read (snd c) = true.

(** ** The session *)

(** [TLSConnectParams] (network_interface.h).  A [const char*] is [None]
    when it is NULL. *)
Record TLSConnectParams : Type := mk_TLSConnectParams
  { pRootCALocation : option string;
    pDeviceCertLocation : option string;
    pDevicePrivateKeyLocation : option string;
    pDestinationURL : option string;
    DestinationPort : Z;
    timeout_ms : Z;
    ServerVerificationFlag : bool }.

(** Modelled from the spec: the TLS engine's objects are foreign resources
    with manual init, use and free steps; the engine's sources (mbedTLS and
    the socket layer of the port) are not among the sources.  An object is
    uninitialised memory ([Garbage], which is also what its free function
    leaves: a freed object is to be initialised again before it is used or
    freed), initialised and owning nothing ([Clean]), or in use and possibly
    owning memory or a handle ([Holding]). *)
Inductive obj : Set := Garbage | Clean | Holding.

(** The eight engine objects of [TLSDataParams]. *)
Inductive handle : Set :=
| H_entropy | H_ctr_drbg | H_ssl | H_conf | H_cacert | H_clicert | H_pkey | H_server_fd.

(** [TLSDataParams] (network_platform.h): the engine objects and the
    verification result [flags]. *)
Record TLSDataParams : Type := mk_TLSDataParams
  { entropy : obj;
    ctr_drbg : obj;
    ssl : obj;
    conf : obj;
    flags : Z;
    cacert : obj;
    clicert : obj;
    pkey : obj;
    server_fd : obj }.

Record Network : Type := mk_Network
  { tlsConnectParams : TLSConnectParams;
    tlsDataParams : TLSDataParams }.

Definition get_obj (h : handle) (d : TLSDataParams) : obj :=
  match h with
  | H_entropy => entropy d
  | H_ctr_drbg => ctr_drbg d
  | H_ssl => ssl d
  | H_conf => conf d
  | H_cacert => cacert d
  | H_clicert => clicert d
  | H_pkey => pkey d
  | H_server_fd => server_fd d
  end.

Definition set_obj (h : handle) (o : obj) (d : TLSDataParams) : TLSDataParams :=
  let pick (h' : handle) := if match h, h' with
                                | H_entropy, H_entropy | H_ctr_drbg, H_ctr_drbg
                                | H_ssl, H_ssl | H_conf, H_conf
                                | H_cacert, H_cacert | H_clicert, H_clicert
                                | H_pkey, H_pkey | H_server_fd, H_server_fd => true
                                | _, _ => false
                                end
                             then o else get_obj h' d in
  mk_TLSDataParams (pick H_entropy) (pick H_ctr_drbg) (pick H_ssl) (pick H_conf)
    (flags d) (pick H_cacert) (pick H_clicert) (pick H_pkey) (pick H_server_fd).

Definition all_handles : list handle :=
  [H_entropy; H_ctr_drbg; H_ssl; H_conf; H_cacert; H_clicert; H_pkey; H_server_fd].

(** The number of objects that own something. *)
Definition owns (o : obj) : nat :=
  match o with Holding => 1 | _ => 0 end.

Definition holding (d : TLSDataParams) : nat :=
  fold_right (fun h n => (owns (get_obj h d) + n)%nat) 0%nat all_handles.

(** ** The engine *)

(** [MBEDTLS_SSL_VERIFY_OPTIONAL] and [MBEDTLS_SSL_VERIFY_REQUIRED]. *)
Inductive authmode : Set :=
| MBEDTLS_SSL_VERIFY_OPTIONAL
| MBEDTLS_SSL_VERIFY_REQUIRED.

(** The calls [iot_tls_connect], [iot_tls_disconnect] and [iot_tls_destroy]
    make, with the arguments that matter.  (The calls made only under
    [MBEDTLS_DEBUG_C] and [ENABLE_IOT_DEBUG] are left out.) *)
Inductive call : Type :=
| init_of (h : handle)
| free_of (h : handle)
| mbedtls_entropy_add_source
| mbedtls_ctr_drbg_seed
| rofs_readfile (name : option string)
| mbedtls_x509_crt_parse (h : handle) (buflen : Z)
| mbedtls_pk_parse_key (buflen : Z)
| mbedtls_net_connect (host : option string) (port : Z)
| mbedtls_net_set_block
| mbedtls_ssl_config_defaults
| mbedtls_ssl_conf_verify
| mbedtls_ssl_conf_authmode (mode : authmode)
| mbedtls_ssl_conf_rng
| mbedtls_ssl_conf_ca_chain
| mbedtls_ssl_conf_own_cert
| mbedtls_ssl_conf_read_timeout (ms : Z)
| mbedtls_ssl_setup
| mbedtls_ssl_set_hostname (host : option string)
| mbedtls_ssl_set_bio
| mbedtls_ssl_handshake
| mbedtls_ssl_get_record_expansion
| mbedtls_ssl_get_verify_result
| mbedtls_x509_crt_verify_info
| mbedtls_ssl_close_notify.

(** A file of the read-only store: its bytes and the two fields of
    [rofs_file_info_t] the wrapper reads. *)
Record rofs_file : Type := mk_rofs_file
  { cert_filemem : list byte; info_length : Z; info_null_added : Z }.

(** What the engine, the store and the transport answer during one
    [iot_tls_connect]. *)
Record Engine : Type := mk_Engine
  { entropy_add_source_ret : Z;
    ctr_drbg_seed_ret : Z;
    readfile : option string -> Z * rofs_file;
    x509_crt_parse_ret : list byte -> Z -> Z;
    pk_parse_key_ret : list byte -> Z -> Z;
    net_connect_ret : Z;
    net_set_block_ret : Z;
    ssl_config_defaults_ret : Z;
    ssl_conf_own_cert_ret : Z;
    ssl_setup_ret : Z;
    ssl_set_hostname_ret : Z;
    ssl_handshake_rets : list Z;
    ssl_get_record_expansion_ret : Z;
    ssl_get_verify_result_ret : Z }.

(** The world outside the session: the calls made so far, the counts of
    objects that came to own something, that were released and that were
    overwritten while owning something, and whether an object that is
    uninitialised, or freed already, was used or freed. *)
Record World : Type := mk_World
  { trace : list call;
    acquired : nat;
    released : nat;
    leaked : nat;
    ub : bool }.

Record State : Type := mk_State { net : Network; world : World }.

Definition data (s : State) : TLSDataParams := tlsDataParams (net s).
Definition params (s : State) : TLSConnectParams := tlsConnectParams (net s).

Definition put_obj (h : handle) (o : obj) (s : State) : Network :=
  mk_Network (params s) (set_obj h o (data s)).

Definition log (c : call) (w : World) : World :=
  mk_World (trace w ++ [c]) (acquired w) (released w) (leaked w) (ub w).

(** ** Control: a state monad with early return *)

(** A step goes on with a value, leaves the function by [return], or never
    comes back (a retry loop whose script gives no final answer). *)
Inductive outcome (A : Type) : Type :=
| Next (a : A)
| Return (e : IoT_Error_t)
| Spin.
Arguments Next {A}.
Arguments Return {A}.
Arguments Spin {A}.

Definition M (A : Type) : Type := State -> outcome A * State.

Definition pure {A : Type} (a : A) : M A := fun s => (Next a, s).

Definition bind {A B : Type} (m : M A) (k : A -> M B) : M B :=
  fun s => match m s with
           | (Next a, s') => k a s'
           | (Return e, s') => (Return e, s')
           | (Spin, s') => (Spin, s')
           end.

Definition exit {A : Type} (e : IoT_Error_t) : M A := fun s => (Return e, s).
Definition spin {A : Type} : M A := fun s => (Spin, s).
Definition gets {A : Type} (f : State -> A) : M A := fun s => (Next (f s), s).
Definition modify_net (f : Network -> Network) : M unit :=
  fun s => (Next tt, mk_State (f (net s)) (world s)).

Declare Scope tls_scope.
Delimit Scope tls_scope with tls.
Notation "x <- m ;; k" := (bind m (fun x => k))
  (at level 61, m at next level, right associativity) : tls_scope.
Notation "m ;; k" := (bind m (fun _ => k))
  (at level 61, right associativity) : tls_scope.
Notation "'return_if' b 'then' e ;; k" := (bind (if b then exit e else pure tt) (fun _ => k))
  (at level 61, b at next level, e at next level, right associativity) : tls_scope.

(** What a function gave back to its caller, if it came back. *)
Definition returned (o : outcome IoT_Error_t) : option IoT_Error_t :=
  match o with
  | Next e => Some e
  | Return e => Some e
  | Spin => None
  end.

Local Open Scope tls_scope.

(** ** The engine's calls *)

(** Modelled from the spec: an init function ([mbedtls_net_init],
    [mbedtls_ssl_init], ...; the engine is not among the sources) leaves the
    object initialised and owning nothing, whatever the memory held before;
    what the object owned is lost. *)
Definition engine_init (h : handle) : M unit :=
  fun s =>
    let w := world s in
    (Next tt,
     mk_State (put_obj h Clean s)
       (mk_World (trace w ++ [init_of h]) (acquired w) (released w)
          (match get_obj h (data s) with Holding => S (leaked w) | _ => leaked w end)
          (ub w))).

(** Modelled from the spec: a call that works on the object [h] (seed, parse,
    connect, configure, set up, handshake, ...; the engine is not among the
    sources) needs it initialised and may make it own memory or a handle,
    whatever the call answers. *)
Definition engine_call {A : Type} (h : handle) (c : call) (answer : A) : M A :=
  fun s =>
    let w := world s in
    match get_obj h (data s) with
    | Garbage =>
        (Next answer,
         mk_State (net s)
           (mk_World (trace w ++ [c]) (acquired w) (released w) (leaked w) true))
    | Clean =>
        (Next answer,
         mk_State (put_obj h Holding s)
           (mk_World (trace w ++ [c]) (S (acquired w)) (released w) (leaked w) (ub w)))
    | Holding => (Next answer, mk_State (net s) (log c w))
    end.

(** Modelled from the spec: a free function ([mbedtls_net_free],
    [mbedtls_ssl_free], ...; the engine is not among the sources) releases
    what an initialised object owns and ends its life.  The spec has each
    object initialised once before any use and freed exactly once (section
    3), with strict ordering dependencies between init, use and free
    (section 9), and counts a double free and a use after destroy as faults
    (section 8): a freed object is as uninitialised memory, and to free an
    object that is uninitialised or freed already is undefined. *)
Definition engine_free (h : handle) : M unit :=
  fun s =>
    let w := world s in
    match get_obj h (data s) with
    | Garbage =>
        (Next tt,
         mk_State (net s)
           (mk_World (trace w ++ [free_of h]) (acquired w) (released w) (leaked w) true))
    | Clean => (Next tt, mk_State (put_obj h Garbage s) (log (free_of h) w))
    | Holding =>
        (Next tt,
         mk_State (put_obj h Garbage s)
           (mk_World (trace w ++ [free_of h]) (acquired w) (S (released w)) (leaked w)
              (ub w)))
    end.

(** A call that touches none of the session's objects. *)
Definition emit {A : Type} (c : call) (answer : A) : M A :=
  fun s => (Next answer, mk_State (net s) (log c (world s))).

(** ** [iot_tls_init] and [iot_tls_is_connected] *)

Definition _iot_tls_set_connect_params (pNetwork : Network)
    (pRootCALocation' pDeviceCertLocation' pDevicePrivateKeyLocation'
       pDestinationURL' : option string)
    (destinationPort timeout_ms' : Z) (ServerVerificationFlag' : bool) : Network :=
  mk_Network
    (mk_TLSConnectParams pRootCALocation' pDeviceCertLocation' pDevicePrivateKeyLocation'
       pDestinationURL' destinationPort timeout_ms' ServerVerificationFlag')
    (tlsDataParams pNetwork).

Definition set_flags (f : Z) (pNetwork : Network) : Network :=
  let d := tlsDataParams pNetwork in
  mk_Network (tlsConnectParams pNetwork)
    (mk_TLSDataParams (entropy d) (ctr_drbg d) (ssl d) (conf d) f (cacert d) (clicert d)
       (pkey d) (server_fd d)).

(** [iot_tls_init]: the parameters are stored and [flags] is zeroed; the
    engine objects are not touched.  (The function pointers it installs are
    the functions of this file.) *)
Definition iot_tls_init (pNetwork : Network)
    (pRootCALocation' pDeviceCertLocation' pDevicePrivateKeyLocation'
       pDestinationURL' : option string)
    (destinationPort timeout_ms' : Z) (ServerVerificationFlag' : bool)
  : IoT_Error_t * Network :=
  (SUCCESS,
   set_flags 0
     (_iot_tls_set_connect_params pNetwork pRootCALocation' pDeviceCertLocation'
        pDevicePrivateKeyLocation' pDestinationURL' destinationPort timeout_ms'
        ServerVerificationFlag')).

(** [iot_tls_is_connected]: the argument is not read. *)
Definition iot_tls_is_connected (pNetwork : option Network) : IoT_Error_t :=
  NETWORK_PHYSICAL_LAYER_CONNECTED.

(** ** [iot_tls_connect] *)

Definition clear_ServerVerificationFlag (pNetwork : Network) : Network :=
  let p := tlsConnectParams pNetwork in
  _iot_tls_set_connect_params pNetwork (pRootCALocation p) (pDeviceCertLocation p)
    (pDevicePrivateKeyLocation p) (pDestinationURL p) (DestinationPort p) (timeout_ms p)
    false.

(** [while ((ret = mbedtls_ssl_handshake(..)) != 0)]: would-block answers
    are retried, any other non-zero answer leaves [iot_tls_connect]. *)
Fixpoint handshake_loop (rets : list Z) : M unit :=
  match rets with
  | [] => spin
  | r :: rets' =>
      ret <- engine_call H_ssl mbedtls_ssl_handshake r ;;
      if ret =? 0 then pure tt
      else if negb (ret =? MBEDTLS_ERR_SSL_WANT_READ)
              && negb (ret =? MBEDTLS_ERR_SSL_WANT_WRITE)
      then exit SSL_CONNECTION_ERROR
      else handshake_loop rets'
  end.

(** The [switch (ret)] after a failed [mbedtls_net_connect]. *)
Definition net_connect_error (ret : Z) : IoT_Error_t :=
  if ret =? MBEDTLS_ERR_NET_SOCKET_FAILED then NETWORK_ERR_NET_SOCKET_FAILED
  else if ret =? MBEDTLS_ERR_NET_UNKNOWN_HOST then NETWORK_ERR_NET_UNKNOWN_HOST
  else NETWORK_ERR_NET_CONNECT_FAILED.

(** Loading the root certificate, or clearing the verification flag when
    there is none. *)
Definition load_root_ca (E : Engine) : M unit :=
  root <- gets (fun s => pRootCALocation (params s)) ;;
  match root with
  | Some _ =>
      f <- emit (rofs_readfile root) (readfile E root) ;;
      return_if (fst f <? 0) then NETWORK_X509_ROOT_CRT_PARSE_ERROR ;;
      let buflen := info_length (snd f) + info_null_added (snd f) in
      ret <- engine_call H_cacert (mbedtls_x509_crt_parse H_cacert buflen)
               (x509_crt_parse_ret E (cert_filemem (snd f)) buflen) ;;
      return_if (ret <? 0) then NETWORK_X509_ROOT_CRT_PARSE_ERROR ;;
      pure tt
  | None => modify_net clear_ServerVerificationFlag
  end.

(** Loading the device certificate and its key, when there is one. *)
Definition load_device_cert (E : Engine) : M unit :=
  cert <- gets (fun s => pDeviceCertLocation (params s)) ;;
  match cert with
  | Some _ =>
      f <- emit (rofs_readfile cert) (readfile E cert) ;;
      return_if (fst f <? 0) then NETWORK_X509_DEVICE_CRT_PARSE_ERROR ;;
      let buflen := info_length (snd f) + info_null_added (snd f) in
      ret <- engine_call H_clicert (mbedtls_x509_crt_parse H_clicert buflen)
               (x509_crt_parse_ret E (cert_filemem (snd f)) buflen) ;;
      return_if (negb (ret =? 0)) then NETWORK_X509_DEVICE_CRT_PARSE_ERROR ;;
      key <- gets (fun s => pDevicePrivateKeyLocation (params s)) ;;
      f <- emit (rofs_readfile key) (readfile E key) ;;
      return_if (fst f <? 0) then NETWORK_PK_PRIVATE_KEY_PARSE_ERROR ;;
      let buflen := info_length (snd f) + info_null_added (snd f) in
      ret <- engine_call H_pkey (mbedtls_pk_parse_key buflen)
               (pk_parse_key_ret E (cert_filemem (snd f)) buflen) ;;
      return_if (negb (ret =? 0)) then NETWORK_PK_PRIVATE_KEY_PARSE_ERROR ;;
      pure tt
  | None => pure tt
  end.

(** Opening the transport. *)
Definition open_transport (E : Engine) : M unit :=
  host <- gets (fun s => pDestinationURL (params s)) ;;
  port <- gets (fun s => DestinationPort (params s)) ;;
  ret <- engine_call H_server_fd (mbedtls_net_connect host port) (net_connect_ret E) ;;
  return_if (negb (ret =? 0)) then (net_connect_error ret) ;;
  ret <- engine_call H_server_fd mbedtls_net_set_block (net_set_block_ret E) ;;
  return_if (negb (ret =? 0)) then SSL_CONNECTION_ERROR ;;
  pure tt.

(** Filling in the configuration and binding the context to the transport. *)
Definition configure (E : Engine) : M unit :=
  ret <- engine_call H_conf mbedtls_ssl_config_defaults (ssl_config_defaults_ret E) ;;
  return_if (negb (ret =? 0)) then SSL_CONNECTION_ERROR ;;
  engine_call H_conf mbedtls_ssl_conf_verify tt ;;
  verify <- gets (fun s => ServerVerificationFlag (params s)) ;;
  (if Bool.eqb verify true
   then engine_call H_conf (mbedtls_ssl_conf_authmode MBEDTLS_SSL_VERIFY_REQUIRED) tt
   else engine_call H_conf (mbedtls_ssl_conf_authmode MBEDTLS_SSL_VERIFY_OPTIONAL) tt) ;;
  engine_call H_conf mbedtls_ssl_conf_rng tt ;;
  root <- gets (fun s => pRootCALocation (params s)) ;;
  (match root with
   | Some _ => engine_call H_conf mbedtls_ssl_conf_ca_chain tt
   | None => pure tt
   end) ;;
  cert <- gets (fun s => pDeviceCertLocation (params s)) ;;
  (match cert with
   | Some _ =>
       ret <- engine_call H_conf mbedtls_ssl_conf_own_cert (ssl_conf_own_cert_ret E) ;;
       return_if (negb (ret =? 0)) then SSL_CONNECTION_ERROR ;;
       pure tt
   | None => pure tt
   end) ;;
  timeout <- gets (fun s => timeout_ms (params s)) ;;
  engine_call H_conf (mbedtls_ssl_conf_read_timeout timeout) tt ;;
  ret <- engine_call H_ssl mbedtls_ssl_setup (ssl_setup_ret E) ;;
  return_if (negb (ret =? 0)) then SSL_CONNECTION_ERROR ;;
  host <- gets (fun s => pDestinationURL (params s)) ;;
  ret <- engine_call H_ssl (mbedtls_ssl_set_hostname host) (ssl_set_hostname_ret E) ;;
  return_if (negb (ret =? 0)) then SSL_CONNECTION_ERROR ;;
  engine_call H_ssl mbedtls_ssl_set_bio tt.

(** The check of the verification result, made when the verification flag
    is set. *)
Definition verify_peer (E : Engine) : M IoT_Error_t :=
  verify <- gets (fun s => ServerVerificationFlag (params s)) ;;
  if Bool.eqb verify true then
    f <- engine_call H_ssl mbedtls_ssl_get_verify_result (ssl_get_verify_result_ret E) ;;
    modify_net (set_flags f) ;;
    if negb (f =? 0) then
      emit mbedtls_x509_crt_verify_info tt ;;
      pure SSL_CONNECTION_ERROR
    else pure SUCCESS
  else pure SUCCESS.

(** [if (NULL != params) _iot_tls_set_connect_params(pNetwork, ...)] *)
Definition store_params (params' : option TLSConnectParams) : M unit :=
  match params' with
  | Some p =>
      modify_net (fun n =>
        _iot_tls_set_connect_params n (pRootCALocation p) (pDeviceCertLocation p)
          (pDevicePrivateKeyLocation p) (pDestinationURL p) (DestinationPort p)
          (timeout_ms p) (ServerVerificationFlag p))
  | None => pure tt
  end.

(** The init calls on the eight engine objects. *)
Definition init_objects : M unit :=
  engine_init H_server_fd ;;
  engine_init H_ssl ;;
  engine_init H_conf ;;
  engine_init H_ctr_drbg ;;
  engine_init H_cacert ;;
  engine_init H_clicert ;;
  engine_init H_pkey ;;
  engine_init H_entropy.

(** Seeding the random number generator. *)
Definition seed_rng (E : Engine) : M unit :=
  ret <- engine_call H_entropy mbedtls_entropy_add_source (entropy_add_source_ret E) ;;
  return_if (negb (ret =? 0)) then NETWORK_MBEDTLS_ERR_CTR_DRBG_ENTROPY_SOURCE_FAILED ;;
  ret <- engine_call H_ctr_drbg mbedtls_ctr_drbg_seed (ctr_drbg_seed_ret E) ;;
  return_if (negb (ret =? 0)) then NETWORK_MBEDTLS_ERR_CTR_DRBG_ENTROPY_SOURCE_FAILED ;;
  pure tt.

(** [iot_tls_connect] past the NULL check: the steps in the order of the
    source.  ([mbedtls_entropy_init] is the last of the init calls and comes
    before the first call that can fail.) *)
Definition connect_body (E : Engine) (params' : option TLSConnectParams)
  : M IoT_Error_t :=
  store_params params' ;;
  init_objects ;;
  seed_rng E ;;
  load_root_ca E ;;
  load_device_cert E ;;
  open_transport E ;;
  configure E ;;
  handshake_loop (ssl_handshake_rets E) ;;
  engine_call H_ssl mbedtls_ssl_get_record_expansion (ssl_get_record_expansion_ret E) ;;
  ret <- verify_peer E ;;
  engine_call H_conf (mbedtls_ssl_conf_read_timeout IOT_SSL_READ_TIMEOUT) tt ;;
  pure ret.

(** [iot_tls_connect(pNetwork, params)]: the outcome, the session and the
    world after it. *)
Definition iot_tls_connect (E : Engine) (pNetwork : option Network)
    (params' : option TLSConnectParams) (w : World)
  : outcome IoT_Error_t * option Network * World :=
  match pNetwork with
  | None => (Return NULL_VALUE_ERROR, None, w)
  | Some n =>
      let (o, s) := connect_body E params' (mk_State n w) in
      (o, Some (net s), world s)
  end.

(** ** [iot_tls_disconnect] and [iot_tls_destroy] *)

(** [do { ret = mbedtls_ssl_close_notify(ssl); } while (ret == WANT_WRITE)] *)
Fixpoint close_notify_loop (rets : list Z) : M unit :=
  match rets with
  | [] => spin
  | r :: rets' =>
      ret <- engine_call H_ssl mbedtls_ssl_close_notify r ;;
      if ret =? MBEDTLS_ERR_SSL_WANT_WRITE then close_notify_loop rets' else pure tt
  end.

Definition iot_tls_disconnect (close_notify_rets : list Z) : M IoT_Error_t :=
  close_notify_loop close_notify_rets ;;
  pure SUCCESS.

Definition iot_tls_destroy : M IoT_Error_t :=
  engine_free H_server_fd ;;
  engine_free H_clicert ;;
  engine_free H_cacert ;;
  engine_free H_pkey ;;
  engine_free H_ssl ;;
  engine_free H_conf ;;
  engine_free H_ctr_drbg ;;
  engine_free H_entropy ;;
  pure SUCCESS.

(** ** Sessions and worlds to start from *)

(** A session structure nobody has initialised. *)
Definition raw_TLSDataParams : TLSDataParams :=
  mk_TLSDataParams Garbage Garbage Garbage Garbage 0 Garbage Garbage Garbage Garbage.

Definition new_world : World := mk_World [] 0 0 0 false.

(** No object of the session owns anything, nothing was leaked and every
    acquisition so far was released: the session before its first connect
    and after a destroy. *)
Definition at_rest (s : State) : Prop :=
  holding (data s) = 0%nat /\ leaked (world s) = 0%nat
  /\ acquired (world s) = released (world s) /\ ub (world s) = false.

(** Every engine object has been initialised. *)
Definition initialised (d : TLSDataParams) : Prop :=
  forall h, get_obj h d <> Garbage.

(** No engine object owns anything. *)
Definition all_clean (d : TLSDataParams) : Prop :=
  forall h, get_obj h d = Clean.

(** Every engine object has been freed (or never initialised). *)
Definition all_freed (d : TLSDataParams) : Prop :=
  forall h, get_obj h d = Garbage.

(** The objects [iot_tls_destroy] frees, in the order of the source. *)
Definition destroy_order : list handle :=
  [H_server_fd; H_clicert; H_cacert; H_pkey; H_ssl; H_conf; H_ctr_drbg; H_entropy].



(** ** Reasoning about the monad *)

(** [wp m Q X s]: run from [s], [m] either goes on with a value and a state
    that satisfy [Q], or leaves (by [return], [Some e], or by spinning,
    [None]) in a state that satisfies [X]. *)
Definition wp {A : Type} (m : M A) (Q : A -> State -> Prop)
    (X : option IoT_Error_t -> State -> Prop) (s : State) : Prop :=
  match m s with
  | (Next a, s') => Q a s'
  | (Return e, s') => X (Some e) s'
  | (Spin, s') => X None s'
  end.

(** The two calls the verification properties are about; all others are
    quiet. *)
Definition is_verify_result (c : call) : bool :=
  match c with mbedtls_ssl_get_verify_result => true | _ => false end.

Definition is_authmode (c : call) : bool :=
  match c with mbedtls_ssl_conf_authmode _ => true | _ => false end.

Definition quiet (c : call) : bool := negb (is_verify_result c) && negb (is_authmode c).

(** A property of the state that no quiet call of the engine disturbs. *)
Definition stable (I : State -> Prop) : Prop :=
  forall (s : State) (c : call),
    quiet c = true -> I s ->
    (forall (h : handle) (A : Type) (a : A), I (snd (engine_call h c a s)))
    /\ (forall (A : Type) (a : A), I (snd (emit c a s))).

(** A property, in a session that has a root certificate. *)
Definition rooted (I : State -> Prop) (s : State) : Prop :=
  I s /\ pRootCALocation (params s) <> None.

(** The ways [iot_tls_connect] leaves after the trust-loading step: not with
    SUCCESS and not with the root-certificate error. *)
Definition late (oe : option IoT_Error_t) : Prop :=
  oe <> Some SUCCESS /\ oe <> Some NETWORK_X509_ROOT_CRT_PARSE_ERROR.

(** An engine for which seeding succeeds. *)
Definition seeding_succeeds (E : Engine) : Prop :=
  entropy_add_source_ret E = 0 /\ ctr_drbg_seed_ret E = 0.

(** The states [iot_tls_connect] can leave in, by the step it leaves from:
    seeding (under [I0], the seeding having failed), trust loading (under
    [I0], with a root certificate), or a later step (under [I1] or [I2]). *)
Definition left_from (E : Engine) (I0 I1 I2 : State -> Prop)
    (oe : option IoT_Error_t) (s : State) : Prop :=
  (I0 s /\ oe = Some NETWORK_MBEDTLS_ERR_CTR_DRBG_ENTROPY_SOURCE_FAILED
   /\ ~ seeding_succeeds E)
  \/ (rooted I0 s /\ oe = Some NETWORK_X509_ROOT_CRT_PARSE_ERROR)
  \/ ((I1 s \/ I2 s) /\ late oe).

(** Whether the verification result was asked for in a list of calls, and
    the authentication mode the calls leave configured. *)
Definition verify_checked (cs : list call) : bool := existsb is_verify_result cs.

Fixpoint authmode_set (cs : list call) : option authmode :=
  match cs with
  | [] => None
  | c :: cs' =>
      match authmode_set cs' with
      | Some m => Some m
      | None => match c with
                | mbedtls_ssl_conf_authmode m => Some m
                | _ => None
                end
      end
  end.

(** The mode [iot_tls_connect] configures for a verification flag. *)
Definition mode_for (verify : bool) : authmode :=
  if verify then MBEDTLS_SSL_VERIFY_REQUIRED else MBEDTLS_SSL_VERIFY_OPTIONAL.

(** The parameters a connect works with: the ones passed, or the session's
    own when [params] is NULL. *)
Definition effective_params (pNetwork : Network) (params' : option TLSConnectParams)
  : TLSConnectParams :=
  match params' with
  | Some p => p
  | None => tlsConnectParams pNetwork
  end.

Definition has_root_ca (p : TLSConnectParams) : bool :=
  match pRootCALocation p with Some _ => true | None => false end.

(** The parameters as trust loading leaves them. *)
Definition after_trust (p : TLSConnectParams) : TLSConnectParams :=
  mk_TLSConnectParams (pRootCALocation p) (pDeviceCertLocation p)
    (pDevicePrivateKeyLocation p) (pDestinationURL p) (DestinationPort p) (timeout_ms p)
    (has_root_ca p && ServerVerificationFlag p).

(** The calls made since the trace was [t0] are [cs]. *)
Definition since (t0 : list call) (s : State) (cs : list call) : Prop :=
  trace (world s) = t0 ++ cs.

(** The resource accounts balance: nothing undefined happened, nothing was
    leaked, every object is initialised, and what was acquired is what was
    released plus what the objects still own. *)
Definition accounted (s : State) : Prop :=
  ub (world s) = false /\ leaked (world s) = 0%nat /\ initialised (data s)
  /\ acquired (world s) = (released (world s) + holding (data s))%nat.

(** The session while its objects are being initialised: the objects in
    [hs] are. *)
Definition initialising (hs : list handle) (s : State) : Prop :=
  ub (world s) = false /\ leaked (world s) = 0%nat
  /\ acquired (world s) = released (world s)
  /\ (forall h, get_obj h (data s) <> Holding)
  /\ (forall h, In h hs -> get_obj h (data s) = Clean).

(** The session while it is being destroyed: the objects in [hs] are freed,
    the others still initialised, and the accounts balance. *)
Definition freeing (hs : list handle) (s : State) : Prop :=
  ub (world s) = false /\ leaked (world s) = 0%nat
  /\ acquired (world s) = (released (world s) + holding (data s))%nat
  /\ (forall h, In h hs -> get_obj h (data s) = Garbage)
  /\ (forall h, ~ In h hs -> get_obj h (data s) <> Garbage).



(** The verification state of a connect in progress: the parameters are [p],
    and the calls since [t0] checked the verification result or not, [vc],
    and configured the mode [am]. *)
Definition verifying (t0 : list call) (p : TLSConnectParams) (vc : bool)
    (am : option authmode) (s : State) : Prop :=
  params s = p
  /\ exists cs, since t0 s cs /\ verify_checked cs = vc /\ authmode_set cs = am.

(** The result of the verification step: the check was made exactly when
    the flag is set, and SUCCESS then means a clean verification result. *)
Definition verified (t0 : list call) (p : TLSConnectParams) (r : IoT_Error_t)
    (s : State) : Prop :=
  verifying t0 p (ServerVerificationFlag p)
    (Some (mode_for (ServerVerificationFlag p))) s
  /\ (r = SUCCESS -> ServerVerificationFlag p = true -> flags (data s) = 0)
  /\ (r = SUCCESS \/ r = SSL_CONNECTION_ERROR).

(** Since the trace was [t0], the first call made was the first init call
    of [iot_tls_connect]. *)
Definition begun (t0 : list call) (s : State) : Prop :=
  exists cs, trace (world s) = t0 ++ init_of H_server_fd :: cs.

(** ** Sample engines and sessions *)

Local Open Scope string_scope.

(** A one-byte file with a terminator added. *)
Definition sample_file : rofs_file := mk_rofs_file [x2d; x00] 1 1.

(** An engine for which every call succeeds; the handshake would block once
    and then completes, and the verification result is clean. *)
Definition engine_ok : Engine :=
  mk_Engine 0 0 (fun _ => (0, sample_file)) (fun _ _ => 0) (fun _ _ => 0) 0 0 0 0 0 0
    [MBEDTLS_ERR_SSL_WANT_READ; 0] 0 0.


(** Parameters with a root certificate and verification not asked for, and
    parameters without a root certificate and verification asked for. *)
Definition params_ca_no_verify : TLSConnectParams :=
  mk_TLSConnectParams (Some "ca.pem") None None (Some "broker.example") 8883 5000 false.

Definition params_ca_verify : TLSConnectParams :=
  mk_TLSConnectParams (Some "ca.pem") None None (Some "broker.example") 8883 5000 true.

Definition params_no_ca : TLSConnectParams :=
  mk_TLSConnectParams None None None (Some "broker.example") 8883 5000 true.

(** A session structure on which only [iot_tls_init] has run. *)
Definition session_raw : Network := mk_Network params_no_ca raw_TLSDataParams.

(** The session and the world after a connect that failed at seeding. *)
Definition session_seed_failed : Network :=
  mk_Network params_no_ca
    (mk_TLSDataParams Holding Clean Clean Clean 0 Clean Clean Clean Clean).

Definition world_seed_failed : World :=
  mk_World
    (map init_of [H_server_fd; H_ssl; H_conf; H_ctr_drbg; H_cacert; H_clicert; H_pkey;
                  H_entropy]
     ++ [mbedtls_entropy_add_source])
    1 0 0 false.

(** The session a connect hands back (a raw one when there is none, the
    session pointer being NULL). *)
Definition session_after (r : outcome IoT_Error_t * option Network * World) : Network :=
  match snd (fst r) with
  | Some n => n
  | None => session_raw
  end.

(** Two sample connects of a fresh session: with a root certificate and
    verification asked for, and without a root certificate. *)
Definition connect_verified : outcome IoT_Error_t * option Network * World :=
  iot_tls_connect engine_ok (Some session_raw) (Some params_ca_verify) new_world.


Local Close Scope string_scope.

(** ** Further notions for the timed transfers *)

(** The number of polls of a timer script that answer "not expired". *)
Definition running_polls (timer : Timer) : nat :=
  List.length (filter negb timer).

(** An answer of the record-read primitive on which [iot_tls_read] returns
    at once: not positive, and zero or none of the three retryable codes. *)
Definition fatal_read_answer (ret : Z) : bool := negb (0 <? ret) && read_fatal ret.

(** The length each read asks for is what the reads before it left:
    [len -= ret] after a positive answer, [len] unchanged otherwise. *)
Fixpoint requests_follow (len : Z) (cs : list read_call) : Prop :=
  match cs with
  | [] => True
  | c :: cs' =>
      fst c = len
      /\ requests_follow (if 0 <? snd c then size_sub len (snd c) else len) cs'
  end.

(** An answer of the record-write primitive that sets [isErrorFlag]: not
    positive and neither would-block code. *)
Definition fatal_write_answer (ret : Z) : bool :=
  (ret <=? 0)
  && (negb (ret =? MBEDTLS_ERR_SSL_WANT_READ)
      && negb (ret =? MBEDTLS_ERR_SSL_WANT_WRITE)).

(** ** The decision of [iot_tls_connect]

    What each step of [iot_tls_connect] decides, read as a function of the
    engine's answers and of the parameters: [Some e] when the step leaves
    the function with [e], [None] when it goes on. *)

Definition seed_exit (E : Engine) : option IoT_Error_t :=
  if negb (entropy_add_source_ret E =? 0)
  then Some NETWORK_MBEDTLS_ERR_CTR_DRBG_ENTROPY_SOURCE_FAILED
  else if negb (ctr_drbg_seed_ret E =? 0)
       then Some NETWORK_MBEDTLS_ERR_CTR_DRBG_ENTROPY_SOURCE_FAILED
       else None.

(** The answer of the parser to a file of the store, read with its
    terminator counted in. *)
Definition crt_parse_of (E : Engine) (name : option string) : Z :=
  let f := readfile E name in
  x509_crt_parse_ret E (cert_filemem (snd f)) (info_length (snd f) + info_null_added (snd f)).

Definition key_parse_of (E : Engine) (name : option string) : Z :=
  let f := readfile E name in
  pk_parse_key_ret E (cert_filemem (snd f)) (info_length (snd f) + info_null_added (snd f)).

Definition root_exit (E : Engine) (p : TLSConnectParams) : option IoT_Error_t :=
  match pRootCALocation p with
  | Some _ =>
      if fst (readfile E (pRootCALocation p)) <? 0
      then Some NETWORK_X509_ROOT_CRT_PARSE_ERROR
      else if crt_parse_of E (pRootCALocation p) <? 0
           then Some NETWORK_X509_ROOT_CRT_PARSE_ERROR
           else None
  | None => None
  end.

Definition identity_exit (E : Engine) (p : TLSConnectParams) : option IoT_Error_t :=
  match pDeviceCertLocation p with
  | Some _ =>
      if fst (readfile E (pDeviceCertLocation p)) <? 0
      then Some NETWORK_X509_DEVICE_CRT_PARSE_ERROR
      else if negb (crt_parse_of E (pDeviceCertLocation p) =? 0)
           then Some NETWORK_X509_DEVICE_CRT_PARSE_ERROR
           else if fst (readfile E (pDevicePrivateKeyLocation p)) <? 0
                then Some NETWORK_PK_PRIVATE_KEY_PARSE_ERROR
                else if negb (key_parse_of E (pDevicePrivateKeyLocation p) =? 0)
                     then Some NETWORK_PK_PRIVATE_KEY_PARSE_ERROR
                     else None
  | None => None
  end.

Definition transport_exit (E : Engine) : option IoT_Error_t :=
  if negb (net_connect_ret E =? 0) then Some (net_connect_error (net_connect_ret E))
  else if negb (net_set_block_ret E =? 0) then Some SSL_CONNECTION_ERROR
       else None.

Definition configure_exit (E : Engine) (p : TLSConnectParams) : option IoT_Error_t :=
  if negb (ssl_config_defaults_ret E =? 0) then Some SSL_CONNECTION_ERROR
  else if match pDeviceCertLocation p with
          | Some _ => negb (ssl_conf_own_cert_ret E =? 0)
          | None => false
          end
       then Some SSL_CONNECTION_ERROR
       else if negb (ssl_setup_ret E =? 0) then Some SSL_CONNECTION_ERROR
            else if negb (ssl_set_hostname_ret E =? 0) then Some SSL_CONNECTION_ERROR
                 else None.

(** How the handshake loop ends on a script of answers. *)
Inductive handshake_end : Set :=
| HsDone      (* an answer of 0 after would-blocks only *)
| HsFailed    (* an answer that is neither 0 nor a would-block *)
| HsSpin.     (* would-blocks to the end of the script *)

Fixpoint handshake_ends (rets : list Z) : handshake_end :=
  match rets with
  | [] => HsSpin
  | r :: rets' =>
      if r =? 0 then HsDone
      else if negb (r =? MBEDTLS_ERR_SSL_WANT_READ)
              && negb (r =? MBEDTLS_ERR_SSL_WANT_WRITE)
           then HsFailed
           else handshake_ends rets'
  end.

Definition verify_exit (E : Engine) (p : TLSConnectParams) : IoT_Error_t :=
  if Bool.eqb (ServerVerificationFlag p) true
  then if negb (ssl_get_verify_result_ret E =? 0) then SSL_CONNECTION_ERROR else SUCCESS
  else SUCCESS.

(** What [iot_tls_connect] gives back ([None]: it does not come back), by
    the steps in their order. *)
Definition connect_outcome (E : Engine) (p : TLSConnectParams) : option IoT_Error_t :=
  match seed_exit E with
  | Some e => Some e
  | None =>
  match root_exit E p with
  | Some e => Some e
  | None =>
  match identity_exit E (after_trust p) with
  | Some e => Some e
  | None =>
  match transport_exit E with
  | Some e => Some e
  | None =>
  match configure_exit E (after_trust p) with
  | Some e => Some e
  | None =>
  match handshake_ends (ssl_handshake_rets E) with
  | HsSpin => None
  | HsFailed => Some SSL_CONNECTION_ERROR
  | HsDone => Some (verify_exit E (after_trust p))
  end end end end end end.

(** The conditions of the steps, in the engine's answers. *)
Definition root_loads (E : Engine) (p : TLSConnectParams) : Prop :=
  match pRootCALocation p with
  | Some _ =>
      0 <= fst (readfile E (pRootCALocation p)) /\ 0 <= crt_parse_of E (pRootCALocation p)
  | None => True
  end.

Definition cert_loads (E : Engine) (p : TLSConnectParams) : Prop :=
  match pDeviceCertLocation p with
  | Some _ =>
      0 <= fst (readfile E (pDeviceCertLocation p))
      /\ crt_parse_of E (pDeviceCertLocation p) = 0
  | None => True
  end.

Definition key_loads (E : Engine) (p : TLSConnectParams) : Prop :=
  match pDeviceCertLocation p with
  | Some _ =>
      0 <= fst (readfile E (pDevicePrivateKeyLocation p))
      /\ key_parse_of E (pDevicePrivateKeyLocation p) = 0
  | None => True
  end.

Definition transport_opens (E : Engine) : Prop :=
  net_connect_ret E = 0 /\ net_set_block_ret E = 0.

Definition configured (E : Engine) (p : TLSConnectParams) : Prop :=
  ssl_config_defaults_ret E = 0
  /\ (pDeviceCertLocation p <> None -> ssl_conf_own_cert_ret E = 0)
  /\ ssl_setup_ret E = 0
  /\ ssl_set_hostname_ret E = 0.

Definition verification_passes (E : Engine) (p : TLSConnectParams) : Prop :=
  has_root_ca p && ServerVerificationFlag p = false \/ ssl_get_verify_result_ret E = 0.

(** The session holds the parameters [p]. *)
Definition has_params (p : TLSConnectParams) (s : State) : Prop := params s = p.

(** ** Further notions for the life cycle *)

Definition is_free (c : call) : bool :=
  match c with free_of _ => true | _ => false end.

(** Since the trace was [t0], no free function was called. *)
Definition nothing_freed (t0 : list call) (s : State) : Prop :=
  exists cs, since t0 s cs /\ existsb is_free cs = false.

(** While [iot_tls_destroy] runs on a session with an uninitialised object
    [h]: the undefined use has happened, or [h] is still to be freed. *)
Definition doomed (h : handle) (hs : list handle) (s : State) : Prop :=
  ub (world s) = true \/ (get_obj h (data s) = Garbage /\ ~ In h hs).

(** The steps up to the loading of the identity succeed, and up to the
    configuration of the engine. *)
Definition loaded (E : Engine) (p : TLSConnectParams) : Prop :=
  seeding_succeeds E /\ root_loads E p /\ cert_loads E p /\ key_loads E p.

Definition set_up (E : Engine) (p : TLSConnectParams) : Prop :=
  loaded E p /\ transport_opens E /\ configured E p.

(** An answer of the handshake that is retried. *)
Definition would_block (r : Z) : Prop :=
  r = MBEDTLS_ERR_SSL_WANT_READ \/ r = MBEDTLS_ERR_SSL_WANT_WRITE.

(** What a connect gives back to its caller. *)
Definition connect_returns (E : Engine) (n : Network) (params' : option TLSConnectParams)
    (w : World) : option IoT_Error_t :=
  returned (fst (fst (iot_tls_connect E (Some n) params' w))).

(** The three ways a script of handshake answers can go: an answer of 0
    after would-blocks only, an answer that is neither 0 nor a would-block
    after would-blocks only, or would-blocks to the end. *)
Definition handshake_completes (rets : list Z) : Prop :=
  exists blocks more, rets = blocks ++ 0 :: more /\ Forall would_block blocks.

Definition handshake_fails (rets : list Z) : Prop :=
  exists blocks r more,
    rets = blocks ++ r :: more /\ Forall would_block blocks
    /\ r <> 0 /\ ~ would_block r.

Definition handshake_stalls (rets : list Z) : Prop := Forall would_block rets.

(** The parameters [iot_tls_connect] leaves in the session: the ones trust
    loading leaves, when seeding lets it get that far. *)
Definition stored_params (E : Engine) (p : TLSConnectParams) : TLSConnectParams :=
  match seed_exit E with
  | Some _ => p
  | None => after_trust p
  end.

(** An engine whose handshake would block once and then times out. *)
Definition engine_handshake_times_out : Engine :=
  mk_Engine 0 0 (fun _ => (0, sample_file)) (fun _ _ => 0) (fun _ _ => 0) 0 0 0 0 0 0
    [MBEDTLS_ERR_SSL_WANT_READ; MBEDTLS_ERR_SSL_TIMEOUT] 0 0.

(** The last call made so far. *)
Definition last_call (c : call) (s : State) : Prop :=
  exists cs, trace (world s) = cs ++ [c].

(** The state a connect leaves: the session it hands back and the world. *)
Definition state_after (r : outcome IoT_Error_t * option Network * World) : State :=
  mk_State (session_after r) (snd r).

(** A close-notify answer on which [iot_tls_disconnect] asks again. *)
Definition close_retried (r : Z) : Prop := r = MBEDTLS_ERR_SSL_WANT_WRITE.

(** A session on which a connect has succeeded, and a close-notify script:
    one answer that is retried, then one that is not. *)
Definition state_connected : State := state_after connect_verified.

Definition close_script_sample : list Z :=
  [MBEDTLS_ERR_SSL_WANT_WRITE; MBEDTLS_ERR_SSL_WANT_READ].

(** [iot_tls_connect] on a session in any state.  While it initialises the
    objects: [u] tells whether an uninitialised object was used before, the
    objects in [hs] are initialised, and what was lost and what the objects
    own make [k] together.  After it: every object is initialised and [k]
    was lost. *)
Definition reinitialising (u : bool) (k : nat) (hs : list handle) (s : State) : Prop :=
  ub (world s) = u /\ (leaked (world s) + holding (data s))%nat = k
  /\ (forall h, In h hs -> get_obj h (data s) = Clean).

Definition reinitialised (u : bool) (k : nat) (s : State) : Prop :=
  ub (world s) = u /\ leaked (world s) = k /\ initialised (data s).

(** * Properties of the timed transfers *)

Local Close Scope tls_scope.

(** ** Arithmetic and timer lemmas *)

Lemma size_t_wrap_small (z : Z) : 0 <= z < 2 ^ SIZE_WIDTH -> size_t_wrap z = z.
Proof. intros H. unfold size_t_wrap. apply Z.mod_small. exact H. Qed.

Lemma retryable_read_negative (ret : Z) : retryable_read ret = true -> ret < 0.
Proof.
  unfold retryable_read, MBEDTLS_ERR_SSL_WANT_READ, MBEDTLS_ERR_SSL_WANT_WRITE,
    MBEDTLS_ERR_SSL_TIMEOUT.
  intros H.
  apply orb_true_iff in H as [H | H]; [apply orb_true_iff in H as [H | H] |];
    apply Z.eqb_eq in H; lia.
Qed.

Lemma retryable_read_not_fatal (ret : Z) :
  retryable_read ret = true -> negb (0 <? ret) && read_fatal ret = false.
Proof.
  intros H. pose proof (retryable_read_negative ret H) as Hneg.
  unfold read_fatal. unfold retryable_read in H.
  destruct (ret =? 0) eqn:E0; [apply Z.eqb_eq in E0; lia |].
  destruct (ret =? MBEDTLS_ERR_SSL_WANT_READ); simpl.
  - apply andb_false_r.
  - destruct (ret =? MBEDTLS_ERR_SSL_WANT_WRITE); simpl.
    + apply andb_false_r.
    + simpl in H. rewrite H. simpl. apply andb_false_r.
Qed.

Lemma read_fatal_iff (ret : Z) :
  read_fatal ret = true <-> ret = 0 \/ retryable_read ret = false.
Proof.
  unfold read_fatal, retryable_read.
  destruct (ret =? 0) eqn:E0.
  - apply Z.eqb_eq in E0. simpl. tauto.
  - apply Z.eqb_neq in E0. simpl.
    destruct (ret =? MBEDTLS_ERR_SSL_WANT_READ),
             (ret =? MBEDTLS_ERR_SSL_WANT_WRITE),
             (ret =? MBEDTLS_ERR_SSL_TIMEOUT); simpl; split; intros H;
      try discriminate; try reflexivity; try tauto;
      destruct H as [H | H]; try contradiction; discriminate.
Qed.

Lemma running_S (k : nat) (timer : Timer) :
  running (S k) timer -> exists timer', timer = false :: timer' /\ running k timer'.
Proof.
  simpl. destruct timer as [| [] timer']; try contradiction.
  intros H. exists timer'. split; [reflexivity | exact H].
Qed.

Lemma running_le (k k' : nat) (timer : Timer) :
  (k' <= k)%nat -> running k timer -> running k' timer.
Proof.
  revert k' timer. induction k as [| k IH]; intros k' timer Hle H.
  - assert (k' = 0%nat) by lia. subst. exact I.
  - destruct k' as [| k']; [exact I |].
    apply running_S in H as (timer' & -> & H). simpl.
    apply (IH k' timer'); [lia | exact H].
Qed.

(** ** The read loop *)

Lemma read_loop_eq (timer : Timer) (ssl : list Z) (len rxLen : Z) :
  read_loop timer ssl len rxLen =
  if 0 <? len then
    let (ret, ssl') := mbedtls_ssl_read ssl in
    let call := (len, ret) in
    if (negb (0 <? ret)) && read_fatal ret then
      (Returned NETWORK_SSL_READ_ERROR, [call])
    else
      let rxLen' := if 0 <? ret then size_add rxLen ret else rxLen in
      let len' := if 0 <? ret then size_sub len ret else len in
      if fst (has_timer_expired timer) then (Left len' rxLen', [call])
      else read_logged call (read_loop (snd (has_timer_expired timer)) ssl' len' rxLen')
  else (Left len rxLen, []).
Proof. destruct timer as [| [] timer']; reflexivity. Qed.

Lemma read_call_ok_not_fatal (len ret : Z) :
  read_call_ok (len, ret) -> negb (0 <? ret) && read_fatal ret = false.
Proof.
  intros [[Hpos _] | Hretry]; simpl in *.
  - apply Z.ltb_lt in Hpos. rewrite Hpos. reflexivity.
  - apply retryable_read_not_fatal. exact Hretry.
Qed.

(** While the engine keeps to its interface the loop never returns from
    inside, and [len] and [rxLen] account for the bytes delivered. *)
Lemma read_loop_counts (timer : Timer) :
  forall (ssl : list Z) (len rxLen : Z),
    0 <= len -> 0 <= rxLen -> len + rxLen < 2 ^ SIZE_WIDTH ->
    Forall read_call_ok (snd (read_loop timer ssl len rxLen)) ->
    exists len' rxLen',
      fst (read_loop timer ssl len rxLen) = Left len' rxLen'
      /\ 0 <= delivered (snd (read_loop timer ssl len rxLen))
      /\ len' = len - delivered (snd (read_loop timer ssl len rxLen))
      /\ rxLen' = rxLen + delivered (snd (read_loop timer ssl len rxLen))
      /\ 0 <= len'.
Proof.
  induction timer as [| b timer' IH]; intros ssl len rxLen Hlen Hrx Hsum;
    rewrite read_loop_eq; destruct (0 <? len) eqn:Elen;
    try (intros _; exists len, rxLen; simpl; repeat split; lia);
    destruct (mbedtls_ssl_read ssl) as [ret ssl']; cbv zeta;
    destruct (negb (0 <? ret) && read_fatal ret) eqn:Efatal.
  - intros H. inversion H as [| c cs Hok _]; subst.
    apply read_call_ok_not_fatal in Hok. congruence.
  - simpl. intros H. inversion H as [| c cs Hok _]; subst.
    destruct Hok as [Hpos | Hretry]; simpl in Hpos || simpl in Hretry.
    + assert (Ep : (0 <? ret) = true) by (apply Z.ltb_lt; lia). rewrite Ep.
      unfold size_add, size_sub. rewrite !size_t_wrap_small by lia.
      eexists _, _. split; [reflexivity |]. lia.
    + apply retryable_read_negative in Hretry.
      assert (Ep : (0 <? ret) = false) by (apply Z.ltb_ge; lia). rewrite Ep.
      eexists _, _. split; [reflexivity |]. lia.
  - intros H. inversion H as [| c cs Hok _]; subst.
    apply read_call_ok_not_fatal in Hok. congruence.
  - destruct b; simpl.
    + intros H. inversion H as [| c cs Hok _]; subst.
      destruct Hok as [Hpos | Hretry]; simpl in Hpos || simpl in Hretry.
      * assert (Ep : (0 <? ret) = true) by (apply Z.ltb_lt; lia). rewrite Ep.
        unfold size_add, size_sub. rewrite !size_t_wrap_small by lia.
        eexists _, _. split; [reflexivity |]. lia.
      * apply retryable_read_negative in Hretry.
        assert (Ep : (0 <? ret) = false) by (apply Z.ltb_ge; lia). rewrite Ep.
        eexists _, _. split; [reflexivity |]. lia.
    + intros H. inversion H as [| c cs Hok Hrest]; subst.
      destruct Hok as [Hpos | Hretry]; simpl in Hpos || simpl in Hretry.
      * assert (Ep : (0 <? ret) = true) by (apply Z.ltb_lt; lia).
        rewrite Ep in *.
        unfold size_add, size_sub in *. rewrite !size_t_wrap_small in * by lia.
        destruct (IH ssl' (len - ret) (rxLen + ret)) as (len' & rxLen' & E & D & L & R & P);
          try lia; [exact Hrest |].
        exists len', rxLen'. split; [exact E |]. lia.
      * apply retryable_read_negative in Hretry.
        assert (Ep : (0 <? ret) = false) by (apply Z.ltb_ge; lia).
        rewrite Ep in *.
        destruct (IH ssl' len rxLen) as (len' & rxLen' & E & D & L & R & P);
          try lia; [exact Hrest |].
        exists len', rxLen'. split; [exact E |]. lia.
Qed.

(** ** [iot_tls_read] *)

(** C1, as amended.  For a buffer of length [len > 0] and an engine that
    keeps to its interface, [iot_tls_read] ends in one of three ways, by the
    number [k] of bytes delivered: [k = 0] gives NOTHING_TO_READ, [0 < k < len]
    gives READ_TIMEOUT_ERROR, [k = len] gives SUCCESS with [*read_len = len].
    [*read_len] is assigned on SUCCESS only: with the other two results it
    keeps the value it had before the call. *)
Theorem read_three_way (ssl : list Z) (len : Z) (timer : Timer) (read_len : Z) :
  0 < len < 2 ^ SIZE_WIDTH ->
  Forall read_call_ok (calls (iot_tls_read ssl len timer read_len)) ->
  let r := iot_tls_read ssl len timer read_len in
  let k := delivered (calls r) in
  0 <= k <= len
  /\ (k = 0 -> status r = NETWORK_SSL_NOTHING_TO_READ /\ out_len r = read_len)
  /\ (0 < k < len -> status r = NETWORK_SSL_READ_TIMEOUT_ERROR /\ out_len r = read_len)
  /\ (k = len -> status r = SUCCESS /\ out_len r = len).
Proof.
  intros Hlen. unfold iot_tls_read.
  pose proof (read_loop_counts timer ssl len 0) as Hloop.
  destruct (read_loop timer ssl len 0) as [ex cs] eqn:Eloop. simpl in Hloop.
  intros Hok.
  assert (Hcs : Forall read_call_ok cs).
  { destruct ex as [e | len' rxLen]; [exact Hok |].
    destruct (len' =? 0); [exact Hok |]. destruct (rxLen =? 0); exact Hok. }
  assert (Hw : len + 0 < 2 ^ SIZE_WIDTH) by lia.
  destruct (Hloop ltac:(lia) ltac:(lia) Hw Hcs) as (len' & rxLen & -> & Hd & -> & -> & Hpos).
  clear Hok Hloop. change (0 + delivered cs) with (delivered cs).
  destruct (len - delivered cs =? 0) eqn:E0; simpl.
  - apply Z.eqb_eq in E0. repeat split; intros; try reflexivity; lia.
  - apply Z.eqb_neq in E0.
    destruct (delivered cs =? 0) eqn:E1; simpl.
    + apply Z.eqb_eq in E1. repeat split; intros; try reflexivity; lia.
    + apply Z.eqb_neq in E1. repeat split; intros; try reflexivity; lia.
Qed.

Lemma read_three_way_witness :
  let r := iot_tls_read [2; 3] 5 [false; false] 0 in
  status r = SUCCESS /\ out_len r = 5.
Proof.
  apply (read_three_way [2; 3] 5 [false; false] 0).
  - unfold SIZE_WIDTH. lia.
  - apply Forall_forall. intros c Hc. vm_compute in Hc.
    destruct Hc as [<- | [<- | []]]; left; simpl; lia.
  - reflexivity.
Defined.

(** C1 as stated fails: with a buffer of 2 bytes, one byte delivered and the
    deadline passing, the result is READ_TIMEOUT_ERROR but the count 1 is
    not handed to the caller: [*read_len] is still the caller's 0. *)
Lemma read_timeout_count_not_reported :
  let r := iot_tls_read [1; MBEDTLS_ERR_SSL_WANT_READ] 2 [false; true] 0 in
  status r = NETWORK_SSL_READ_TIMEOUT_ERROR
  /\ delivered (calls r) = 1
  /\ out_len r <> delivered (calls r).
Proof. vm_compute. repeat split; discriminate. Qed.

(** C2, as amended.  At any turn of the read loop ([len > 0]): an answer of
    zero, or a negative answer other than WANT_READ, WANT_WRITE and TIMEOUT,
    returns READ_ERROR at once, without polling the timer; one of those three
    answers is not fatal: the timer is polled, and the loop goes on when it
    has not expired and stops when it has. *)
Theorem read_answer_classes (timer : Timer) (ssl : list Z) (len rxLen ret : Z) :
  0 < len ->
  (ret = 0 \/ (ret < 0 /\ retryable_read ret = false) ->
   read_loop timer (ret :: ssl) len rxLen
   = (Returned NETWORK_SSL_READ_ERROR, [(len, ret)]))
  /\ (retryable_read ret = true ->
      read_loop (false :: timer) (ret :: ssl) len rxLen
      = read_logged (len, ret) (read_loop timer ssl len rxLen)
      /\ (fst (has_timer_expired timer) = true ->
          read_loop timer (ret :: ssl) len rxLen = (Left len rxLen, [(len, ret)]))).
Proof.
  intros Hlen. apply Z.ltb_lt in Hlen. split.
  - intros H. rewrite read_loop_eq, Hlen. simpl.
    assert (Hf : negb (0 <? ret) && read_fatal ret = true).
    { apply andb_true_iff. split.
      - apply negb_true_iff, Z.ltb_ge. destruct H as [-> | [H _]]; lia.
      - apply read_fatal_iff. destruct H as [H | [_ H]]; [left | right]; exact H. }
    rewrite Hf. reflexivity.
  - intros H. pose proof (retryable_read_not_fatal ret H) as Hnf.
    pose proof (retryable_read_negative ret H) as Hneg.
    assert (Ep : (0 <? ret) = false) by (apply Z.ltb_ge; lia).
    split.
    + rewrite read_loop_eq, Hlen. simpl. rewrite Hnf, Ep. reflexivity.
    + intros Hexp. rewrite read_loop_eq, Hlen. simpl. rewrite Hnf, Ep, Hexp. reflexivity.
Qed.

Lemma read_answer_classes_witness :
  read_loop [false] [0; 5] 5 0 = (Returned NETWORK_SSL_READ_ERROR, [(5, 0)]).
Proof.
  apply (proj1 (read_answer_classes [false] [5] 5 0 0 ltac:(lia))).
  left. reflexivity.
Defined.

(** C2 as stated fails: the engine answers 0 to the first read of a 5-byte
    buffer and would deliver the 5 bytes next; the timer has not expired,
    yet the result is READ_ERROR after that one call. *)
Lemma read_zero_is_fatal :
  let r := iot_tls_read [0; 5] 5 [false; false; false] 0 in
  status r = NETWORK_SSL_READ_ERROR /\ calls r = [(5, 0)].
Proof. vm_compute. split; reflexivity. Qed.

(** ** [iot_tls_write] *)

Lemma write_loop_for (pMsg : list byte) (len : Z) (timer : Timer) (ssl : list Z)
    (written_so_far ret : Z) :
  write_loop pMsg len timer ForCond ssl written_so_far ret =
  if written_so_far <? len then
    if fst (has_timer_expired timer)
    then (false, written_so_far, snd (has_timer_expired timer), [])
    else write_loop pMsg len (snd (has_timer_expired timer)) WhileCond ssl
           written_so_far ret
  else (false, written_so_far, timer, []).
Proof. destruct timer as [| [] timer']; reflexivity. Qed.

Lemma expired_stays (timer : Timer) :
  monotone timer = true -> fst (has_timer_expired timer) = true ->
  fst (has_timer_expired (snd (has_timer_expired timer))) = true.
Proof.
  destruct timer as [| b timer']; [reflexivity |]. simpl.
  intros Hmono ->. apply andb_true_iff in Hmono as [Hall _].
  destruct timer' as [| b' timer'']; [reflexivity |].
  simpl in *. apply andb_true_iff in Hall as [-> _]. reflexivity.
Qed.

(** C10.  With an empty payload [iot_tls_write] returns SUCCESS with
    [*written_len = 0] and makes no call of the record-write primitive,
    whatever the timer answers, also when it has expired before the call. *)
Theorem write_empty_payload (ssl : list Z) (pMsg : list byte) (timer : Timer) :
  iot_tls_write ssl pMsg 0 timer = mk_io_result SUCCESS 0 [].
Proof.
  unfold iot_tls_write.
  assert (E : write_loop pMsg 0 timer ForCond ssl 0 0 = (false, 0, timer, [])).
  { destruct timer; reflexivity. }
  rewrite E. simpl. rewrite andb_false_r. reflexivity.
Qed.

(** C3 fails on the code.  The engine would block and the deadline passes
    while [iot_tls_write] retries: no byte was accepted, and the result is
    WRITE_TIMEOUT_ERROR with [*written_len = 2^32 - 0x6880], the would-block
    code added to the count.  And when the engine accepts 10 of 20 bytes and
    the deadline passes before the next call, the 10 are counted twice: the
    result is SUCCESS with [*written_len = 20].  In both runs the timer is
    monotone. *)
Theorem write_timeout_count_wrong :
  (let timer := [false; false; true; true] in
   let r := iot_tls_write [MBEDTLS_ERR_SSL_WANT_WRITE] payload20 20 timer in
   monotone timer = true
   /\ accepted_count (calls r) = 0
   /\ status r = NETWORK_SSL_WRITE_TIMEOUT_ERROR
   /\ out_len r = 2 ^ 32 - 0x6880)
  /\ (let timer := [false; false; false; true; true] in
      let r := iot_tls_write [10; 10] payload20 20 timer in
      monotone timer = true
      /\ accepted_count (calls r) = 10
      /\ status r = SUCCESS
      /\ out_len r = 20).
Proof. vm_compute. repeat split; reflexivity. Qed.

(** The part of C3 the code keeps: when the timer has expired before the
    first poll, and stays so, nothing is sent and the result is
    WRITE_TIMEOUT_ERROR with [*written_len = 0]. *)
Lemma write_deadline_already_passed (ssl : list Z) (pMsg : list byte) (len : Z)
    (timer : Timer) :
  0 < len -> fst (has_timer_expired timer) = true -> monotone timer = true ->
  iot_tls_write ssl pMsg len timer = mk_io_result NETWORK_SSL_WRITE_TIMEOUT_ERROR 0 [].
Proof.
  intros Hlen Hexp Hmono. unfold iot_tls_write.
  assert (Elen : (0 <? len) = true) by (apply Z.ltb_lt; exact Hlen).
  assert (Ene : (0 =? len) = false) by (apply Z.eqb_neq; lia).
  rewrite write_loop_for, Elen, Hexp. cbv beta iota.
  rewrite (expired_stays timer Hmono Hexp), Ene. reflexivity.
Qed.

(** ** Fragmented writes *)

Lemma write_loop_while (pMsg : list byte) (len : Z) (timer : Timer) (ssl : list Z)
    (written_so_far ret : Z) :
  write_loop pMsg len (false :: timer) WhileCond ssl written_so_far ret =
  let (ret', ssl') := mbedtls_ssl_write ssl in
  let call := (offered pMsg len written_so_far, ret') in
  if ret' <=? 0 then
    if negb (ret' =? MBEDTLS_ERR_SSL_WANT_READ)
       && negb (ret' =? MBEDTLS_ERR_SSL_WANT_WRITE)
    then (true, written_so_far, timer, [call])
    else logged call (write_loop pMsg len timer WhileCond ssl' written_so_far ret')
  else logged call
         (write_loop pMsg len timer ForCond ssl' (size_add written_so_far ret') ret').
Proof. reflexivity. Qed.

Lemma offered_suffix (pMsg : list byte) (written_so_far : Z) :
  0 <= written_so_far ->
  offered pMsg (Z.of_nat (List.length pMsg)) written_so_far
  = skipn (Z.to_nat written_so_far) pMsg.
Proof.
  intros H. unfold offered. apply firstn_all2. rewrite length_skipn. lia.
Qed.

Lemma fragments_total_nonneg (rets : list Z) : 0 <= fragments_total rets.
Proof.
  induction rets as [| r rets IH]; simpl; [lia |].
  destruct (0 <? r) eqn:E; [apply Z.ltb_lt in E |]; lia.
Qed.

Lemma would_block_write_retried (r : Z) :
  r = MBEDTLS_ERR_SSL_WANT_READ \/ r = MBEDTLS_ERR_SSL_WANT_WRITE ->
  (r <=? 0) = true
  /\ negb (r =? MBEDTLS_ERR_SSL_WANT_READ) && negb (r =? MBEDTLS_ERR_SSL_WANT_WRITE)
     = false
  /\ (0 <? r) = false.
Proof. intros [-> | ->]; repeat split; reflexivity. Qed.

(** From either loop head, with the timer running long enough and the
    engine taking what is left in positive fragments, the loops end with the
    whole payload written, every call made on the unsent suffix; the answers
    received are the script's, in order, up to the fragment that completes
    the payload. *)
Lemma write_loop_fragments (pMsg : list byte) (more : list Z) :
  let len := Z.of_nat (List.length pMsg) in
  len < 2 ^ SIZE_WIDTH ->
  forall (rets : list Z),
    Forall write_answer_ok rets ->
    forall (timer : Timer) (written_so_far ret : Z) (k : nat),
      fragments_total rets = len - written_so_far ->
      running k timer ->
      let post (r : write_exit) :=
        exists timer' cs,
          r = (false, len, timer', cs)
          /\ chained (skipn (Z.to_nat written_so_far) pMsg) cs
          /\ List.concat (map accepted cs) = skipn (Z.to_nat written_so_far) pMsg
          /\ exists unused, rets = map snd cs ++ unused /\ fragments_total unused = 0 in
      (0 <= written_so_far < len -> (2 * List.length rets <= k + 1)%nat ->
       post (write_loop pMsg len timer WhileCond (rets ++ more) written_so_far ret))
      /\ (0 <= written_so_far <= len -> (2 * List.length rets <= k)%nat ->
          post (write_loop pMsg len timer ForCond (rets ++ more) written_so_far ret)).
Proof.
  intros len Hlen rets Hok.
  induction Hok as [| r rets Hr Hok IH]; intros timer wsf ret k Htot Hrun post.
  - simpl in Htot. split; [lia |].
    intros Hw _. assert (wsf = len) by lia. subst wsf.
    rewrite write_loop_for, Z.ltb_irrefl.
    exists timer, []. split; [reflexivity |]. split; [exact I |]. split.
    + unfold len. rewrite Nat2Z.id, skipn_all. reflexivity.
    + exists []. split; reflexivity.
  - assert (Hwhile : forall (timer : Timer) (k : nat) (ret : Z),
               running k timer ->
               0 <= wsf < len -> (2 * List.length (r :: rets) <= k + 1)%nat ->
               post (write_loop pMsg len timer WhileCond ((r :: rets) ++ more) wsf ret)).
    { clear timer k ret Hrun. intros timer k ret Hrun Hw Hk. simpl in Hk.
      destruct k as [| k]; [lia |].
      apply running_S in Hrun as (timer' & -> & Hrun).
      rewrite write_loop_while. simpl mbedtls_ssl_write. cbv zeta.
      pose proof (offered_suffix pMsg wsf ltac:(lia)) as Hoff. fold len in Hoff.
      rewrite Hoff. clear Hoff.
      simpl in Htot. pose proof (fragments_total_nonneg rets) as Hnn.
      destruct Hr as [Hpos | Hblock].
      - assert (Ep : (0 <? r) = true) by (apply Z.ltb_lt; exact Hpos).
        assert (En : (r <=? 0) = false) by (apply Z.leb_gt; exact Hpos).
        rewrite Ep in Htot. rewrite En.
        unfold size_add. rewrite size_t_wrap_small by lia.
        destruct (IH timer' (wsf + r) r k ltac:(lia) Hrun) as [_ Hfor].
        destruct (Hfor ltac:(lia) ltac:(lia)) as (t' & cs & Eq & Hch & Hcat & un & Hun & Hz).
        rewrite Eq. unfold logged.
        exists t', ((skipn (Z.to_nat wsf) pMsg, r) :: cs).
        assert (Hacc : accepted (skipn (Z.to_nat wsf) pMsg, r)
                       = firstn (Z.to_nat r) (skipn (Z.to_nat wsf) pMsg)).
        { unfold accepted. simpl. rewrite Ep. reflexivity. }
        assert (Hskip : skipn (List.length (accepted (skipn (Z.to_nat wsf) pMsg, r)))
                          (skipn (Z.to_nat wsf) pMsg)
                        = skipn (Z.to_nat (wsf + r)) pMsg).
        { rewrite Hacc, length_firstn, length_skipn, skipn_skipn.
          f_equal. unfold len in *. lia. }
        split; [reflexivity | split; [| split]].
        + simpl chained. split; [reflexivity |]. rewrite Hskip. exact Hch.
        + simpl map. simpl List.concat. rewrite Hcat, Hacc.
          etransitivity; [| apply (firstn_skipn (Z.to_nat r))].
          f_equal. rewrite skipn_skipn. f_equal. lia.
        + exists un. split; [simpl; rewrite Hun; reflexivity | exact Hz].
      - destruct (would_block_write_retried r Hblock) as (En & Ef & Ep).
        rewrite Ep in Htot. rewrite En, Ef.
        destruct (IH timer' wsf r k ltac:(lia) Hrun) as [Hwh _].
        destruct (Hwh ltac:(lia) ltac:(lia)) as (t' & cs & Eq & Hch & Hcat & un & Hun & Hz).
        rewrite Eq. unfold logged.
        exists t', ((skipn (Z.to_nat wsf) pMsg, r) :: cs).
        assert (Hacc : accepted (skipn (Z.to_nat wsf) pMsg, r) = []).
        { unfold accepted. simpl. rewrite Ep. reflexivity. }
        split; [reflexivity | split; [| split]].
        + simpl chained. split; [reflexivity |]. rewrite Hacc. exact Hch.
        + simpl map. simpl List.concat. rewrite Hcat, Hacc. reflexivity.
        + exists un. split; [simpl; rewrite Hun; reflexivity | exact Hz]. }
    split; [apply Hwhile; exact Hrun |].
    intros Hw Hk. simpl in Htot, Hk.
    pose proof (fragments_total_nonneg rets) as Hnn.
    destruct (Z.eq_dec wsf len) as [-> | Hne].
    + rewrite write_loop_for, Z.ltb_irrefl.
      exists timer, []. split; [reflexivity |]. split; [exact I |]. split.
      * unfold len. rewrite Nat2Z.id, skipn_all. reflexivity.
      * exists (r :: rets). split; [reflexivity |]. simpl. lia.
    + assert (El : (wsf <? len) = true) by (apply Z.ltb_lt; lia).
      destruct k as [| k]; [lia |].
      apply running_S in Hrun as (timer' & -> & Hrun).
      rewrite write_loop_for, El. simpl has_timer_expired. cbv beta iota.
      apply (Hwhile timer' k ret Hrun); [lia | simpl; lia].
Qed.

(** C4.  A write of a payload of length [len] during which the timer does
    not expire, the engine taking the payload in positive fragments (with
    would-block answers in between or not), returns SUCCESS with
    [*written_len = len].  The calls made are the engine's answers in their
    order, one call for each answer up to the fragment that completes the
    payload (what the script holds after it is not asked for); every call
    is made on the suffix left by the fragments accepted before it, and the
    accepted fragments, in order, make up the payload. *)
Theorem write_fragments_roundtrip (pMsg : list byte) (rets more : list Z)
    (timer : Timer) :
  let len := Z.of_nat (List.length pMsg) in
  len < 2 ^ SIZE_WIDTH ->
  Forall write_answer_ok rets ->
  fragments_total rets = len ->
  running (2 * List.length rets) timer ->
  let r := iot_tls_write (rets ++ more) pMsg len timer in
  status r = SUCCESS
  /\ out_len r = len
  /\ (exists unused, rets = map snd (calls r) ++ unused /\ fragments_total unused = 0)
  /\ chained pMsg (calls r)
  /\ List.concat (map accepted (calls r)) = pMsg.
Proof.
  intros len Hlen Hok Htot Hrun.
  destruct (write_loop_fragments pMsg more Hlen rets Hok timer 0 0
              (2 * List.length rets) ltac:(fold len; lia) Hrun) as [_ Hfor].
  destruct (Hfor ltac:(fold len; lia) ltac:(lia))
    as (timer' & cs & Eq & Hch & Hcat & un & Hun & Hz).
  fold len in Eq. unfold iot_tls_write. rewrite Eq.
  rewrite Z.eqb_refl, andb_false_r. simpl.
  split; [reflexivity |]. split; [reflexivity |].
  split; [exists un; split; assumption |]. split; assumption.
Qed.

Lemma write_fragments_roundtrip_witness :
  let r := iot_tls_write [10; MBEDTLS_ERR_SSL_WANT_WRITE; 10] payload20 20
             [false; false; false; false; false; false; true] in
  status r = SUCCESS
  /\ out_len r = 20
  /\ (exists unused,
        [10; MBEDTLS_ERR_SSL_WANT_WRITE; 10] = map snd (calls r) ++ unused
        /\ fragments_total unused = 0)
  /\ chained payload20 (calls r)
  /\ List.concat (map accepted (calls r)) = payload20.
Proof.
  apply (write_fragments_roundtrip payload20 [10; MBEDTLS_ERR_SSL_WANT_WRITE; 10] []
           [false; false; false; false; false; false; true]).
  - reflexivity.
  - apply Forall_cons; [left; lia |].
    apply Forall_cons; [right; right; reflexivity |].
    apply Forall_cons; [left; lia | apply Forall_nil].
  - reflexivity.
  - simpl. exact I.
Defined.

(** * Properties of the session's life cycle *)

Local Open Scope tls_scope.

(** ** Rules of the weakest precondition *)

Lemma wp_bind {A B : Type} (m : M A) (k : A -> M B) (Q : B -> State -> Prop)
    (X : option IoT_Error_t -> State -> Prop) (s : State) :
  wp m (fun a s' => wp (k a) Q X s') X s -> wp (bind m k) Q X s.
Proof.
  unfold wp, bind. destruct (m s) as [[a | e |] s']; intros H; exact H.
Qed.

Lemma wp_pure {A : Type} (a : A) (Q : A -> State -> Prop)
    (X : option IoT_Error_t -> State -> Prop) (s : State) :
  Q a s -> wp (pure a) Q X s.
Proof. intros H. exact H. Qed.

Lemma wp_exit {A : Type} (e : IoT_Error_t) (Q : A -> State -> Prop)
    (X : option IoT_Error_t -> State -> Prop) (s : State) :
  X (Some e) s -> wp (exit e) Q X s.
Proof. intros H. exact H. Qed.

Lemma wp_spin {A : Type} (Q : A -> State -> Prop)
    (X : option IoT_Error_t -> State -> Prop) (s : State) :
  X None s -> wp spin Q X s.
Proof. intros H. exact H. Qed.

Lemma wp_gets {A : Type} (f : State -> A) (Q : A -> State -> Prop)
    (X : option IoT_Error_t -> State -> Prop) (s : State) :
  Q (f s) s -> wp (gets f) Q X s.
Proof. intros H. exact H. Qed.

Lemma wp_modify_net (f : Network -> Network) (Q : unit -> State -> Prop)
    (X : option IoT_Error_t -> State -> Prop) (s : State) :
  Q tt (mk_State (f (net s)) (world s)) -> wp (modify_net f) Q X s.
Proof. intros H. exact H. Qed.

Lemma wp_conseq {A : Type} (m : M A) (Q Q' : A -> State -> Prop)
    (X X' : option IoT_Error_t -> State -> Prop) (s : State) :
  wp m Q X s ->
  (forall a s', Q a s' -> Q' a s') ->
  (forall oe s', X oe s' -> X' oe s') ->
  wp m Q' X' s.
Proof.
  unfold wp. destruct (m s) as [[a | e |] s']; intros H HQ HX; auto.
Qed.

Lemma engine_call_next {A : Type} (h : handle) (c : call) (a : A) (s : State) :
  engine_call h c a s = (Next a, snd (engine_call h c a s)).
Proof. unfold engine_call. destruct (get_obj h (data s)); reflexivity. Qed.

Lemma engine_init_next (h : handle) (s : State) :
  engine_init h s = (Next tt, snd (engine_init h s)).
Proof. reflexivity. Qed.

Lemma engine_free_next (h : handle) (s : State) :
  engine_free h s = (Next tt, snd (engine_free h s)).
Proof. unfold engine_free. destruct (get_obj h (data s)); reflexivity. Qed.

Lemma wp_engine_call {A : Type} (h : handle) (c : call) (a : A)
    (Q : A -> State -> Prop) (X : option IoT_Error_t -> State -> Prop) (s : State) :
  Q a (snd (engine_call h c a s)) -> wp (engine_call h c a) Q X s.
Proof. unfold wp. rewrite engine_call_next. intros H. exact H. Qed.

Lemma wp_engine_init (h : handle) (Q : unit -> State -> Prop)
    (X : option IoT_Error_t -> State -> Prop) (s : State) :
  Q tt (snd (engine_init h s)) -> wp (engine_init h) Q X s.
Proof. intros H. exact H. Qed.

Lemma wp_engine_free (h : handle) (Q : unit -> State -> Prop)
    (X : option IoT_Error_t -> State -> Prop) (s : State) :
  Q tt (snd (engine_free h s)) -> wp (engine_free h) Q X s.
Proof. unfold wp. rewrite engine_free_next. intros H. exact H. Qed.

Lemma wp_emit {A : Type} (c : call) (a : A) (Q : A -> State -> Prop)
    (X : option IoT_Error_t -> State -> Prop) (s : State) :
  Q a (snd (emit c a s)) -> wp (emit c a) Q X s.
Proof. intros H. exact H. Qed.

(** A quiet call keeps a stable property. *)
Lemma wp_call_stable {A : Type} (I : State -> Prop) (h : handle) (c : call) (a : A)
    (Q : A -> State -> Prop) (X : option IoT_Error_t -> State -> Prop) (s : State) :
  stable I -> quiet c = true -> I s ->
  (forall s', I s' -> Q a s') ->
  wp (engine_call h c a) Q X s.
Proof.
  intros HI Hc Hs HQ. apply wp_engine_call, HQ.
  destruct (HI s c Hc Hs) as [H _]. apply H.
Qed.

Lemma wp_emit_stable {A : Type} (I : State -> Prop) (c : call) (a : A)
    (Q : A -> State -> Prop) (X : option IoT_Error_t -> State -> Prop) (s : State) :
  stable I -> quiet c = true -> I s ->
  (forall s', I s' -> Q a s') ->
  wp (emit c a) Q X s.
Proof.
  intros HI Hc Hs HQ. apply wp_emit, HQ.
  destruct (HI s c Hc Hs) as [_ H]. apply H.
Qed.

Lemma late_error (e : IoT_Error_t) :
  e <> SUCCESS -> e <> NETWORK_X509_ROOT_CRT_PARSE_ERROR -> late (Some e).
Proof. intros H1 H2. split; intros H; inversion H; contradiction. Qed.

Lemma late_spin : late None.
Proof. split; discriminate. Qed.

Lemma net_connect_error_late (ret : Z) : late (Some (net_connect_error ret)).
Proof.
  unfold net_connect_error.
  destruct (ret =? MBEDTLS_ERR_NET_SOCKET_FAILED);
    [| destruct (ret =? MBEDTLS_ERR_NET_UNKNOWN_HOST)];
    apply late_error; discriminate.
Qed.

(** One step of a proof about a sequence of calls under a stable property:
    the next call is quiet, or the next statement is an early return. *)
Ltac late_exit :=
  split; [eassumption || (try (left; eassumption)); try (right; eassumption)
         | first [ apply late_spin | apply net_connect_error_late
                 | apply late_error; discriminate ] ].

Ltac stable_step :=
  lazymatch goal with
  | |- wp (bind _ _) _ _ _ => apply wp_bind; stable_step
  | |- wp (gets _) _ _ _ => apply wp_gets; cbv beta
  | |- wp (pure _) _ _ _ => apply wp_pure
  | |- wp (exit _) _ _ _ => apply wp_exit; late_exit
  | |- wp spin _ _ _ => apply wp_spin; late_exit
  | |- wp (if ?b then exit _ else pure tt) _ _ _ =>
      let E := fresh "E" in destruct b eqn:E
  | |- wp (engine_call _ _ _) _ _ ?s =>
      let s' := fresh "s" in
      let H := fresh "Hs" in
      match goal with
      | HI : stable ?I, Hs : ?I s |- _ =>
          apply (wp_call_stable I); [exact HI | reflexivity | exact Hs | intros s' H]
      end
  | |- wp (emit _ _) _ _ ?s =>
      let s' := fresh "s" in
      let H := fresh "Hs" in
      match goal with
      | HI : stable ?I, Hs : ?I s |- _ =>
          apply (wp_emit_stable I); [exact HI | reflexivity | exact Hs | intros s' H]
      end
  | |- wp (match ?x with Some _ => _ | None => _ end) _ _ _ => destruct x
  end.

(** ** The steps of [iot_tls_connect] under a stable property *)

Section Steps.

Variable E : Engine.
Variable I : State -> Prop.
Hypothesis I_stable : stable I.

Lemma load_device_cert_stable (s : State) :
  I s -> wp (load_device_cert E) (fun _ => I) (fun oe s' => I s' /\ late oe) s.
Proof.
  intros Hs. unfold load_device_cert. repeat stable_step; assumption.
Qed.

Lemma open_transport_stable (s : State) :
  I s -> wp (open_transport E) (fun _ => I) (fun oe s' => I s' /\ late oe) s.
Proof.
  intros Hs. unfold open_transport. repeat stable_step; assumption.
Qed.

Lemma handshake_loop_stable (rets : list Z) (s : State) :
  I s -> wp (handshake_loop rets) (fun _ => I) (fun oe s' => I s' /\ late oe) s.
Proof.
  revert s. induction rets as [| r rets IH]; intros s Hs; simpl.
  - stable_step.
  - repeat stable_step.
    destruct (r =? 0); [stable_step; assumption |].
    destruct (negb (r =? MBEDTLS_ERR_SSL_WANT_READ)
              && negb (r =? MBEDTLS_ERR_SSL_WANT_WRITE)).
    + stable_step.
    + apply IH. assumption.
Qed.

End Steps.

(** ** The engine objects *)

Lemma get_set_same (h : handle) (o : obj) (d : TLSDataParams) :
  get_obj h (set_obj h o d) = o.
Proof. destruct h; reflexivity. Qed.

Lemma get_set_other (h h' : handle) (o : obj) (d : TLSDataParams) :
  h <> h' -> get_obj h' (set_obj h o d) = get_obj h' d.
Proof. intros Hne. destruct h, h'; try reflexivity; contradiction. Qed.

Lemma get_set_cases (h h' : handle) (o : obj) (d : TLSDataParams) :
  get_obj h' (set_obj h o d) = o \/ get_obj h' (set_obj h o d) = get_obj h' d.
Proof. destruct h, h'; simpl; auto. Qed.

Lemma holding_set (h : handle) (o : obj) (d : TLSDataParams) :
  (holding (set_obj h o d) + owns (get_obj h d) = holding d + owns o)%nat.
Proof. destruct h; destruct d; unfold holding; simpl; lia. Qed.

Lemma all_clean_holding (d : TLSDataParams) : all_clean d -> holding d = 0%nat.
Proof.
  intros H.
  pose proof (H H_entropy) as H1. pose proof (H H_ctr_drbg) as H2.
  pose proof (H H_ssl) as H3. pose proof (H H_conf) as H4.
  pose proof (H H_cacert) as H5. pose proof (H H_clicert) as H6.
  pose proof (H H_pkey) as H7. pose proof (H H_server_fd) as H8.
  destruct d. simpl in *. subst. reflexivity.
Qed.

Lemma holding_none (d : TLSDataParams) :
  holding d = 0%nat -> forall h, get_obj h d <> Holding.
Proof.
  intros H h Hh. pose proof (holding_set h Clean d) as Hs.
  rewrite Hh in Hs. simpl in Hs. lia.
Qed.

Lemma in_all_handles (h : handle) : In h all_handles.
Proof. destruct h; simpl; tauto. Qed.

(** ** Resource accounting *)

Lemma accounted_call {A : Type} (h : handle) (c : call) (a : A) (s : State) :
  accounted s -> accounted (snd (engine_call h c a s)).
Proof.
  intros (Hub & Hleak & Hinit & Hbal). unfold engine_call.
  destruct (get_obj h (data s)) eqn:Eh.
  - exfalso. exact (Hinit h Eh).
  - pose proof (holding_set h Holding (data s)) as Hh. rewrite Eh in Hh.
    unfold accounted. simpl. repeat split; try assumption.
    + intros h'. unfold initialised in Hinit. unfold data, put_obj. simpl.
      destruct (get_set_cases h h' Holding (data s)) as [-> | ->];
        [discriminate | apply Hinit].
    + unfold data at 1, put_obj. simpl. simpl in Hh. lia.
  - unfold accounted. simpl. repeat split; assumption.
Qed.

Lemma accounted_stable : stable accounted.
Proof.
  intros s c _ Hs. split.
  - intros h A a. apply accounted_call. exact Hs.
  - intros A a. exact Hs.
Qed.

Lemma accounted_net (f : Network -> Network) (s : State) :
  (forall n, tlsDataParams (f n) = tlsDataParams n
             \/ forall h, get_obj h (tlsDataParams (f n)) = get_obj h (tlsDataParams n)) ->
  accounted s -> accounted (mk_State (f (net s)) (world s)).
Proof.
  intros Hf (Hub & Hleak & Hinit & Hbal).
  assert (Hobj : forall h, get_obj h (tlsDataParams (f (net s)))
                           = get_obj h (tlsDataParams (net s))).
  { destruct (Hf (net s)) as [-> | H]; [reflexivity | exact H]. }
  unfold accounted, data, initialised in *. simpl.
  repeat split; try assumption.
  - intros h. rewrite Hobj. apply Hinit.
  - rewrite Hbal. f_equal. unfold holding, all_handles. cbn [fold_right].
    rewrite !Hobj. reflexivity.
Qed.

Lemma initialising_init (hs : list handle) (h : handle) (s : State) :
  initialising hs s -> initialising (h :: hs) (snd (engine_init h s)).
Proof.
  intros (Hub & Hleak & Hbal & Hnone & Hclean).
  unfold initialising, engine_init, data, put_obj. simpl. fold (data s).
  repeat split; try assumption.
  - destruct (get_obj h (data s)) eqn:Eh; try assumption.
    exfalso. exact (Hnone h Eh).
  - intros h'. destruct (get_set_cases h h' Clean (data s)) as [-> | ->];
      [discriminate | apply Hnone].
  - intros h' [<- | Hin].
    + apply get_set_same.
    + destruct (get_set_cases h h' Clean (data s)) as [-> | ->];
        [reflexivity | apply Hclean; exact Hin].
Qed.

Lemma at_rest_initialising (s : State) : at_rest s -> initialising [] s.
Proof.
  intros (Hhold & Hleak & Hbal & Hub). unfold initialising.
  repeat split; try assumption.
  - apply holding_none. exact Hhold.
  - intros h [].
Qed.

Lemma initialising_all_accounted (s : State) :
  initialising all_handles s -> accounted s.
Proof.
  intros (Hub & Hleak & Hbal & Hnone & Hclean).
  assert (Hall : all_clean (data s)) by (intros h; apply Hclean, in_all_handles).
  unfold accounted. repeat split; try assumption.
  - intros h. rewrite Hall. discriminate.
  - rewrite (all_clean_holding _ Hall). lia.
Qed.

Lemma all_freed_holding (d : TLSDataParams) : all_freed d -> holding d = 0%nat.
Proof.
  intros H.
  pose proof (H H_entropy) as H1. pose proof (H H_ctr_drbg) as H2.
  pose proof (H H_ssl) as H3. pose proof (H H_conf) as H4.
  pose proof (H H_cacert) as H5. pose proof (H H_clicert) as H6.
  pose proof (H H_pkey) as H7. pose proof (H H_server_fd) as H8.
  destruct d. simpl in *. subst. reflexivity.
Qed.

Lemma handle_eq_dec (h h' : handle) : {h = h'} + {h <> h'}.
Proof. decide equality. Defined.


Lemma freeing_free (hs : list handle) (h : handle) (s : State) :
  ~ In h hs -> freeing hs s -> freeing (h :: hs) (snd (engine_free h s)).
Proof.
  intros Hnew (Hub & Hleak & Hbal & Hfreed & Hlive).
  pose proof (holding_set h Garbage (data s)) as Hh.
  assert (Hobj : forall h', (In h' (h :: hs) ->
                             get_obj h' (set_obj h Garbage (data s)) = Garbage)
                            /\ (~ In h' (h :: hs) ->
                                get_obj h' (set_obj h Garbage (data s)) <> Garbage)).
  { intros h'. destruct (handle_eq_dec h h') as [<- | Hne].
    - split; [intros _; apply get_set_same | intros Hn; contradiction Hn; left; reflexivity].
    - rewrite get_set_other by exact Hne. split.
      + intros [He | Hin]; [contradiction | apply Hfreed; exact Hin].
      + intros Hn. apply Hlive. intros Hin. apply Hn. right. exact Hin. }
  unfold engine_free. destruct (get_obj h (data s)) eqn:Eh.
  - exfalso. exact (Hlive h Hnew Eh).
  - unfold freeing, data, put_obj. simpl. fold (data s). simpl in Hh.
    repeat split; try assumption; try (intros h'; apply Hobj). lia.
  - unfold freeing, data, put_obj. simpl. fold (data s). simpl in Hh.
    repeat split; try assumption; try (intros h'; apply Hobj). lia.
Qed.

Lemma freeing_all (s : State) :
  freeing (rev destroy_order) s -> all_freed (data s) /\ at_rest s.
Proof.
  intros (Hub & Hleak & Hbal & Hfreed & _).
  assert (Hall : all_freed (data s)).
  { intros h. apply Hfreed. destruct h; simpl; tauto. }
  split; [exact Hall |]. unfold at_rest. rewrite (all_freed_holding _ Hall) in *.
  split; [reflexivity |]. split; [exact Hleak |]. split; [lia | exact Hub].
Qed.

(** [iot_tls_destroy] on a session whose accounts balance: it comes back
    with SUCCESS, every object is freed, and all that was acquired has been
    released. *)
Lemma destroy_accounted (s : State) :
  accounted s ->
  fst (iot_tls_destroy s) = Next SUCCESS
  /\ all_freed (data (snd (iot_tls_destroy s)))
  /\ at_rest (snd (iot_tls_destroy s)).
Proof.
  intros (Hub & Hleak & Hinit & Hbal).
  assert (H : wp iot_tls_destroy
                (fun r s' => r = SUCCESS /\ freeing (rev destroy_order) s')
                (fun _ _ => False) s).
  { unfold iot_tls_destroy.
    assert (H0 : freeing [] s).
    { unfold freeing. repeat split; try assumption; [intros h [] | intros h _; apply Hinit]. }
    apply wp_bind, wp_engine_free.
    apply (freeing_free _ H_server_fd) in H0; [| simpl; intuition discriminate].
    apply wp_bind, wp_engine_free.
    apply (freeing_free _ H_clicert) in H0; [| simpl; intuition discriminate].
    apply wp_bind, wp_engine_free.
    apply (freeing_free _ H_cacert) in H0; [| simpl; intuition discriminate].
    apply wp_bind, wp_engine_free.
    apply (freeing_free _ H_pkey) in H0; [| simpl; intuition discriminate].
    apply wp_bind, wp_engine_free.
    apply (freeing_free _ H_ssl) in H0; [| simpl; intuition discriminate].
    apply wp_bind, wp_engine_free.
    apply (freeing_free _ H_conf) in H0; [| simpl; intuition discriminate].
    apply wp_bind, wp_engine_free.
    apply (freeing_free _ H_ctr_drbg) in H0; [| simpl; intuition discriminate].
    apply wp_bind, wp_engine_free.
    apply (freeing_free _ H_entropy) in H0; [| simpl; intuition discriminate].
    apply wp_pure. split; [reflexivity | exact H0]. }
  unfold wp in H. destruct (iot_tls_destroy s) as [[r | e |] s']; try contradiction.
  destruct H as [-> H]. apply freeing_all in H. simpl. tauto.
Qed.




(** ** [iot_tls_destroy] on an object that is not initialised *)

Lemma doomed_free (h : handle) (hs : list handle) (h' : handle) (s : State) :
  doomed h hs s -> doomed h (h' :: hs) (snd (engine_free h' s)).
Proof.
  intros [Hub | [Hg Hn]].
  - left. unfold engine_free. destruct (get_obj h' (data s)); simpl; auto.
  - destruct (handle_eq_dec h' h) as [-> | Hne].
    + left. unfold engine_free. rewrite Hg. reflexivity.
    + right. split.
      * unfold engine_free. destruct (get_obj h' (data s)); simpl; try exact Hg;
          unfold data, put_obj; simpl; (rewrite get_set_other; [exact Hg | exact Hne]).
      * intros [H | H]; [exact (Hne H) | exact (Hn H)].
Qed.

(** Whatever object is not initialised when [iot_tls_destroy] starts, it is
    handed to its free function. *)
Lemma destroy_doomed (s : State) (h : handle) :
  get_obj h (data s) = Garbage ->
  wp iot_tls_destroy (fun r s' => r = SUCCESS /\ ub (world s') = true) (fun _ _ => False) s.
Proof.
  intros Hg. unfold iot_tls_destroy.
  assert (H0 : doomed h [] s) by (right; split; [exact Hg | intros []]).
  apply wp_bind, wp_engine_free. apply (doomed_free _ _ H_server_fd) in H0.
  apply wp_bind, wp_engine_free. apply (doomed_free _ _ H_clicert) in H0.
  apply wp_bind, wp_engine_free. apply (doomed_free _ _ H_cacert) in H0.
  apply wp_bind, wp_engine_free. apply (doomed_free _ _ H_pkey) in H0.
  apply wp_bind, wp_engine_free. apply (doomed_free _ _ H_ssl) in H0.
  apply wp_bind, wp_engine_free. apply (doomed_free _ _ H_conf) in H0.
  apply wp_bind, wp_engine_free. apply (doomed_free _ _ H_ctr_drbg) in H0.
  apply wp_bind, wp_engine_free. apply (doomed_free _ _ H_entropy) in H0.
  apply wp_pure. split; [reflexivity |].
  destruct H0 as [Hub | [_ Hn]]; [exact Hub |].
  exfalso. apply Hn. destruct h; simpl; tauto.
Qed.

(** ** Configuration and trust loading under stable properties *)

Section Configure.

Variable E : Engine.
Variables I1 I2 : State -> Prop.
Hypothesis I1_stable : stable I1.
Hypothesis I2_stable : stable I2.

(** The one call of [configure] that is not quiet takes [I1] to [I2]. *)
Hypothesis authmode_step :
  forall s, I1 s ->
    I2 (snd (engine_call H_conf
               (mbedtls_ssl_conf_authmode (mode_for (ServerVerificationFlag (params s))))
               tt s)).

Lemma configure_stable (s : State) :
  I1 s ->
  wp (configure E) (fun _ => I2) (fun oe s' => (I1 s' \/ I2 s') /\ late oe) s.
Proof.
  intros Hs. unfold configure.
  stable_step. stable_step; [stable_step |]. do 3 stable_step.
  apply wp_bind.
  match goal with
  | Hx : I1 ?x |- wp _ _ _ ?x =>
      pose proof (authmode_step _ Hx) as Hm; unfold mode_for in Hm;
      destruct (ServerVerificationFlag (params x)); cbn [Bool.eqb];
      apply wp_engine_call; cbv beta
  end; repeat stable_step; assumption.
Qed.

End Configure.

Section TrustLoading.

Variable E : Engine.
Variables I I' : State -> Prop.
Hypothesis I_stable : stable I.

(** With a root certificate the property goes through; without one it
    holds once the verification flag is cleared. *)
Hypothesis with_root : forall s, I s -> pRootCALocation (params s) <> None -> I' s.
Hypothesis without_root :
  forall s, I s -> pRootCALocation (params s) = None ->
    I' (mk_State (clear_ServerVerificationFlag (net s)) (world s)).

Lemma params_call {A : Type} (h : handle) (c : call) (a : A) (s : State) :
  params (snd (engine_call h c a s)) = params s.
Proof. unfold engine_call. destruct (get_obj h (data s)); reflexivity. Qed.

Lemma rooted_stable : stable (rooted I).
Proof.
  intros s c Hc [Hs Hroot]. destruct (I_stable s c Hc Hs) as [Hcall Hemit]. split.
  - intros h A a. split; [apply Hcall |]. rewrite params_call. exact Hroot.
  - intros A a. split; [apply Hemit | exact Hroot].
Qed.

Lemma load_root_ca_stable (s : State) :
  I s ->
  wp (load_root_ca E) (fun _ => I')
    (fun oe s' => rooted I s' /\ oe = Some NETWORK_X509_ROOT_CRT_PARSE_ERROR) s.
Proof.
  intros Hs. unfold load_root_ca.
  apply wp_bind, wp_gets. cbv beta.
  destruct (pRootCALocation (params s)) as [name |] eqn:Eroot.
  - assert (Hr : rooted I s)
      by (split; [exact Hs | rewrite Eroot; discriminate]).
    pose proof rooted_stable as Hst.
    clear Hs.
    stable_step. stable_step.
    { apply wp_exit. split; [assumption | reflexivity]. }
    stable_step. stable_step. stable_step.
    { apply wp_exit. split; [assumption | reflexivity]. }
    repeat stable_step.
    match goal with H : rooted I ?x |- I' ?x => destruct H; apply with_root; assumption end.
  - apply wp_modify_net. apply without_root; assumption.
Qed.

End TrustLoading.

(** ** [iot_tls_connect], step by step *)

Section Connect.

Variable E : Engine.
Variable params' : option TLSConnectParams.

(** The properties that hold before the objects are initialised ([P0]),
    from then to trust loading ([I0]), from then to the setting of the
    authentication mode ([I1]), from then to the verification step ([I2])
    and after it ([I3], which may depend on the result). *)
Variable P0 : State -> Prop.
Variables I0 I1 I2 : State -> Prop.
Variable I3 : IoT_Error_t -> State -> Prop.

Hypothesis I0_stable : stable I0.
Hypothesis I1_stable : stable I1.
Hypothesis I2_stable : stable I2.
Hypothesis I3_stable : forall r, stable (I3 r).

Hypothesis init_step :
  forall s, P0 s ->
    wp (store_params params' ;; init_objects) (fun _ => I0) (fun _ _ => False) s.
Hypothesis with_root : forall s, I0 s -> pRootCALocation (params s) <> None -> I1 s.
Hypothesis without_root :
  forall s, I0 s -> pRootCALocation (params s) = None ->
    I1 (mk_State (clear_ServerVerificationFlag (net s)) (world s)).
Hypothesis authmode_step :
  forall s, I1 s ->
    I2 (snd (engine_call H_conf
               (mbedtls_ssl_conf_authmode (mode_for (ServerVerificationFlag (params s))))
               tt s)).
Hypothesis verify_step :
  forall s, I2 s -> wp (verify_peer E) I3 (fun _ _ => False) s.

Lemma wp_prefix {B : Type} (m1 m2 : M unit) (k : M B) (I : State -> Prop)
    (Q : B -> State -> Prop) (X : option IoT_Error_t -> State -> Prop) (s : State) :
  wp (m1 ;; m2) (fun _ => I) (fun _ _ => False) s ->
  (forall s', I s' -> wp k Q X s') ->
  wp (m1 ;; m2 ;; k) Q X s.
Proof.
  unfold wp, bind.
  destruct (m1 s) as [[[] | e |] s0]; try contradiction.
  destruct (m2 s0) as [[[] | e |] s1]; try contradiction.
  intros H Hk. apply Hk. exact H.
Qed.

Lemma seed_rng_stable (s : State) :
  I0 s -> wp (seed_rng E) (fun _ => I0) (left_from E I0 I1 I2) s.
Proof.
  intros Hs. unfold seed_rng.
  stable_step. stable_step.
  { apply wp_exit. left. repeat split; try assumption.
    intros [H _]. rewrite H in *. discriminate. }
  stable_step. stable_step. stable_step.
  { apply wp_exit. left. repeat split; try assumption.
    intros [_ H]. rewrite H in *. discriminate. }
  repeat stable_step. assumption.
Qed.

Lemma connect_body_steps (s : State) :
  P0 s -> wp (connect_body E params') I3 (left_from E I0 I1 I2) s.
Proof.
  intros Hs. unfold connect_body.
  apply (wp_prefix _ _ _ I0); [apply init_step; exact Hs |].
  clear s Hs. intros s Hinit.
  apply wp_bind.
  apply wp_conseq with (Q := fun _ => I0) (X := left_from E I0 I1 I2);
    [apply seed_rng_stable; eassumption | | auto].
  intros ? ? ?; cbv beta in *.
  apply wp_bind.
  eapply wp_conseq;
    [apply (load_root_ca_stable E I0 I1 I0_stable with_root without_root); eassumption | |].
  2: { intros ? ? [? ?]. right. left. split; assumption. }
  intros ? ? ?; cbv beta in *.
  apply wp_bind.
  eapply wp_conseq; [apply (load_device_cert_stable E I1 I1_stable); eassumption | |].
  2: { intros ? ? [? ?]. right. right. split; [left |]; assumption. }
  intros ? ? ?; cbv beta in *.
  apply wp_bind.
  eapply wp_conseq; [apply (open_transport_stable E I1 I1_stable); eassumption | |].
  2: { intros ? ? [? ?]. right. right. split; [left |]; assumption. }
  intros ? ? ?; cbv beta in *.
  apply wp_bind.
  eapply wp_conseq;
    [apply (configure_stable E I1 I2 I1_stable I2_stable authmode_step); eassumption | |].
  2: { intros ? ? [? ?]. right. right. split; assumption. }
  intros ? ? ?; cbv beta in *.
  apply wp_bind.
  eapply wp_conseq; [apply (handshake_loop_stable I2 I2_stable); eassumption | |].
  2: { intros ? ? [? ?]. right. right. split; [right |]; assumption. }
  intros ? ? ?; cbv beta in *.
  stable_step.
  apply wp_bind.
  eapply wp_conseq; [apply verify_step; assumption | | intros ? ? []].
  intros r ? Hr. pose proof (I3_stable r) as Hst.
  repeat stable_step. assumption.
Qed.

End Connect.

(** ** Resource accounting through [iot_tls_connect] *)

Lemma accounted_init_step (params' : option TLSConnectParams) (s : State) :
  at_rest s ->
  wp (store_params params' ;; init_objects) (fun _ => accounted) (fun _ _ => False) s.
Proof.
  intros Hs. apply at_rest_initialising in Hs.
  apply wp_bind.
  apply wp_conseq with (Q := fun _ => initialising []) (X := fun _ _ => False);
    [| | intros ? ? []].
  { destruct params' as [p |]; [apply wp_modify_net | apply wp_pure]; exact Hs. }
  clear s Hs. intros _ s Hs. unfold init_objects.
  apply wp_bind, wp_engine_init. apply (initialising_init _ H_server_fd) in Hs.
  apply wp_bind, wp_engine_init. apply (initialising_init _ H_ssl) in Hs.
  apply wp_bind, wp_engine_init. apply (initialising_init _ H_conf) in Hs.
  apply wp_bind, wp_engine_init. apply (initialising_init _ H_ctr_drbg) in Hs.
  apply wp_bind, wp_engine_init. apply (initialising_init _ H_cacert) in Hs.
  apply wp_bind, wp_engine_init. apply (initialising_init _ H_clicert) in Hs.
  apply wp_bind, wp_engine_init. apply (initialising_init _ H_pkey) in Hs.
  apply wp_engine_init. apply (initialising_init _ H_entropy) in Hs.
  apply initialising_all_accounted.
  destruct Hs as (Hub & Hleak & Hbal & Hnone & Hclean).
  repeat split; try assumption.
  intros h _. apply Hclean. destruct h; simpl; tauto.
Qed.

Lemma accounted_verify_step (E : Engine) (s : State) :
  accounted s -> wp (verify_peer E) (fun _ => accounted) (fun _ _ => False) s.
Proof.
  intros Hs. unfold verify_peer.
  apply wp_bind, wp_gets. cbv beta.
  destruct (Bool.eqb (ServerVerificationFlag (params s)) true); [| apply wp_pure; exact Hs].
  apply wp_bind, wp_engine_call.
  apply (accounted_call H_ssl mbedtls_ssl_get_verify_result (ssl_get_verify_result_ret E))
    in Hs.
  apply wp_bind, wp_modify_net.
  apply (accounted_net (set_flags (ssl_get_verify_result_ret E))) in Hs;
    [| intros n; right; intros h; destruct h; reflexivity].
  destruct (negb (ssl_get_verify_result_ret E =? 0)); [| apply wp_pure; exact Hs].
  apply wp_bind, wp_emit, wp_pure. exact Hs.
Qed.

(** However [iot_tls_connect] ends on a session at rest, the accounts
    balance. *)
Lemma connect_body_accounted (E : Engine) (params' : option TLSConnectParams) (s : State) :
  at_rest s -> accounted (snd (connect_body E params' s)).
Proof.
  intros Hs.
  assert (H : wp (connect_body E params') (fun _ => accounted)
                (left_from E accounted accounted accounted) s).
  { apply (connect_body_steps E params' at_rest accounted accounted accounted
             (fun _ => accounted)); try (exact accounted_stable); try exact Hs.
    - intros _. exact accounted_stable.
    - apply accounted_init_step.
    - intros x Hx _. exact Hx.
    - intros x Hx _. apply (accounted_net clear_ServerVerificationFlag); [| exact Hx].
      intros n. left. reflexivity.
    - intros x Hx. apply accounted_call. exact Hx.
    - apply accounted_verify_step. }
  unfold wp in H. destruct (connect_body E params' s) as [[r | e |] s']; simpl;
    try exact H;
    destruct H as [[H _] | [[[H _] _] | [[H | H] _]]]; exact H.
Qed.




(** ** The verification state through [iot_tls_connect] *)

Lemma verify_checked_snoc (cs : list call) (c : call) :
  verify_checked (cs ++ [c]) = verify_checked cs || is_verify_result c.
Proof. unfold verify_checked. rewrite existsb_app. simpl. rewrite orb_false_r. reflexivity. Qed.

Lemma authmode_set_snoc (cs : list call) (c : call) :
  authmode_set (cs ++ [c])
  = match c with
    | mbedtls_ssl_conf_authmode m => Some m
    | _ => authmode_set cs
    end.
Proof.
  induction cs as [| c0 cs IH]; simpl.
  - destruct c; reflexivity.
  - rewrite IH. destruct c; reflexivity.
Qed.

Lemma authmode_set_quiet (cs : list call) (c : call) :
  is_authmode c = false -> authmode_set (cs ++ [c]) = authmode_set cs.
Proof. intros H. rewrite authmode_set_snoc. destruct c; try reflexivity; discriminate. Qed.

Lemma quiet_split (c : call) :
  quiet c = true -> is_verify_result c = false /\ is_authmode c = false.
Proof.
  unfold quiet. intros H. apply andb_true_iff in H as [H1 H2].
  apply negb_true_iff in H1, H2. split; assumption.
Qed.

(** What a call of the engine does to the parameters, the flags and the
    trace. *)
Lemma call_effect {A : Type} (h : handle) (c : call) (a : A) (s : State) :
  params (snd (engine_call h c a s)) = params s
  /\ flags (data (snd (engine_call h c a s))) = flags (data s)
  /\ trace (world (snd (engine_call h c a s))) = trace (world s) ++ [c].
Proof. unfold engine_call. destruct (get_obj h (data s)); repeat split. Qed.

Lemma init_effect (h : handle) (s : State) :
  params (snd (engine_init h s)) = params s
  /\ trace (world (snd (engine_init h s))) = trace (world s) ++ [init_of h].
Proof. split; reflexivity. Qed.

Lemma verifying_call {A : Type} (t0 : list call) (p : TLSConnectParams) (vc : bool)
    (am : option authmode) (h : handle) (c : call) (a : A) (s : State) :
  verifying t0 p vc am s ->
  verifying t0 p (vc || is_verify_result c)
    (match c with mbedtls_ssl_conf_authmode m => Some m | _ => am end)
    (snd (engine_call h c a s)).
Proof.
  intros [Hp (cs & Hcs & Hvc & Ham)].
  destruct (call_effect h c a s) as (Ep & _ & Et).
  split; [rewrite Ep; exact Hp |].
  exists (cs ++ [c]). unfold since in *. rewrite Et, Hcs, app_assoc.
  split; [reflexivity |].
  rewrite verify_checked_snoc, authmode_set_snoc, Hvc, Ham. split; reflexivity.
Qed.

Lemma verifying_stable (t0 : list call) (p : TLSConnectParams) (vc : bool)
    (am : option authmode) :
  stable (verifying t0 p vc am).
Proof.
  intros s c Hc Hs. destruct (quiet_split c Hc) as [Hv Ha]. split.
  - intros h A a. pose proof (verifying_call t0 p vc am h c a s Hs) as H.
    rewrite Hv, orb_false_r in H. destruct c; try exact H; discriminate.
  - intros A a. destruct Hs as [Hp (cs & Hcs & Hvc & Ham)].
    split; [exact Hp |]. exists (cs ++ [c]). unfold since in *. simpl.
    rewrite Hcs, app_assoc. split; [reflexivity |].
    rewrite verify_checked_snoc, (authmode_set_quiet cs c Ha), Hv, orb_false_r.
    split; assumption.
Qed.

Lemma verifying_init (t0 : list call) (p : TLSConnectParams) (vc : bool)
    (am : option authmode) (h : handle) (s : State) :
  verifying t0 p vc am s -> verifying t0 p vc am (snd (engine_init h s)).
Proof.
  intros [Hp (cs & Hcs & Hvc & Ham)]. split; [exact Hp |].
  exists (cs ++ [init_of h]). unfold since in *. simpl.
  rewrite Hcs, app_assoc. split; [reflexivity |].
  rewrite verify_checked_snoc, authmode_set_snoc, Hvc, Ham. simpl.
  rewrite orb_false_r. split; reflexivity.
Qed.

Lemma after_trust_with_root (p : TLSConnectParams) :
  pRootCALocation p <> None -> after_trust p = p.
Proof.
  destruct p as [root cert key url port tmo vf]. unfold after_trust, has_root_ca. simpl.
  destruct root; [reflexivity | contradiction].
Qed.

Lemma verified_stable (t0 : list call) (p : TLSConnectParams) (r : IoT_Error_t) :
  stable (verified t0 p r).
Proof.
  intros s c Hc (Hs & Hf & Hr).
  destruct (verifying_stable t0 p _ _ s c Hc Hs) as [Hcall Hemit]. split.
  - intros h A a. split; [apply Hcall |]. split; [| exact Hr].
    destruct (call_effect h c a s) as (_ & -> & _). exact Hf.
  - intros A a. split; [apply Hemit |]. split; [exact Hf | exact Hr].
Qed.

Section Verification.

Variable E : Engine.
Variable params' : option TLSConnectParams.
Variable s0 : State.

Let t0 : list call := trace (world s0).
Let p0 : TLSConnectParams := effective_params (net s0) params'.
Let p1 : TLSConnectParams := after_trust p0.

Lemma verifying_init_step (s : State) :
  s = s0 ->
  wp (store_params params' ;; init_objects) (fun _ => verifying t0 p0 false None)
    (fun _ _ => False) s.
Proof.
  intros ->. apply wp_bind.
  apply wp_conseq with (Q := fun _ => verifying t0 p0 false None) (X := fun _ _ => False);
    [| | intros ? ? []].
  { assert (H : forall n, params (mk_State n (world s0)) = p0 ->
                          verifying t0 p0 false None (mk_State n (world s0))).
    { intros n Hn. split; [exact Hn |]. exists []. unfold since, t0. simpl.
      rewrite app_nil_r. repeat split. }
    unfold p0, effective_params in *.
    destruct params' as [p |]; [apply wp_modify_net | apply wp_pure].
    - apply H. destruct p; reflexivity.
    - destruct s0 as [n w]. apply (H n). reflexivity. }
  intros _ s Hs. unfold init_objects.
  do 7 (apply wp_bind, wp_engine_init;
        match goal with
        | |- context [engine_init ?h ?x] => apply (verifying_init _ _ _ _ h) in Hs
        end).
  apply wp_engine_init. apply verifying_init. exact Hs.
Qed.

Lemma verifying_verify_step (s : State) :
  verifying t0 p1 false (Some (mode_for (ServerVerificationFlag p1))) s ->
  wp (verify_peer E) (verified t0 p1) (fun _ _ => False) s.
Proof.
  intros Hs. unfold verify_peer.
  apply wp_bind, wp_gets. cbv beta.
  pose proof Hs as [Hp _]. rewrite Hp.
  destruct (ServerVerificationFlag p1) eqn:Evf; simpl.
  - apply wp_bind, wp_engine_call.
    apply (verifying_call _ _ _ _ H_ssl mbedtls_ssl_get_verify_result
             (ssl_get_verify_result_ret E)) in Hs. simpl in Hs.
    apply wp_bind, wp_modify_net.
    set (s2 := mk_State _ _).
    assert (Hs2 : verifying t0 p1 true (Some MBEDTLS_SSL_VERIFY_REQUIRED) s2).
    { destruct Hs as [Hp2 (cs & Hcs & Hvc & Ham)]. split; [exact Hp2 |].
      exists cs. repeat split; assumption. }
    assert (Hf : flags (data s2) = ssl_get_verify_result_ret E) by reflexivity.
    clearbody s2. clear Hs.
    destruct (ssl_get_verify_result_ret E =? 0) eqn:Ez; simpl.
    + apply wp_pure. split; [rewrite Evf; exact Hs2 |]. split; [| left; reflexivity].
      intros _ _. rewrite Hf. apply Z.eqb_eq. exact Ez.
    + apply wp_bind.
      pose proof (verifying_stable t0 p1 true (Some MBEDTLS_SSL_VERIFY_REQUIRED)) as Hst.
      stable_step. apply wp_pure. split; [rewrite Evf; assumption |].
      split; [discriminate | right; reflexivity].
  - apply wp_pure. split; [rewrite Evf; exact Hs |]. split; [| left; reflexivity].
    intros _ H. rewrite Evf in H. discriminate H.
Qed.

(** The verification state at every way out of [iot_tls_connect]. *)
Lemma connect_body_verifying :
  wp (connect_body E params') (verified t0 p1)
    (left_from E (verifying t0 p0 false None) (verifying t0 p1 false None)
       (verifying t0 p1 false (Some (mode_for (ServerVerificationFlag p1))))) s0.
Proof.
  apply (connect_body_steps E params' (fun s => s = s0)); try apply verifying_stable.
  - apply verified_stable.
  - apply verifying_init_step.
  - intros s [Hp Hcs] Hroot. split; [| exact Hcs].
    rewrite Hp. unfold p1. symmetry. apply after_trust_with_root.
    rewrite <- Hp. exact Hroot.
  - intros s [Hp Hcs] Hroot. split; [| exact Hcs].
    unfold params, clear_ServerVerificationFlag, _iot_tls_set_connect_params. simpl.
    fold (params s). rewrite Hp in *. unfold p1, after_trust, has_root_ca.
    rewrite Hroot. reflexivity.
  - intros s Hs. pose proof Hs as [Hp _].
    pose proof (verifying_call t0 p1 false None H_conf
                  (mbedtls_ssl_conf_authmode (mode_for (ServerVerificationFlag (params s))))
                  tt s Hs) as H.
    simpl in H. rewrite Hp in *. exact H.
  - apply verifying_verify_step.
  - reflexivity.
Qed.

End Verification.

(** ** Peer verification *)

(** C5, as amended.  In every [iot_tls_connect] that returns SUCCESS, the
    verification-result check is made and the authentication mode is
    "required" exactly when a root certificate is present and the caller's
    ServerVerificationFlag is set; otherwise (no root certificate, or the
    flag not set) the mode is "optional" and the check is skipped.  The
    session's ServerVerificationFlag after the connect tells which: it is
    set exactly in the first case, and then the stored verification result
    is 0. *)
Theorem connect_verification (E : Engine) (n : Network)
    (params' : option TLSConnectParams) (w : World) :
  forall o n' w',
    iot_tls_connect E (Some n) params' w = (o, Some n', w') ->
    returned o = Some SUCCESS ->
    let p := effective_params n params' in
    let verify := has_root_ca p && ServerVerificationFlag p in
    exists cs,
      trace w' = trace w ++ cs
      /\ ServerVerificationFlag (tlsConnectParams n') = verify
      /\ verify_checked cs = verify
      /\ authmode_set cs = Some (mode_for verify)
      /\ (verify = true -> flags (tlsDataParams n') = 0).
Proof.
  intros o n' w' Hconn Hret p verify.
  pose proof (connect_body_verifying E params' (mk_State n w)) as H.
  unfold iot_tls_connect in Hconn. unfold wp in H.
  destruct (connect_body E params' (mk_State n w)) as [o' [n1 w1]].
  inversion Hconn; subst o' n1 w1. clear Hconn.
  destruct o as [r | e |]; simpl in Hret.
  - inversion Hret; subst r.
    destruct H as ([Hp (cs & Hcs & Hvc & Ham)] & Hf & _).
    exists cs. simpl in Hp. unfold params in Hp. simpl in Hp.
    split; [exact Hcs |]. split; [rewrite Hp; reflexivity |].
    split; [exact Hvc |]. split; [exact Ham |].
    intros Ht. apply Hf; [reflexivity | exact Ht].
  - exfalso. inversion Hret; subst e.
    destruct H as [(_ & H & _) | [[_ H] | [_ [H _]]]];
      try discriminate H; apply H; reflexivity.
  - discriminate Hret.
Qed.

Lemma connect_verification_witness :
  exists cs,
    trace (snd connect_verified) = trace new_world ++ cs
    /\ ServerVerificationFlag (tlsConnectParams (session_after connect_verified)) = true
    /\ verify_checked cs = true
    /\ authmode_set cs = Some MBEDTLS_SSL_VERIFY_REQUIRED
    /\ (true = true -> flags (tlsDataParams (session_after connect_verified)) = 0).
Proof.
  apply (connect_verification engine_ok session_raw (Some params_ca_verify) new_world
           (fst (fst connect_verified)) (session_after connect_verified)
           (snd connect_verified)).
  - vm_compute. reflexivity.
  - vm_compute. reflexivity.
Defined.

(** C5 as stated fails: with a root certificate present and the caller's
    ServerVerificationFlag not set, [iot_tls_connect] returns SUCCESS with
    the authentication mode "optional" and without the verification-result
    check. *)
Lemma verification_skipped_with_root_ca :
  let r := iot_tls_connect engine_ok (Some session_raw) (Some params_ca_no_verify)
             new_world in
  fst (fst r) = Next SUCCESS
  /\ has_root_ca params_ca_no_verify = true
  /\ verify_checked (trace (snd r)) = false
  /\ authmode_set (trace (snd r)) = Some MBEDTLS_SSL_VERIFY_OPTIONAL.
Proof. vm_compute. repeat split; reflexivity. Qed.

(** ** The NULL check and the connection status *)

Lemma begun_call {A : Type} (t0 : list call) (h : handle) (c : call) (a : A)
    (s : State) :
  begun t0 s -> begun t0 (snd (engine_call h c a s)).
Proof.
  intros [cs Hcs]. destruct (call_effect h c a s) as (_ & _ & Et).
  exists (cs ++ [c]). rewrite Et, Hcs, <- app_assoc. reflexivity.
Qed.

Lemma begun_init (t0 : list call) (h : handle) (s : State) :
  begun t0 s -> begun t0 (snd (engine_init h s)).
Proof.
  intros [cs Hcs]. exists (cs ++ [init_of h]). simpl.
  rewrite Hcs, <- app_assoc. reflexivity.
Qed.

Lemma begun_stable (t0 : list call) : stable (begun t0).
Proof.
  intros s c _ Hs. split.
  - intros h A a. apply begun_call. exact Hs.
  - intros A a. destruct Hs as [cs Hcs]. exists (cs ++ [c]). simpl.
    rewrite Hcs, <- app_assoc. reflexivity.
Qed.

Lemma begun_verify_step (E : Engine) (t0 : list call) (s : State) :
  begun t0 s -> wp (verify_peer E) (fun _ => begun t0) (fun _ _ => False) s.
Proof.
  intros Hs. unfold verify_peer.
  apply wp_bind, wp_gets. cbv beta.
  destruct (Bool.eqb (ServerVerificationFlag (params s)) true); [| apply wp_pure; exact Hs].
  apply wp_bind, wp_engine_call.
  apply (begun_call t0 H_ssl mbedtls_ssl_get_verify_result (ssl_get_verify_result_ret E))
    in Hs.
  apply wp_bind, wp_modify_net.
  destruct (negb (ssl_get_verify_result_ret E =? 0)); [| apply wp_pure; exact Hs].
  apply wp_bind, wp_emit, wp_pure.
  destruct Hs as [cs Hcs]. exists (cs ++ [mbedtls_x509_crt_verify_info]). simpl in *.
  rewrite Hcs, <- app_assoc. reflexivity.
Qed.

(** With a session, the first thing [iot_tls_connect] does is to initialise
    the engine objects. *)
Lemma connect_body_begun (E : Engine) (params' : option TLSConnectParams) (s : State) :
  begun (trace (world s)) (snd (connect_body E params' s)).
Proof.
  set (t0 := trace (world s)).
  assert (H : wp (connect_body E params') (fun _ => begun t0)
                (left_from E (begun t0) (begun t0) (begun t0)) s).
  { apply (connect_body_steps E params' (fun x => x = s) (begun t0) (begun t0) (begun t0)
             (fun _ => begun t0)); try apply begun_stable; try reflexivity.
    - intros _. apply begun_stable.
    - intros x ->. apply wp_bind.
      apply wp_conseq with (Q := fun _ x => trace (world x) = t0) (X := fun _ _ => False);
        [| | intros ? ? []].
      { destruct params' as [p |]; [apply wp_modify_net | apply wp_pure]; reflexivity. }
      intros _ x Hx. unfold init_objects.
      apply wp_bind, wp_engine_init.
      assert (Hb : begun t0 (snd (engine_init H_server_fd x))).
      { exists []. simpl. rewrite Hx. reflexivity. }
      do 6 (apply wp_bind, wp_engine_init;
            match goal with
            | |- context [engine_init ?h (snd ?y)] => apply (begun_init t0 h) in Hb
            end).
      apply wp_engine_init, begun_init. exact Hb.
    - intros x Hx _. exact Hx.
    - intros x Hx _. exact Hx.
    - intros x Hx. apply begun_call. exact Hx.
    - intros x. apply begun_verify_step. }
  unfold wp in H. destruct (connect_body E params' s) as [[r | e |] s']; simpl;
    try exact H;
    destruct H as [[H _] | [[[H _] _] | [[H | H] _]]]; exact H.
Qed.

(** C8.  With a NULL network object [iot_tls_connect] returns
    NULL_VALUE_ERROR at once: no call is made on the engine (the trace and
    the accounts are as before) and there is no session to touch.  With a
    session, on the other hand, the first call made is the first init call:
    the NULL check comes before any initialisation. *)
Theorem connect_null_network (E : Engine) (params' : option TLSConnectParams)
    (w : World) :
  iot_tls_connect E None params' w = (Return NULL_VALUE_ERROR, None, w)
  /\ forall n,
       exists cs,
         trace (snd (iot_tls_connect E (Some n) params' w))
         = trace w ++ init_of H_server_fd :: cs.
Proof.
  split; [reflexivity |].
  intros n. pose proof (connect_body_begun E params' (mk_State n w)) as H.
  unfold iot_tls_connect.
  destruct (connect_body E params' (mk_State n w)) as [o s]. exact H.
Qed.

(** C9.  [iot_tls_is_connected] answers NETWORK_PHYSICAL_LAYER_CONNECTED
    for every session pointer, whatever the session's state: one on which
    connect was never called, one whose connect failed or succeeded, a
    disconnected one and a destroyed one. *)
Theorem is_connected_unconditional :
  (forall pNetwork, iot_tls_is_connected pNetwork = NETWORK_PHYSICAL_LAYER_CONNECTED)
  /\ iot_tls_is_connected (Some session_raw) = NETWORK_PHYSICAL_LAYER_CONNECTED
  /\ (forall E pNetwork params' w,
        iot_tls_is_connected (snd (fst (iot_tls_connect E pNetwork params' w)))
        = NETWORK_PHYSICAL_LAYER_CONNECTED)
  /\ (forall rets s,
        iot_tls_is_connected (Some (net (snd (iot_tls_disconnect rets s))))
        = NETWORK_PHYSICAL_LAYER_CONNECTED)
  /\ (forall s,
        iot_tls_is_connected (Some (net (snd (iot_tls_destroy s))))
        = NETWORK_PHYSICAL_LAYER_CONNECTED).
Proof. repeat split. Qed.

(** * Further properties of the timed transfers *)

Local Close Scope tls_scope.

Lemma running_polls_cons (b : bool) (timer : Timer) :
  running_polls (b :: timer)
  = ((if b then 0 else 1) + running_polls timer)%nat.
Proof. unfold running_polls. destruct b; reflexivity. Qed.

(** ** [iot_tls_read] *)

Lemma read_loop_first_call (timer : Timer) (ssl : list Z) (len rxLen : Z) :
  0 < len ->
  exists cs, snd (read_loop timer ssl len rxLen) = (len, fst (mbedtls_ssl_read ssl)) :: cs.
Proof.
  intros Hlen. apply Z.ltb_lt in Hlen. rewrite read_loop_eq, Hlen.
  destruct (mbedtls_ssl_read ssl) as [ret ssl']. cbv zeta. simpl fst.
  destruct (negb (0 <? ret) && read_fatal ret); [exists []; reflexivity |].
  destruct (fst (has_timer_expired timer)); [exists []; reflexivity |].
  eexists. reflexivity.
Qed.

(** X1.  The read comes before the first poll of the timer: with a buffer
    of positive length [iot_tls_read] calls the record-read primitive at
    least once, for the whole length, whatever the timer says.  When the
    timer has expired before the call that one read is the only one, and if
    it fills the buffer the result is SUCCESS all the same. *)
Theorem read_done_at_least_once (ssl : list Z) (len : Z) (timer : Timer)
    (read_len : Z) :
  0 < len < 2 ^ SIZE_WIDTH ->
  let r := iot_tls_read ssl len timer read_len in
  let ret := fst (mbedtls_ssl_read ssl) in
  (exists cs, calls r = (len, ret) :: cs)
  /\ (fst (has_timer_expired timer) = true ->
      calls r = [(len, ret)]
      /\ (ret = len -> status r = SUCCESS /\ out_len r = len)).
Proof.
  intros Hlen r ret. subst r ret. unfold iot_tls_read. split.
  - destruct (read_loop_first_call timer ssl len 0 ltac:(lia)) as [cs Hcs].
    destruct (read_loop timer ssl len 0) as [ex cs0]. simpl in Hcs. subst cs0.
    exists cs. destruct ex as [e | len' rxLen]; [reflexivity |].
    destruct (len' =? 0); [reflexivity |]. destruct (rxLen =? 0); reflexivity.
  - intros Hexp. rewrite read_loop_eq.
    assert (El : (0 <? len) = true) by (apply Z.ltb_lt; lia). rewrite El.
    destruct (mbedtls_ssl_read ssl) as [ret ssl']. cbv zeta. simpl fst.
    destruct (negb (0 <? ret) && read_fatal ret) eqn:Ef.
    + split; [reflexivity |]. intros ->. rewrite El in Ef. discriminate Ef.
    + rewrite Hexp. split.
      * destruct (0 <? ret); simpl;
          repeat match goal with |- context [if ?b then _ else _] => destruct b end;
          reflexivity.
      * intros ->. rewrite El. unfold size_sub, size_add.
        rewrite Z.sub_diag. rewrite (size_t_wrap_small (0 + len)) by lia.
        unfold size_t_wrap. rewrite Z.mod_0_l by (unfold SIZE_WIDTH; lia).
        simpl. split; reflexivity.
Qed.

Lemma read_done_at_least_once_witness :
  let r := iot_tls_read [4] 4 [true] 7 in
  (exists cs, calls r = (4, 4) :: cs)
  /\ (true = true -> calls r = [(4, 4)] /\ (4 = 4 -> status r = SUCCESS /\ out_len r = 4)).
Proof.
  apply (read_done_at_least_once [4] 4 [true] 7). unfold SIZE_WIDTH. lia.
Defined.

Lemma read_loop_returned (timer : Timer) :
  forall (ssl : list Z) (len rxLen : Z),
    (forall e, fst (read_loop timer ssl len rxLen) = Returned e ->
               e = NETWORK_SSL_READ_ERROR)
    /\ ((exists e, fst (read_loop timer ssl len rxLen) = Returned e)
        <-> existsb (fun c => fatal_read_answer (snd c))
              (snd (read_loop timer ssl len rxLen)) = true)
    /\ (forall cs c, snd (read_loop timer ssl len rxLen) = cs ++ [c] ->
                     existsb (fun c => fatal_read_answer (snd c)) cs = false).
Proof.
  induction timer as [| b timer' IH]; intros ssl len rxLen;
    rewrite read_loop_eq; destruct (0 <? len);
    try (split; [intros e H; discriminate H |];
         split; [split; [intros [e H]; discriminate H | intros H; discriminate H] |];
         intros [| c0 cs] c H; discriminate H);
    destruct (mbedtls_ssl_read ssl) as [ret ssl']; cbv zeta;
    unfold fatal_read_answer in *;
    destruct (negb (0 <? ret) && read_fatal ret) eqn:Ef.
  - split; [intros e H; inversion H; reflexivity |].
    split; [split; [intros _; simpl; rewrite Ef; reflexivity | intros _; eexists; reflexivity] |].
    intros [| c0 [| c1 cs]] c H; simpl in H; try discriminate H. reflexivity.
  - simpl. split; [intros e H; discriminate H |].
    split; [split; [intros [e H]; discriminate H | rewrite Ef; intros H; discriminate H] |].
    intros [| c0 [| c1 cs]] c H; simpl in H; try discriminate H. reflexivity.
  - split; [intros e H; inversion H; reflexivity |].
    split; [split; [intros _; simpl; rewrite Ef; reflexivity | intros _; eexists; reflexivity] |].
    intros [| c0 [| c1 cs]] c H; simpl in H; try discriminate H. reflexivity.
  - destruct b; simpl.
    + split; [intros e H; discriminate H |].
      split; [split; [intros [e H]; discriminate H | rewrite Ef; intros H; discriminate H] |].
      intros [| c0 [| c1 cs]] c H; simpl in H; try discriminate H. reflexivity.
    + set (len' := if 0 <? ret then size_sub len ret else len).
      set (rxLen' := if 0 <? ret then size_add rxLen ret else rxLen).
      destruct (IH ssl' len' rxLen') as (IH1 & IH2 & IH3).
      destruct (read_loop timer' ssl' len' rxLen') as [ex cs0]. simpl in *.
      rewrite Ef. simpl.
      split; [exact IH1 |]. split; [exact IH2 |].
      intros cs c H. destruct cs as [| c0 cs]; [reflexivity |].
      simpl in H. inversion H; subst c0. simpl. rewrite Ef. simpl.
      apply (IH3 cs c). assumption.
Qed.

(** X2.  [iot_tls_read] returns READ_ERROR exactly when an answer of the
    engine was fatal (zero, or negative and not retryable); the fatal
    answer is the last call made, and [*read_len] is left as it was, even
    when bytes were delivered before. *)
Theorem read_error_iff_fatal_answer (ssl : list Z) (len : Z) (timer : Timer)
    (read_len : Z) :
  let r := iot_tls_read ssl len timer read_len in
  (status r = NETWORK_SSL_READ_ERROR
   <-> existsb (fun c => fatal_read_answer (snd c)) (calls r) = true)
  /\ (status r = NETWORK_SSL_READ_ERROR ->
      out_len r = read_len
      /\ exists cs c, calls r = cs ++ [c]
                      /\ fatal_read_answer (snd c) = true
                      /\ existsb (fun c => fatal_read_answer (snd c)) cs = false).
Proof.
  unfold iot_tls_read.
  destruct (read_loop_returned timer ssl len 0) as (H1 & H2 & H3).
  destruct (read_loop timer ssl len 0) as [ex cs] eqn:Eloop. cbn [fst snd] in *.
  destruct ex as [e | len' rxLen].
  - pose proof (H1 e eq_refl) as ->. cbn [status out_len calls].
    assert (Hex : existsb (fun c => fatal_read_answer (snd c)) cs = true)
      by (apply H2; eexists; reflexivity).
    split; [split; [intros _; exact Hex | reflexivity] |].
    intros _. split; [reflexivity |].
    destruct (exists_last (l := cs)) as (cs' & c & ->).
    { intros ->. discriminate Hex. }
    exists cs', c. split; [reflexivity |].
    pose proof (H3 cs' c eq_refl) as Hpre. split; [| exact Hpre].
    rewrite existsb_app in Hex. apply orb_true_iff in Hex as [Hex | Hex].
    + exfalso. clear - Hex Hpre. unfold read_call in *. congruence.
    + simpl in Hex. rewrite orb_false_r in Hex. exact Hex.
  - assert (Hno : existsb (fun c => fatal_read_answer (snd c)) cs = false).
    { destruct (existsb (fun c : Z * Z => fatal_read_answer (snd c)) cs) eqn:Ex;
        [| reflexivity].
      destruct (proj2 H2 eq_refl) as [e He]. discriminate He. }
    destruct (len' =? 0); [| destruct (rxLen =? 0)]; cbn [status out_len calls];
      rewrite Hno;
      (split; [split; intros H; discriminate H | intros H; discriminate H]).
Qed.

Lemma read_loop_requests (timer : Timer) :
  forall (ssl : list Z) (len rxLen : Z),
    requests_follow len (snd (read_loop timer ssl len rxLen))
    /\ (List.length (snd (read_loop timer ssl len rxLen)) <= S (running_polls timer))%nat.
Proof.
  induction timer as [| b timer' IH]; intros ssl len rxLen;
    rewrite read_loop_eq; destruct (0 <? len);
    try (simpl; split; [exact I | lia]);
    destruct (mbedtls_ssl_read ssl) as [ret ssl']; cbv zeta;
    destruct (negb (0 <? ret) && read_fatal ret);
    try (simpl; split; [split; [reflexivity | exact I] | lia]).
  destruct b.
  - simpl. split; [split; [reflexivity | exact I] | lia].
  - simpl fst. simpl snd. cbv iota.
    destruct (IH ssl' (if 0 <? ret then size_sub len ret else len)
                (if 0 <? ret then size_add rxLen ret else rxLen)) as [IH1 IH2].
    unfold read_logged. simpl snd. rewrite running_polls_cons.
    split; [split; [reflexivity | exact IH1] |]. simpl. lia.
Qed.

(** X3.  Every read asks for what is left of the buffer: the first for
    [len], each next one for the length before less the bytes the previous
    read delivered. *)
Theorem read_requests_follow (ssl : list Z) (len : Z) (timer : Timer) (read_len : Z) :
  requests_follow len (calls (iot_tls_read ssl len timer read_len)).
Proof.
  unfold iot_tls_read.
  destruct (read_loop_requests timer ssl len 0) as [H _].
  destruct (read_loop timer ssl len 0) as [ex cs]. simpl in H.
  destruct ex as [e | len' rxLen]; [exact H |].
  destruct (len' =? 0); [exact H |]. destruct (rxLen =? 0); exact H.
Qed.

(** X4.  [iot_tls_read] reads once, and once more for every poll of the
    timer that answers "not expired": after the poll that reports the
    deadline passed, the engine is not called again. *)
Theorem read_calls_bounded (ssl : list Z) (len : Z) (timer : Timer) (read_len : Z) :
  (List.length (calls (iot_tls_read ssl len timer read_len)) <= S (running_polls timer))%nat.
Proof.
  unfold iot_tls_read.
  destruct (read_loop_requests timer ssl len 0) as [_ H].
  destruct (read_loop timer ssl len 0) as [ex cs]. simpl in H.
  destruct ex as [e | len' rxLen]; [exact H |].
  destruct (len' =? 0); [exact H |]. destruct (rxLen =? 0); exact H.
Qed.

(** ** [iot_tls_write] *)

Lemma snd_logged (c : write_call) (r : write_exit) : snd (logged c r) = c :: snd r.
Proof. destruct r as [[[b w] t] cs]. reflexivity. Qed.

Lemma write_loop_calls (pMsg : list byte) (len : Z) (timer : Timer) :
  forall (pc : write_pc) (ssl : list Z) (written_so_far ret : Z),
    (List.length (snd (write_loop pMsg len timer pc ssl written_so_far ret))
     <= running_polls timer)%nat.
Proof.
  induction timer as [| b timer' IH]; intros pc ssl wsf ret.
  - destruct pc; simpl; [destruct (wsf <? len) |]; simpl; lia.
  - rewrite running_polls_cons. destruct pc.
    + rewrite write_loop_for. destruct (wsf <? len); [| simpl; lia].
      destruct b; simpl fst; cbv iota; [simpl; lia |].
      simpl snd at 2. pose proof (IH WhileCond ssl wsf ret). lia.
    + destruct b.
      * simpl write_loop. pose proof (IH ForCond ssl (size_add wsf ret) ret). lia.
      * rewrite write_loop_while.
        destruct (mbedtls_ssl_write ssl) as [ret' ssl']. cbv zeta.
        destruct (ret' <=? 0).
        -- destruct (negb (ret' =? MBEDTLS_ERR_SSL_WANT_READ)
                     && negb (ret' =? MBEDTLS_ERR_SSL_WANT_WRITE)).
           ++ simpl. lia.
           ++ rewrite snd_logged. simpl List.length.
              pose proof (IH WhileCond ssl' wsf ret'). lia.
        -- rewrite snd_logged. simpl List.length.
           pose proof (IH ForCond ssl' (size_add wsf ret') ret'). lia.
Qed.

(** X5.  [iot_tls_write] calls the record-write primitive only after a poll
    of the timer that answered "not expired": it makes no more calls than
    there are such polls, and none at all once the deadline has passed. *)
Theorem write_calls_bounded (ssl : list Z) (pMsg : list byte) (len : Z)
    (timer : Timer) :
  (List.length (calls (iot_tls_write ssl pMsg len timer)) <= running_polls timer)%nat.
Proof.
  unfold iot_tls_write.
  pose proof (write_loop_calls pMsg len timer ForCond ssl 0 0) as H.
  destruct (write_loop pMsg len timer ForCond ssl 0 0) as [[[err wsf] timer'] cs].
  simpl in H.
  destruct err; [exact H |].
  destruct (fst (has_timer_expired timer') && negb (wsf =? len)); exact H.
Qed.

Lemma fatal_write_answer_split (bad : Z) :
  fatal_write_answer bad = true ->
  (bad <=? 0) = true
  /\ negb (bad =? MBEDTLS_ERR_SSL_WANT_READ) && negb (bad =? MBEDTLS_ERR_SSL_WANT_WRITE)
     = true.
Proof. unfold fatal_write_answer. intros H. apply andb_true_iff in H. exact H. Qed.

(** From either loop head, with the timer running long enough: the engine
    takes fragments, then gives a fatal answer. *)
Lemma write_loop_fatal (pMsg : list byte) (len : Z) (bad : Z) (more : list Z) :
  0 <= len < 2 ^ SIZE_WIDTH ->
  fatal_write_answer bad = true ->
  forall (good : list Z),
    Forall write_answer_ok good ->
    forall (timer : Timer) (written_so_far ret : Z) (k : nat),
      0 <= written_so_far ->
      written_so_far + fragments_total good < len ->
      running k timer ->
      let post (r : write_exit) :=
        exists timer' cs,
          r = (true, written_so_far + fragments_total good, timer', cs)
          /\ map snd cs = good ++ [bad] in
      ((2 * List.length good + 1 <= k)%nat ->
       post (write_loop pMsg len timer WhileCond (good ++ bad :: more) written_so_far ret))
      /\ ((2 * List.length good + 2 <= k)%nat ->
          post (write_loop pMsg len timer ForCond (good ++ bad :: more) written_so_far ret)).
Proof.
  intros Hlen Hbad good Hok.
  destruct (fatal_write_answer_split bad Hbad) as [Hle Hfatal].
  induction Hok as [| r good Hr Hok IH]; intros timer wsf ret k Hw Htot Hrun post.
  - assert (Hwhile : forall timer k ret, running k timer -> (1 <= k)%nat ->
               post (write_loop pMsg len timer WhileCond ([] ++ bad :: more) wsf ret)).
    { clear timer k ret Hrun. intros timer k ret Hrun Hk.
      destruct k as [| k]; [lia |].
      apply running_S in Hrun as (timer' & -> & Hrun).
      rewrite write_loop_while. cbn [app mbedtls_ssl_write]. cbv beta iota zeta.
      rewrite Hle, Hfatal. exists timer', [(offered pMsg len wsf, bad)].
      split; [| reflexivity].
      simpl. rewrite Z.add_0_r. reflexivity. }
    split; [intros Hk; apply (Hwhile timer k ret Hrun); simpl in Hk; lia |].
    intros Hk. simpl in Hk, Htot.
    destruct k as [| k]; [lia |].
    apply running_S in Hrun as (timer' & -> & Hrun).
    assert (El : (wsf <? len) = true) by (apply Z.ltb_lt; lia).
    rewrite write_loop_for, El. simpl has_timer_expired. cbv beta iota.
    apply (Hwhile timer' k ret Hrun). lia.
  - pose proof (fragments_total_nonneg good) as Hnn. simpl in Htot.
    assert (Hwhile : forall timer k ret, running k timer ->
               (2 * List.length (r :: good) + 1 <= k)%nat ->
               post (write_loop pMsg len timer WhileCond ((r :: good) ++ bad :: more)
                       wsf ret)).
    { clear timer k ret Hrun. intros timer k ret Hrun Hk. simpl in Hk.
      destruct k as [| k]; [lia |].
      apply running_S in Hrun as (timer' & -> & Hrun).
      rewrite write_loop_while. simpl mbedtls_ssl_write. cbv zeta.
      destruct Hr as [Hpos | Hblock].
      - assert (Ep : (0 <? r) = true) by (apply Z.ltb_lt; exact Hpos).
        assert (En : (r <=? 0) = false) by (apply Z.leb_gt; exact Hpos).
        rewrite Ep in Htot. rewrite En.
        unfold size_add. rewrite size_t_wrap_small by lia.
        destruct (IH timer' (wsf + r) r k ltac:(lia) ltac:(lia) Hrun) as [_ Hfor].
        destruct (Hfor ltac:(lia)) as (t' & cs & Eq & Hcs). rewrite Eq. unfold logged.
        exists t', ((offered pMsg len wsf, r) :: cs). split.
        + f_equal. f_equal. f_equal. subst post. simpl. rewrite Ep. lia.
        + simpl. rewrite Hcs. reflexivity.
      - destruct (would_block_write_retried r Hblock) as (En & Ef & Ep).
        rewrite Ep in Htot. rewrite En, Ef.
        destruct (IH timer' wsf r k ltac:(lia) ltac:(lia) Hrun) as [Hwh _].
        destruct (Hwh ltac:(lia)) as (t' & cs & Eq & Hcs). rewrite Eq. unfold logged.
        exists t', ((offered pMsg len wsf, r) :: cs). split.
        + f_equal. f_equal. f_equal. simpl. rewrite Ep. lia.
        + simpl. rewrite Hcs. reflexivity. }
    split; [apply Hwhile; exact Hrun |].
    intros Hk. simpl in Hk.
    destruct k as [| k]; [lia |].
    apply running_S in Hrun as (timer' & -> & Hrun).
    assert (El : (wsf <? len) = true).
    { apply Z.ltb_lt. destruct (0 <? r) eqn:Ep; [apply Z.ltb_lt in Ep |]; lia. }
    rewrite write_loop_for, El. simpl has_timer_expired. cbv beta iota.
    apply (Hwhile timer' k ret Hrun). simpl. lia.
Qed.

(** X6.  A fatal answer of the record-write primitive (zero, or negative
    and not a would-block) while the timer runs ends [iot_tls_write] at
    once with WRITE_ERROR: the fatal call is the last one, and
    [*written_len] is the number of bytes the engine accepted before it. *)
Theorem write_fatal_answer (pMsg : list byte) (len : Z) (good : list Z) (bad : Z)
    (more : list Z) (timer : Timer) :
  0 <= len < 2 ^ SIZE_WIDTH ->
  Forall write_answer_ok good ->
  fragments_total good < len ->
  fatal_write_answer bad = true ->
  running (2 * List.length good + 2) timer ->
  let r := iot_tls_write (good ++ bad :: more) pMsg len timer in
  status r = NETWORK_SSL_WRITE_ERROR
  /\ out_len r = fragments_total good
  /\ map snd (calls r) = good ++ [bad].
Proof.
  intros Hlen Hok Htot Hbad Hrun.
  destruct (write_loop_fatal pMsg len bad more Hlen Hbad good Hok timer 0 0
              (2 * List.length good + 2) ltac:(lia) ltac:(lia) Hrun) as [_ Hfor].
  destruct (Hfor ltac:(lia)) as (timer' & cs & Eq & Hcs).
  unfold iot_tls_write. rewrite Eq. simpl. repeat split. exact Hcs.
Qed.

Lemma write_fatal_answer_witness :
  let r := iot_tls_write [10; 0; 10] payload20 20 (repeat false 4) in
  status r = NETWORK_SSL_WRITE_ERROR /\ out_len r = 10 /\ map snd (calls r) = [10; 0].
Proof.
  apply (write_fatal_answer payload20 20 [10] 0 [10] (repeat false 4)).
  - unfold SIZE_WIDTH. lia.
  - apply Forall_cons; [left; lia | apply Forall_nil].
  - simpl. lia.
  - reflexivity.
  - simpl. exact I.
Defined.

(** * Further properties of the session's life cycle *)

Local Open Scope tls_scope.

(** ** What [iot_tls_connect] decides *)

Lemma has_params_call {A : Type} (p : TLSConnectParams) (h : handle) (c : call) (a : A)
    (s : State) :
  has_params p s -> has_params p (snd (engine_call h c a s)).
Proof. unfold has_params. intros H. rewrite params_call. exact H. Qed.

Lemma wp_call_params {A : Type} (p : TLSConnectParams) (h : handle) (c : call) (a : A)
    (Q : A -> State -> Prop) (X : option IoT_Error_t -> State -> Prop) (s : State) :
  has_params p s ->
  (forall s', has_params p s' -> Q a s') ->
  wp (engine_call h c a) Q X s.
Proof. intros Hs HQ. apply wp_engine_call, HQ, has_params_call, Hs. Qed.

Lemma wp_emit_params {A : Type} (p : TLSConnectParams) (c : call) (a : A)
    (Q : A -> State -> Prop) (X : option IoT_Error_t -> State -> Prop) (s : State) :
  has_params p s ->
  (forall s', has_params p s' -> Q a s') ->
  wp (emit c a) Q X s.
Proof. intros Hs HQ. apply wp_emit, HQ. exact Hs. Qed.

(** One step of a proof that follows the parameters through a sequence of
    calls and reads the decision off each early return. *)
Ltac params_step :=
  lazymatch goal with
  | |- wp (bind _ _) _ _ _ => apply wp_bind; params_step
  | |- wp (gets _) _ _ ?s =>
      apply wp_gets; cbv beta;
      try match goal with
          | Hs : has_params ?p s |- _ =>
              let Hp := fresh "Hp" in
              pose proof Hs as Hp; unfold has_params in Hp; rewrite Hp; clear Hp
          end
  | |- wp (pure _) _ _ _ => apply wp_pure
  | |- wp (exit _) _ _ _ =>
      apply wp_exit; split; [assumption | eexists; split; reflexivity]
  | |- wp (if ?b then exit _ else pure tt) _ _ _ =>
      let E := fresh "E" in destruct b eqn:E
  | |- wp (engine_call _ _ _) _ _ ?s =>
      let s' := fresh "s" in
      let H := fresh "Hs" in
      match goal with
      | Hs : has_params ?p s |- _ =>
          apply (wp_call_params p); [exact Hs | intros s' H]
      end
  | |- wp (emit _ _) _ _ ?s =>
      let s' := fresh "s" in
      let H := fresh "Hs" in
      match goal with
      | Hs : has_params ?p s |- _ =>
          apply (wp_emit_params p); [exact Hs | intros s' H]
      end
  end.

Section Decision.

Variable E : Engine.
Variable p : TLSConnectParams.

Lemma seed_rng_decides (s : State) :
  has_params p s ->
  wp (seed_rng E) (fun _ s' => has_params p s' /\ seed_exit E = None)
    (fun oe s' => has_params p s' /\ exists e, oe = Some e /\ seed_exit E = Some e) s.
Proof.
  intros Hs. unfold seed_rng, seed_exit.
  repeat params_step. split; [assumption | reflexivity].
Qed.

Lemma load_root_ca_decides (s : State) :
  has_params p s ->
  wp (load_root_ca E) (fun _ s' => has_params (after_trust p) s' /\ root_exit E p = None)
    (fun oe s' =>
       has_params (after_trust p) s' /\ exists e, oe = Some e /\ root_exit E p = Some e) s.
Proof.
  intros Hs. unfold load_root_ca, root_exit, crt_parse_of. cbv zeta.
  params_step.
  destruct (pRootCALocation p) as [name |] eqn:Eroot.
  - assert (Hat : after_trust p = p)
      by (apply after_trust_with_root; rewrite Eroot; discriminate).
    rewrite Hat. repeat params_step. split; [assumption | reflexivity].
  - apply wp_modify_net. split; [| reflexivity].
    unfold has_params, params, clear_ServerVerificationFlag, _iot_tls_set_connect_params
      in *.
    simpl. rewrite Hs. unfold after_trust, has_root_ca. rewrite Eroot. reflexivity.
Qed.

Lemma load_device_cert_decides (s : State) :
  has_params p s ->
  wp (load_device_cert E) (fun _ s' => has_params p s' /\ identity_exit E p = None)
    (fun oe s' => has_params p s' /\ exists e, oe = Some e /\ identity_exit E p = Some e) s.
Proof.
  intros Hs. unfold load_device_cert, identity_exit, crt_parse_of, key_parse_of. cbv zeta.
  params_step.
  destruct (pDeviceCertLocation p) as [name |] eqn:Ecert.
  - repeat params_step. split; [assumption | reflexivity].
  - params_step. split; [assumption | reflexivity].
Qed.

Lemma open_transport_decides (s : State) :
  has_params p s ->
  wp (open_transport E) (fun _ s' => has_params p s' /\ transport_exit E = None)
    (fun oe s' => has_params p s' /\ exists e, oe = Some e /\ transport_exit E = Some e) s.
Proof.
  intros Hs. unfold open_transport, transport_exit.
  repeat params_step. split; [assumption | reflexivity].
Qed.

Lemma configure_decides (s : State) :
  has_params p s ->
  wp (configure E) (fun _ s' => has_params p s' /\ configure_exit E p = None)
    (fun oe s' => has_params p s' /\ exists e, oe = Some e /\ configure_exit E p = Some e) s.
Proof.
  intros Hs. unfold configure, configure_exit.
  do 2 params_step; [params_step |]. do 3 params_step.
  apply wp_bind.
  apply wp_conseq with (Q := fun _ => has_params p) (X := fun _ _ => False);
    [| | intros ? ? []].
  { destruct (Bool.eqb (ServerVerificationFlag p) true);
      params_step; assumption. }
  intros ? ? ?; cbv beta in *.
  do 2 params_step.
  apply wp_bind.
  apply wp_conseq with (Q := fun _ => has_params p) (X := fun _ _ => False);
    [| | intros ? ? []].
  { destruct (pRootCALocation p); params_step; assumption. }
  intros ? ? ?; cbv beta in *.
  params_step.
  destruct (pDeviceCertLocation p) as [name |] eqn:Ecert.
  - repeat params_step. split; [assumption | reflexivity].
  - repeat params_step. split; [assumption | reflexivity].
Qed.

Lemma handshake_loop_decides (rets : list Z) (s : State) :
  has_params p s ->
  wp (handshake_loop rets) (fun _ s' => has_params p s' /\ handshake_ends rets = HsDone)
    (fun oe s' =>
       has_params p s'
       /\ ((oe = None /\ handshake_ends rets = HsSpin)
           \/ (oe = Some SSL_CONNECTION_ERROR /\ handshake_ends rets = HsFailed))) s.
Proof.
  revert s. induction rets as [| r rets IH]; intros s Hs; simpl.
  - apply wp_spin. split; [assumption | left; split; reflexivity].
  - params_step.
    destruct (r =? 0); [apply wp_pure; split; [assumption | reflexivity] |].
    destruct (negb (r =? MBEDTLS_ERR_SSL_WANT_READ)
              && negb (r =? MBEDTLS_ERR_SSL_WANT_WRITE)).
    + apply wp_exit. split; [assumption | right; split; reflexivity].
    + apply IH. assumption.
Qed.

Lemma verify_peer_decides (s : State) :
  has_params p s ->
  wp (verify_peer E) (fun r s' => has_params p s' /\ r = verify_exit E p)
    (fun _ _ => False) s.
Proof.
  intros Hs. unfold verify_peer, verify_exit.
  params_step.
  destruct (Bool.eqb (ServerVerificationFlag p) true); [| apply wp_pure; split; auto].
  params_step. apply wp_bind, wp_modify_net.
  assert (Hs1 : has_params p (mk_State (set_flags (ssl_get_verify_result_ret E) (net s0))
                                 (world s0))) by exact Hs0.
  destruct (negb (ssl_get_verify_result_ret E =? 0)).
  - repeat params_step. split; [assumption | reflexivity].
  - apply wp_pure. split; [assumption | reflexivity].
Qed.

End Decision.

Lemma init_has_params (params' : option TLSConnectParams) (s : State) :
  wp (store_params params' ;; init_objects)
    (fun _ => has_params (effective_params (net s) params')) (fun _ _ => False) s.
Proof.
  eapply wp_conseq; [apply (verifying_init_step params' s s eq_refl) | | intros ? ? []].
  intros _ s' [H _]. exact H.
Qed.

(** The outcome of [connect_body] is the one the decision gives, and the
    parameters it leaves in the session are the ones trust loading leaves,
    or the ones given when it does not get that far. *)
Lemma connect_body_decides (E : Engine) (params' : option TLSConnectParams) (s : State) :
  wp (connect_body E params')
    (fun r s' =>
       has_params (stored_params E (effective_params (net s) params')) s'
       /\ Some r = connect_outcome E (effective_params (net s) params'))
    (fun oe s' =>
       has_params (stored_params E (effective_params (net s) params')) s'
       /\ oe = connect_outcome E (effective_params (net s) params')) s.
Proof.
  set (p := effective_params (net s) params'). unfold connect_body.
  apply (wp_prefix _ _ _ (has_params p)); [apply init_has_params |].
  intros s1 Hs. unfold connect_outcome, stored_params.
  apply wp_bind.
  eapply wp_conseq; [apply (seed_rng_decides E p); exact Hs | |];
    [| intros oe ? (Hp & e & -> & ->); split; [exact Hp | reflexivity]].
  intros ? s2 [Hs2 ->].
  apply wp_bind.
  eapply wp_conseq; [apply (load_root_ca_decides E p); exact Hs2 | |];
    [| intros oe ? (Hp & e & -> & ->); split; [exact Hp | reflexivity]].
  intros ? s3 [Hs3 ->].
  apply wp_bind.
  eapply wp_conseq; [apply (load_device_cert_decides E (after_trust p)); exact Hs3 | |];
    [| intros oe ? (Hp & e & -> & ->); split; [exact Hp | reflexivity]].
  intros ? s4 [Hs4 ->].
  apply wp_bind.
  eapply wp_conseq; [apply (open_transport_decides E (after_trust p)); exact Hs4 | |];
    [| intros oe ? (Hp & e & -> & ->); split; [exact Hp | reflexivity]].
  intros ? s5 [Hs5 ->].
  apply wp_bind.
  eapply wp_conseq; [apply (configure_decides E (after_trust p)); exact Hs5 | |];
    [| intros oe ? (Hp & e & -> & ->); split; [exact Hp | reflexivity]].
  intros ? s6 [Hs6 ->].
  apply wp_bind.
  eapply wp_conseq;
    [apply (handshake_loop_decides (after_trust p) (ssl_handshake_rets E)); exact Hs6 | |];
    [| intros oe ? [Hp [[-> ->] | [-> ->]]]; split; [exact Hp | reflexivity
                                                    | exact Hp | reflexivity]].
  intros ? s7 [Hs7 ->].
  params_step.
  apply wp_bind.
  eapply wp_conseq; [apply (verify_peer_decides E (after_trust p)); eassumption | |];
    [| intros ? ? []].
  intros r s9 [Hs9 ->].
  repeat params_step. split; [assumption | reflexivity].
Qed.

(** The outcome of [iot_tls_connect] on a session is the decision for the
    parameters in effect. *)
Lemma connect_decides (E : Engine) (n : Network) (params' : option TLSConnectParams)
    (w : World) :
  connect_returns E n params' w = connect_outcome E (effective_params n params').
Proof.
  unfold connect_returns, iot_tls_connect.
  pose proof (connect_body_decides E params' (mk_State n w)) as H. unfold wp in H.
  destruct (connect_body E params' (mk_State n w)) as [[r | e |] s']; simpl in *;
    destruct H as [_ H]; first [exact H | symmetry; exact H].
Qed.

(** X7.  What [iot_tls_connect] gives back depends on the engine's answers
    and on the parameters in effect only: not on what the session's engine
    objects or flags held before, nor on what happened before in the
    world.  A connect on a used session is decided as on a fresh one. *)
Theorem connect_result_independent_of_session (E : Engine) (n1 n2 : Network)
    (params1 params2 : option TLSConnectParams) (w1 w2 : World) :
  effective_params n1 params1 = effective_params n2 params2 ->
  connect_returns E n1 params1 w1 = connect_returns E n2 params2 w2.
Proof. intros H. rewrite !connect_decides, H. reflexivity. Qed.

Lemma connect_result_independent_of_session_witness :
  connect_returns engine_ok session_raw (Some params_ca_verify) new_world
  = connect_returns engine_ok session_seed_failed (Some params_ca_verify) world_seed_failed.
Proof.
  apply (connect_result_independent_of_session engine_ok session_raw session_seed_failed
           (Some params_ca_verify) (Some params_ca_verify) new_world world_seed_failed).
  reflexivity.
Defined.

(** ** The steps, case by case *)

Lemma seed_cases (E : Engine) :
  (seed_exit E = None /\ seeding_succeeds E)
  \/ (seed_exit E = Some NETWORK_MBEDTLS_ERR_CTR_DRBG_ENTROPY_SOURCE_FAILED
      /\ ~ seeding_succeeds E).
Proof.
  unfold seed_exit, seeding_succeeds.
  destruct (Z.eqb_spec (entropy_add_source_ret E) 0) as [H1 | H1]; simpl;
    [| right; split; [reflexivity | tauto]].
  destruct (Z.eqb_spec (ctr_drbg_seed_ret E) 0) as [H2 | H2]; simpl;
    [left | right]; split; try reflexivity; tauto.
Qed.

Lemma root_cases (E : Engine) (p : TLSConnectParams) :
  (root_exit E p = None /\ root_loads E p)
  \/ (root_exit E p = Some NETWORK_X509_ROOT_CRT_PARSE_ERROR /\ ~ root_loads E p).
Proof.
  unfold root_exit, root_loads. destruct (pRootCALocation p) as [name |]; [| left; tauto].
  destruct (Z.ltb_spec (fst (readfile E (Some name))) 0) as [H1 | H1];
    [right; split; [reflexivity | lia] |].
  destruct (Z.ltb_spec (crt_parse_of E (Some name)) 0) as [H2 | H2];
    [right; split; [reflexivity | lia] | left; split; [reflexivity | lia]].
Qed.

Lemma identity_cases (E : Engine) (p : TLSConnectParams) :
  (identity_exit E p = None /\ cert_loads E p /\ key_loads E p)
  \/ (identity_exit E p = Some NETWORK_X509_DEVICE_CRT_PARSE_ERROR /\ ~ cert_loads E p)
  \/ (identity_exit E p = Some NETWORK_PK_PRIVATE_KEY_PARSE_ERROR
      /\ cert_loads E p /\ ~ key_loads E p).
Proof.
  unfold identity_exit, cert_loads, key_loads.
  destruct (pDeviceCertLocation p) as [name |]; [| left; tauto].
  destruct (Z.ltb_spec (fst (readfile E (Some name))) 0) as [H1 | H1];
    [right; left; split; [reflexivity | lia] |].
  destruct (Z.eqb_spec (crt_parse_of E (Some name)) 0) as [H2 | H2]; simpl;
    [| right; left; split; [reflexivity | tauto]].
  destruct (Z.ltb_spec (fst (readfile E (pDevicePrivateKeyLocation p))) 0) as [H3 | H3];
    [right; right; split; [reflexivity | split; [tauto | lia]] |].
  destruct (Z.eqb_spec (key_parse_of E (pDevicePrivateKeyLocation p)) 0) as [H4 | H4];
    simpl; [left | right; right]; split; try reflexivity; tauto.
Qed.

Lemma transport_cases (E : Engine) :
  (transport_exit E = None /\ transport_opens E)
  \/ (transport_exit E = Some (net_connect_error (net_connect_ret E))
      /\ net_connect_ret E <> 0)
  \/ (transport_exit E = Some SSL_CONNECTION_ERROR
      /\ net_connect_ret E = 0 /\ net_set_block_ret E <> 0).
Proof.
  unfold transport_exit, transport_opens.
  destruct (Z.eqb_spec (net_connect_ret E) 0) as [H1 | H1]; simpl;
    [| right; left; tauto].
  destruct (Z.eqb_spec (net_set_block_ret E) 0) as [H2 | H2]; simpl;
    [left | right; right]; tauto.
Qed.

Lemma configure_cases (E : Engine) (p : TLSConnectParams) :
  (configure_exit E p = None /\ configured E p)
  \/ (configure_exit E p = Some SSL_CONNECTION_ERROR /\ ~ configured E p).
Proof.
  unfold configure_exit, configured.
  destruct (Z.eqb_spec (ssl_config_defaults_ret E) 0) as [H1 | H1]; simpl;
    [| right; tauto].
  assert (Hown : (match pDeviceCertLocation p with
                  | Some _ => negb (ssl_conf_own_cert_ret E =? 0)
                  | None => false
                  end = false
                  /\ (pDeviceCertLocation p <> None -> ssl_conf_own_cert_ret E = 0))
                 \/ (match pDeviceCertLocation p with
                     | Some _ => negb (ssl_conf_own_cert_ret E =? 0)
                     | None => false
                     end = true
                     /\ ~ (pDeviceCertLocation p <> None -> ssl_conf_own_cert_ret E = 0))).
  { destruct (pDeviceCertLocation p) as [name |]; [| left; tauto].
    destruct (Z.eqb_spec (ssl_conf_own_cert_ret E) 0) as [H | H]; simpl;
      [left; tauto | right]. split; [reflexivity |]. intros Hc. apply H, Hc. discriminate. }
  destruct Hown as [[-> Hown] | [-> Hown]]; [| right; tauto].
  destruct (Z.eqb_spec (ssl_setup_ret E) 0) as [H3 | H3]; simpl; [| right; tauto].
  destruct (Z.eqb_spec (ssl_set_hostname_ret E) 0) as [H4 | H4]; simpl;
    [left | right]; tauto.
Qed.

Lemma verify_cases (E : Engine) (p : TLSConnectParams) :
  (verify_exit E (after_trust p) = SUCCESS /\ verification_passes E p)
  \/ (verify_exit E (after_trust p) = SSL_CONNECTION_ERROR /\ ~ verification_passes E p).
Proof.
  unfold verify_exit, verification_passes, after_trust. simpl.
  destruct (has_root_ca p && ServerVerificationFlag p); simpl; [| left; tauto].
  destruct (Z.eqb_spec (ssl_get_verify_result_ret E) 0) as [H | H]; simpl;
    [left; tauto | right]. split; [reflexivity |]. intros [Hc | Hc]; [discriminate | tauto].
Qed.

Lemma net_connect_error_cases (r : Z) :
  (r = MBEDTLS_ERR_NET_SOCKET_FAILED
   /\ net_connect_error r = NETWORK_ERR_NET_SOCKET_FAILED)
  \/ (r = MBEDTLS_ERR_NET_UNKNOWN_HOST
      /\ net_connect_error r = NETWORK_ERR_NET_UNKNOWN_HOST)
  \/ (r <> MBEDTLS_ERR_NET_SOCKET_FAILED /\ r <> MBEDTLS_ERR_NET_UNKNOWN_HOST
      /\ net_connect_error r = NETWORK_ERR_NET_CONNECT_FAILED).
Proof.
  unfold net_connect_error.
  destruct (Z.eqb_spec r MBEDTLS_ERR_NET_SOCKET_FAILED) as [H1 | H1]; [left; tauto |].
  destruct (Z.eqb_spec r MBEDTLS_ERR_NET_UNKNOWN_HOST) as [H2 | H2];
    [right; left; tauto | right; right; tauto].
Qed.

(** Every outcome of the decision, with the step that gives it. *)
Lemma connect_outcome_cases (E : Engine) (p : TLSConnectParams) :
  let out := connect_outcome E p in
  let hs := handshake_ends (ssl_handshake_rets E) in
  (~ seeding_succeeds E
   /\ out = Some NETWORK_MBEDTLS_ERR_CTR_DRBG_ENTROPY_SOURCE_FAILED)
  \/ (seeding_succeeds E /\ ~ root_loads E p
      /\ out = Some NETWORK_X509_ROOT_CRT_PARSE_ERROR)
  \/ (seeding_succeeds E /\ root_loads E p /\ ~ cert_loads E p
      /\ out = Some NETWORK_X509_DEVICE_CRT_PARSE_ERROR)
  \/ (seeding_succeeds E /\ root_loads E p /\ cert_loads E p /\ ~ key_loads E p
      /\ out = Some NETWORK_PK_PRIVATE_KEY_PARSE_ERROR)
  \/ (loaded E p /\ net_connect_ret E <> 0
      /\ out = Some (net_connect_error (net_connect_ret E)))
  \/ (loaded E p /\ net_connect_ret E = 0
      /\ (net_set_block_ret E <> 0 \/ ~ configured E p)
      /\ out = Some SSL_CONNECTION_ERROR)
  \/ (set_up E p /\ hs = HsFailed /\ out = Some SSL_CONNECTION_ERROR)
  \/ (set_up E p /\ hs = HsSpin /\ out = None)
  \/ (set_up E p /\ hs = HsDone /\ ~ verification_passes E p
      /\ out = Some SSL_CONNECTION_ERROR)
  \/ (set_up E p /\ hs = HsDone /\ verification_passes E p /\ out = Some SUCCESS).
Proof.
  intros out hs. subst out hs. unfold connect_outcome, set_up, loaded.
  destruct (seed_cases E) as [[-> Hseed] | [-> Hseed]]; [| left; tauto].
  destruct (root_cases E p) as [[-> Hroot] | [-> Hroot]]; [| right; left; tauto].
  change (identity_exit E (after_trust p)) with (identity_exit E p).
  destruct (identity_cases E p) as [[-> [Hcert Hkey]] | [[-> Hcert] | [-> [Hcert Hkey]]]];
    [| do 2 right; left; tauto | do 3 right; left; tauto].
  destruct (transport_cases E) as [[-> Htr] | [[-> Hnet] | [-> [Hnet Hblk]]]];
    [| do 4 right; left; tauto | do 5 right; left; tauto].
  change (configure_exit E (after_trust p)) with (configure_exit E p).
  destruct (configure_cases E p) as [[-> Hconf] | [-> Hconf]];
    [| do 5 right; left; destruct Htr; tauto].
  destruct (handshake_ends (ssl_handshake_rets E)).
  - destruct (verify_cases E p) as [[-> Hv] | [-> Hv]];
      [do 9 right | do 8 right; left]; tauto.
  - do 6 right. left. tauto.
  - do 7 right. left. tauto.
Qed.

(** ** The handshake script *)

Lemma would_block_retried (r : Z) :
  would_block r ->
  (r =? 0) = false
  /\ negb (r =? MBEDTLS_ERR_SSL_WANT_READ) && negb (r =? MBEDTLS_ERR_SSL_WANT_WRITE)
     = false.
Proof. intros [-> | ->]; split; reflexivity. Qed.

Lemma not_would_block (r : Z) :
  negb (r =? MBEDTLS_ERR_SSL_WANT_READ) && negb (r =? MBEDTLS_ERR_SSL_WANT_WRITE) = true
  <-> ~ would_block r.
Proof.
  unfold would_block.
  destruct (Z.eqb_spec r MBEDTLS_ERR_SSL_WANT_READ) as [H1 | H1];
    destruct (Z.eqb_spec r MBEDTLS_ERR_SSL_WANT_WRITE) as [H2 | H2]; simpl;
    split; intros H; try discriminate H; try tauto.
Qed.

Lemma handshake_ends_after_blocks (blocks rest : list Z) :
  Forall would_block blocks -> handshake_ends (blocks ++ rest) = handshake_ends rest.
Proof.
  induction 1 as [| r blocks Hr _ IH]; [reflexivity |]. simpl.
  destruct (would_block_retried r Hr) as [-> ->]. exact IH.
Qed.

Lemma handshake_ends_spec (rets : list Z) :
  match handshake_ends rets with
  | HsDone => handshake_completes rets
  | HsFailed => handshake_fails rets
  | HsSpin => handshake_stalls rets
  end.
Proof.
  induction rets as [| r rets IH]; simpl; [apply Forall_nil |].
  destruct (Z.eqb_spec r 0) as [-> | Hr0].
  - exists [], rets. split; [reflexivity | apply Forall_nil].
  - destruct (negb (r =? MBEDTLS_ERR_SSL_WANT_READ)
              && negb (r =? MBEDTLS_ERR_SSL_WANT_WRITE)) eqn:Eb.
    + apply not_would_block in Eb. exists [], r, rets.
      split; [reflexivity |]. split; [apply Forall_nil | tauto].
    + assert (Hb : would_block r).
      { destruct (Z.eqb_spec r MBEDTLS_ERR_SSL_WANT_READ) as [H1 | H1]; [left; exact H1 |].
        destruct (Z.eqb_spec r MBEDTLS_ERR_SSL_WANT_WRITE) as [H2 | H2];
          [right; exact H2 | discriminate Eb]. }
      destruct (handshake_ends rets).
      * destruct IH as (blocks & more & -> & Hbl).
        exists (r :: blocks), more. split; [reflexivity | apply Forall_cons; assumption].
      * destruct IH as (blocks & r' & more & -> & Hbl & Hr').
        exists (r :: blocks), r', more.
        split; [reflexivity |]. split; [apply Forall_cons; assumption | exact Hr'].
      * apply Forall_cons; assumption.
Qed.

Lemma handshake_done_iff (rets : list Z) :
  handshake_ends rets = HsDone <-> handshake_completes rets.
Proof.
  split.
  - intros H. pose proof (handshake_ends_spec rets) as Hs. rewrite H in Hs. exact Hs.
  - intros (blocks & more & -> & Hbl). rewrite handshake_ends_after_blocks by exact Hbl.
    reflexivity.
Qed.

Lemma handshake_failed_iff (rets : list Z) :
  handshake_ends rets = HsFailed <-> handshake_fails rets.
Proof.
  split.
  - intros H. pose proof (handshake_ends_spec rets) as Hs. rewrite H in Hs. exact Hs.
  - intros (blocks & r & more & -> & Hbl & Hr0 & Hnb).
    rewrite handshake_ends_after_blocks by exact Hbl. simpl.
    apply Z.eqb_neq in Hr0. rewrite Hr0. apply not_would_block in Hnb. rewrite Hnb.
    reflexivity.
Qed.

Lemma handshake_spin_iff (rets : list Z) :
  handshake_ends rets = HsSpin <-> handshake_stalls rets.
Proof.
  split.
  - intros H. pose proof (handshake_ends_spec rets) as Hs. rewrite H in Hs. exact Hs.
  - intros Hbl. rewrite <- (app_nil_r rets). rewrite handshake_ends_after_blocks by exact Hbl.
    reflexivity.
Qed.

(** ** The error taxonomy of [iot_tls_connect] *)

Ltac outcome_cases E p :=
  destruct (connect_outcome_cases E p) as
    [(H1 & Hout)
    | [(H1 & H2 & Hout)
      | [(H1 & H2 & H3 & Hout)
        | [(H1 & H2 & H3 & H4 & Hout)
          | [(H1 & H2 & Hout)
            | [(H1 & H2 & H3 & Hout)
              | [(H1 & H2 & Hout)
                | [(H1 & H2 & Hout)
                  | [(H1 & H2 & H3 & Hout)
                    | (H1 & H2 & H3 & Hout)]]]]]]]]];
  cbv zeta in Hout; rewrite Hout;
  [ | | | |
    destruct (net_connect_error_cases (net_connect_ret E))
      as [[Hr Hn] | [[Hr Hn] | (Hr1 & Hr2 & Hn)]];
    rewrite Hn
  | | | | | ].

Ltac taxonomy :=
  unfold set_up, loaded, transport_opens in *;
  unfold MBEDTLS_ERR_NET_SOCKET_FAILED, MBEDTLS_ERR_NET_UNKNOWN_HOST in *;
  intuition (try discriminate; try congruence; try lia).

(** X8.  [iot_tls_connect] returns SUCCESS exactly when seeding succeeds,
    the root certificate (if any) and the device certificate with its key
    (if any) load, the transport opens, every configuration call succeeds,
    the handshake completes after would-blocks only, and the verification
    either is off or gives the result 0. *)
Theorem connect_success_iff (E : Engine) (n : Network)
    (params' : option TLSConnectParams) (w : World) :
  let p := effective_params n params' in
  connect_returns E n params' w = Some SUCCESS
  <-> set_up E p /\ handshake_completes (ssl_handshake_rets E)
      /\ verification_passes E p.
Proof.
  intros p. rewrite connect_decides. fold p. rewrite <- handshake_done_iff.
  outcome_cases E p; taxonomy.
Qed.

(** X9.  [iot_tls_connect] returns the entropy-source error exactly when
    one of the two seeding calls fails: no later step gives that code. *)
Theorem connect_entropy_error_iff (E : Engine) (n : Network)
    (params' : option TLSConnectParams) (w : World) :
  connect_returns E n params' w
  = Some NETWORK_MBEDTLS_ERR_CTR_DRBG_ENTROPY_SOURCE_FAILED
  <-> ~ seeding_succeeds E.
Proof.
  rewrite connect_decides. set (p := effective_params n params').
  outcome_cases E p; taxonomy.
Qed.

(** X10.  [iot_tls_connect] returns the root-certificate error exactly when
    seeding succeeds and the root certificate, being named, cannot be read
    or parses with a negative result.  A positive parse result (some
    certificates skipped) is accepted. *)
Theorem connect_root_error_iff (E : Engine) (n : Network)
    (params' : option TLSConnectParams) (w : World) :
  let p := effective_params n params' in
  connect_returns E n params' w = Some NETWORK_X509_ROOT_CRT_PARSE_ERROR
  <-> seeding_succeeds E /\ ~ root_loads E p.
Proof.
  intros p. rewrite connect_decides. fold p.
  outcome_cases E p; taxonomy.
Qed.

(** X11.  The two identity errors tell the artifact that failed: the
    device-certificate error is returned exactly when the certificate
    cannot be read or its parse result is not 0 (a positive one included),
    the private-key error exactly when the certificate loads and the key
    does not. *)
Theorem connect_identity_errors_iff (E : Engine) (n : Network)
    (params' : option TLSConnectParams) (w : World) :
  let p := effective_params n params' in
  (connect_returns E n params' w = Some NETWORK_X509_DEVICE_CRT_PARSE_ERROR
   <-> seeding_succeeds E /\ root_loads E p /\ ~ cert_loads E p)
  /\ (connect_returns E n params' w = Some NETWORK_PK_PRIVATE_KEY_PARSE_ERROR
      <-> seeding_succeeds E /\ root_loads E p /\ cert_loads E p /\ ~ key_loads E p).
Proof.
  intros p. rewrite connect_decides. fold p.
  outcome_cases E p; taxonomy.
Qed.

(** X12.  The three transport errors follow the answer of
    [mbedtls_net_connect], once the identity is loaded: the socket and the
    unknown-host codes are passed on as such, every other non-zero answer
    is reported as CONNECT_FAILED. *)
Theorem connect_transport_errors_iff (E : Engine) (n : Network)
    (params' : option TLSConnectParams) (w : World) :
  let p := effective_params n params' in
  let r := net_connect_ret E in
  (connect_returns E n params' w = Some NETWORK_ERR_NET_SOCKET_FAILED
   <-> loaded E p /\ r = MBEDTLS_ERR_NET_SOCKET_FAILED)
  /\ (connect_returns E n params' w = Some NETWORK_ERR_NET_UNKNOWN_HOST
      <-> loaded E p /\ r = MBEDTLS_ERR_NET_UNKNOWN_HOST)
  /\ (connect_returns E n params' w = Some NETWORK_ERR_NET_CONNECT_FAILED
      <-> loaded E p /\ r <> 0 /\ r <> MBEDTLS_ERR_NET_SOCKET_FAILED
          /\ r <> MBEDTLS_ERR_NET_UNKNOWN_HOST).
Proof.
  intros p r. subst r. rewrite connect_decides. fold p.
  outcome_cases E p; taxonomy.
Qed.

(** X13.  [iot_tls_connect] fails to come back only in the handshake loop:
    exactly when every step before it succeeds and the handshake answers
    nothing but would-blocks. *)
Theorem connect_spins_iff (E : Engine) (n : Network)
    (params' : option TLSConnectParams) (w : World) :
  let p := effective_params n params' in
  connect_returns E n params' w = None
  <-> set_up E p /\ handshake_stalls (ssl_handshake_rets E).
Proof.
  intros p. rewrite connect_decides. fold p. rewrite <- handshake_spin_iff.
  outcome_cases E p; taxonomy.
Qed.

(** X14.  [iot_tls_connect] returns SSL_CONNECTION_ERROR exactly when the
    identity is loaded, the transport connects, and then the blocking mode
    cannot be set, or a configuration call fails, or the handshake gives an
    answer that is neither 0 nor a would-block, or the handshake completes
    and the verification, being on, gives a non-zero result. *)
Theorem connect_ssl_error_iff (E : Engine) (n : Network)
    (params' : option TLSConnectParams) (w : World) :
  let p := effective_params n params' in
  connect_returns E n params' w = Some SSL_CONNECTION_ERROR
  <-> loaded E p /\ net_connect_ret E = 0
      /\ (net_set_block_ret E <> 0
          \/ ~ configured E p
          \/ (net_set_block_ret E = 0 /\ configured E p
              /\ (handshake_fails (ssl_handshake_rets E)
                  \/ (handshake_completes (ssl_handshake_rets E)
                      /\ ~ verification_passes E p)))).
Proof.
  intros p. rewrite connect_decides. fold p.
  rewrite <- handshake_done_iff, <- handshake_failed_iff.
  outcome_cases E p; taxonomy.
Qed.

(** X15.  In the handshake a timeout answer is fatal (in [iot_tls_read] it
    is retried): when all steps before succeed and the handshake answers
    MBEDTLS_ERR_SSL_TIMEOUT after would-blocks, [iot_tls_connect] returns
    SSL_CONNECTION_ERROR without asking again. *)
Theorem connect_handshake_timeout_fatal (E : Engine) (n : Network)
    (params' : option TLSConnectParams) (w : World) (blocks more : list Z) :
  set_up E (effective_params n params') ->
  Forall would_block blocks ->
  ssl_handshake_rets E = blocks ++ MBEDTLS_ERR_SSL_TIMEOUT :: more ->
  connect_returns E n params' w = Some SSL_CONNECTION_ERROR.
Proof.
  intros Hset Hbl Hrets.
  rewrite connect_decides. set (p := effective_params n params') in *.
  assert (Hf : handshake_ends (ssl_handshake_rets E) = HsFailed).
  { rewrite Hrets, handshake_ends_after_blocks by exact Hbl. reflexivity. }
  outcome_cases E p; try reflexivity; taxonomy.
Qed.

Lemma connect_handshake_timeout_fatal_witness :
  connect_returns engine_handshake_times_out session_raw (Some params_no_ca) new_world
  = Some SSL_CONNECTION_ERROR.
Proof.
  apply (connect_handshake_timeout_fatal engine_handshake_times_out session_raw
           (Some params_no_ca) new_world [MBEDTLS_ERR_SSL_WANT_READ] []).
  - unfold set_up, loaded, seeding_succeeds, root_loads, cert_loads, key_loads,
      transport_opens, configured. simpl.
    repeat split; reflexivity.
  - apply Forall_cons; [left; reflexivity | apply Forall_nil].
  - reflexivity.
Defined.

(** X16.  The parameters [iot_tls_connect] leaves in the session, however it
    ends: the ones in effect, with the verification flag cleared when there
    is no root certificate and seeding let trust loading run.  Nothing else
    of the parameters changes, and the flag is never set. *)
Theorem connect_stores_params (E : Engine) (n : Network)
    (params' : option TLSConnectParams) (w : World) :
  tlsConnectParams (session_after (iot_tls_connect E (Some n) params' w))
  = stored_params E (effective_params n params').
Proof.
  unfold session_after, iot_tls_connect.
  pose proof (connect_body_decides E params' (mk_State n w)) as H. unfold wp in H.
  destruct (connect_body E params' (mk_State n w)) as [[r | e |] s']; simpl in *;
    destruct H as [H _]; exact H.
Qed.

(** ** The calls [iot_tls_connect] makes *)

Lemma nothing_freed_step (t0 : list call) (c : call) (s s' : State) :
  is_free c = false ->
  trace (world s') = trace (world s) ++ [c] ->
  nothing_freed t0 s -> nothing_freed t0 s'.
Proof.
  intros Hc Ht (cs & Hcs & Hf). exists (cs ++ [c]). split.
  - unfold since in *. rewrite Ht, Hcs, <- app_assoc. reflexivity.
  - rewrite existsb_app, Hf. simpl. rewrite Hc. reflexivity.
Qed.

Lemma wp_call_unfreed {A : Type} (t0 : list call) (h : handle) (c : call) (a : A)
    (Q : A -> State -> Prop) (X : option IoT_Error_t -> State -> Prop) (s : State) :
  is_free c = false -> nothing_freed t0 s ->
  (forall s', nothing_freed t0 s' -> Q a s') ->
  wp (engine_call h c a) Q X s.
Proof.
  intros Hc Hs HQ. apply wp_engine_call, HQ.
  apply (nothing_freed_step t0 c s); [exact Hc | apply call_effect | exact Hs].
Qed.

Lemma wp_emit_unfreed {A : Type} (t0 : list call) (c : call) (a : A)
    (Q : A -> State -> Prop) (X : option IoT_Error_t -> State -> Prop) (s : State) :
  is_free c = false -> nothing_freed t0 s ->
  (forall s', nothing_freed t0 s' -> Q a s') ->
  wp (emit c a) Q X s.
Proof.
  intros Hc Hs HQ. apply wp_emit, HQ.
  apply (nothing_freed_step t0 c s); [exact Hc | reflexivity | exact Hs].
Qed.

Lemma wp_init_unfreed (t0 : list call) (h : handle)
    (Q : unit -> State -> Prop) (X : option IoT_Error_t -> State -> Prop) (s : State) :
  nothing_freed t0 s ->
  (forall s', nothing_freed t0 s' -> Q tt s') ->
  wp (engine_init h) Q X s.
Proof.
  intros Hs HQ. apply wp_engine_init, HQ.
  apply (nothing_freed_step t0 (init_of h) s); [reflexivity | reflexivity | exact Hs].
Qed.

Lemma wp_net_unfreed (t0 : list call) (f : Network -> Network)
    (Q : unit -> State -> Prop) (X : option IoT_Error_t -> State -> Prop) (s : State) :
  nothing_freed t0 s ->
  (forall s', nothing_freed t0 s' -> Q tt s') ->
  wp (modify_net f) Q X s.
Proof. intros Hs HQ. apply wp_modify_net, HQ. exact Hs. Qed.

(** A sequence keeps what each of its parts keeps, on every way out. *)
Lemma wp_seq {A B : Type} (m : M A) (k : A -> M B) (I : State -> Prop) (s : State) :
  wp m (fun _ => I) (fun _ => I) s ->
  (forall a s', I s' -> wp (k a) (fun _ => I) (fun _ => I) s') ->
  wp (bind m k) (fun _ => I) (fun _ => I) s.
Proof.
  intros Hm Hk. apply wp_bind. eapply wp_conseq; [exact Hm | | auto].
  intros a s' Hs'. apply Hk. exact Hs'.
Qed.

(** One step of a proof that no call made is a free call. *)
Ltac unfreed_step :=
  lazymatch goal with
  | |- wp (bind _ _) _ _ _ => apply wp_bind; unfreed_step
  | |- wp (gets _) _ _ _ => apply wp_gets; cbv beta
  | |- wp (pure _) _ _ _ => apply wp_pure
  | |- wp (exit _) _ _ _ => apply wp_exit
  | |- wp spin _ _ _ => apply wp_spin
  | |- wp (engine_call _ _ _) _ _ ?s =>
      let s' := fresh "s" in
      let H := fresh "Hs" in
      match goal with
      | Hs : nothing_freed ?t s |- _ =>
          apply (wp_call_unfreed t); [reflexivity | exact Hs | intros s' H]
      end
  | |- wp (emit _ _) _ _ ?s =>
      let s' := fresh "s" in
      let H := fresh "Hs" in
      match goal with
      | Hs : nothing_freed ?t s |- _ =>
          apply (wp_emit_unfreed t); [reflexivity | exact Hs | intros s' H]
      end
  | |- wp (engine_init _) _ _ ?s =>
      let s' := fresh "s" in
      let H := fresh "Hs" in
      match goal with
      | Hs : nothing_freed ?t s |- _ =>
          apply (wp_init_unfreed t); [exact Hs | intros s' H]
      end
  | |- wp (modify_net _) _ _ ?s =>
      let s' := fresh "s" in
      let H := fresh "Hs" in
      match goal with
      | Hs : nothing_freed ?t s |- _ =>
          apply (wp_net_unfreed t); [exact Hs | intros s' H]
      end
  | |- wp (match ?x with Some _ => _ | None => _ end) _ _ _ => destruct x
  | |- wp (if ?b then _ else _) _ _ _ => destruct b
  end.

Ltac unfreed := repeat unfreed_step; try assumption.

Section Unfreed.

Variable E : Engine.
Variable t0 : list call.

Let I : State -> Prop := nothing_freed t0.

Lemma handshake_loop_unfreed (rets : list Z) (s : State) :
  I s -> wp (handshake_loop rets) (fun _ => I) (fun _ => I) s.
Proof.
  unfold I. revert s. induction rets as [| r rets IH]; intros s Hs; simpl.
  - apply wp_spin. exact Hs.
  - unfreed_step.
    destruct (r =? 0); [apply wp_pure; assumption |].
    destruct (negb (r =? MBEDTLS_ERR_SSL_WANT_READ)
              && negb (r =? MBEDTLS_ERR_SSL_WANT_WRITE)).
    + apply wp_exit. assumption.
    + apply IH. assumption.
Qed.

Lemma connect_body_unfreed (params' : option TLSConnectParams) (s : State) :
  I s -> wp (connect_body E params') (fun _ => I) (fun _ => I) s.
Proof.
  unfold I. intros Hs. unfold connect_body.
  apply wp_seq; [unfold store_params; unfreed | clear s Hs; intros _ s Hs].
  apply wp_seq; [unfold init_objects; unfreed | clear s Hs; intros _ s Hs].
  apply wp_seq; [unfold seed_rng; unfreed | clear s Hs; intros _ s Hs].
  apply wp_seq; [unfold load_root_ca; cbv zeta; unfreed | clear s Hs; intros _ s Hs].
  apply wp_seq; [unfold load_device_cert; cbv zeta; unfreed | clear s Hs; intros _ s Hs].
  apply wp_seq; [unfold open_transport; unfreed | clear s Hs; intros _ s Hs].
  apply wp_seq; [unfold configure; unfreed | clear s Hs; intros _ s Hs].
  apply wp_seq; [apply handshake_loop_unfreed; exact Hs | clear s Hs; intros _ s Hs].
  apply wp_seq; [unfreed | clear s Hs; intros _ s Hs].
  apply wp_seq; [unfold verify_peer; unfreed | clear s Hs; intros r s Hs].
  unfreed.
Qed.

End Unfreed.

(** X17.  [iot_tls_connect] frees nothing, however it ends: what it made the
    engine objects hold before it failed is left for [iot_tls_destroy]. *)
Theorem connect_never_frees (E : Engine) (n : Network)
    (params' : option TLSConnectParams) (w : World) :
  exists cs,
    trace (snd (iot_tls_connect E (Some n) params' w)) = trace w ++ cs
    /\ existsb is_free cs = false.
Proof.
  assert (H0 : nothing_freed (trace w) (mk_State n w)).
  { exists []. split; [unfold since; simpl; rewrite app_nil_r |]; reflexivity. }
  pose proof (connect_body_unfreed E (trace w) params' _ H0) as H.
  unfold iot_tls_connect, wp in *.
  destruct (connect_body E params' (mk_State n w)) as [[r | e |] s']; exact H.
Qed.

(** ** [iot_tls_connect] without a root certificate *)




Section Advance.

Variable E : Engine.
Variable T : list call.

Let I : State -> Prop := nothing_freed T.



End Advance.






(** ** The end of [iot_tls_connect] *)

(** Whatever a computation does. *)
Lemma wp_any {A : Type} (m : M A) (s : State) :
  wp m (fun _ _ => True) (fun _ _ => True) s.
Proof. unfold wp. destruct (m s) as [[a | e |] s']; exact I. Qed.

Lemma wp_after {A B : Type} (m : M A) (k : A -> M B) (Q : B -> State -> Prop)
    (s : State) :
  (forall a s', wp (k a) Q (fun _ _ => True) s') ->
  wp (bind m k) Q (fun _ _ => True) s.
Proof.
  intros Hk. apply wp_bind. eapply wp_conseq; [apply wp_any | | auto].
  intros a s' _. apply Hk.
Qed.

(** When [iot_tls_connect] runs to its end, the last call it makes sets the
    read timeout of the configuration to IOT_SSL_READ_TIMEOUT. *)
Lemma connect_body_last_call (E : Engine) (params' : option TLSConnectParams) (s : State) :
  wp (connect_body E params')
    (fun _ => last_call (mbedtls_ssl_conf_read_timeout IOT_SSL_READ_TIMEOUT))
    (fun _ _ => True) s.
Proof.
  unfold connect_body.
  do 10 (apply wp_after; intros ? ?).
  apply wp_bind, wp_engine_call, wp_pure.
  eexists. apply call_effect.
Qed.

(** [iot_tls_connect] never leaves early with SUCCESS. *)
Lemma connect_body_no_early_success (E : Engine) (params' : option TLSConnectParams)
    (s : State) :
  wp (connect_body E params') (fun _ _ => True) (fun oe _ => oe <> Some SUCCESS) s.
Proof.
  assert (Hst : stable (fun _ => True)) by (intros ? ? ? ?; split; intros; exact I).
  eapply wp_conseq;
    [apply (connect_body_steps E params' (fun _ => True) (fun _ => True) (fun _ => True)
              (fun _ => True) (fun _ _ => True)); auto | auto |].
  - intros x _. eapply wp_conseq; [apply (init_has_params params' x) | auto | auto].
  - intros x _.
    eapply wp_conseq; [apply (verify_peer_decides E (params x)); reflexivity | auto | auto].
  - intros oe s' [(_ & -> & _) | [[_ ->] | [_ [H _]]]]; try discriminate. exact H.
Qed.

(** X18.  After a connect that returns SUCCESS the read timeout in force is
    IOT_SSL_READ_TIMEOUT: the last call [iot_tls_connect] makes replaces the
    timeout of the parameters, configured before the handshake. *)
Theorem connect_success_sets_read_timeout (E : Engine) (n : Network)
    (params' : option TLSConnectParams) (w : World) :
  connect_returns E n params' w = Some SUCCESS ->
  last_call (mbedtls_ssl_conf_read_timeout IOT_SSL_READ_TIMEOUT)
    (state_after (iot_tls_connect E (Some n) params' w)).
Proof.
  unfold connect_returns, state_after, session_after, iot_tls_connect.
  pose proof (connect_body_last_call E params' (mk_State n w)) as Hl.
  pose proof (connect_body_no_early_success E params' (mk_State n w)) as He.
  unfold wp in *.
  destruct (connect_body E params' (mk_State n w)) as [[r | e |] s']; simpl; intros H.
  - exact Hl.
  - contradiction.
  - discriminate H.
Qed.

Lemma connect_success_sets_read_timeout_witness :
  last_call (mbedtls_ssl_conf_read_timeout IOT_SSL_READ_TIMEOUT) state_connected.
Proof.
  apply (connect_success_sets_read_timeout engine_ok session_raw (Some params_ca_verify)
           new_world).
  vm_compute. reflexivity.
Defined.

(** ** [iot_tls_init] before [iot_tls_connect] *)

Lemma bind_store_none {B : Type} (k : unit -> M B) (s : State) :
  bind (store_params None) k s = k tt s.
Proof. reflexivity. Qed.

Lemma bind_store_some {B : Type} (p : TLSConnectParams) (k : unit -> M B) (s : State) :
  bind (store_params (Some p)) k s
  = k tt (mk_State
            (_iot_tls_set_connect_params (net s) (pRootCALocation p)
               (pDeviceCertLocation p) (pDevicePrivateKeyLocation p) (pDestinationURL p)
               (DestinationPort p) (timeout_ms p) (ServerVerificationFlag p))
            (world s)).
Proof. reflexivity. Qed.

(** X19.  A connect without parameters on a session set up by
    [iot_tls_init] is the connect with these parameters given: the same
    outcome, the same calls, the same session after it. *)
Theorem init_then_connect (E : Engine) (n : Network)
    (pRootCALocation' pDeviceCertLocation' pDevicePrivateKeyLocation'
       pDestinationURL' : option string)
    (destinationPort timeout_ms' : Z) (ServerVerificationFlag' : bool) (w : World) :
  iot_tls_connect E
    (Some (snd (iot_tls_init n pRootCALocation' pDeviceCertLocation'
                  pDevicePrivateKeyLocation' pDestinationURL' destinationPort
                  timeout_ms' ServerVerificationFlag')))
    None w
  = iot_tls_connect E (Some (set_flags 0 n))
      (Some (mk_TLSConnectParams pRootCALocation' pDeviceCertLocation'
               pDevicePrivateKeyLocation' pDestinationURL' destinationPort timeout_ms'
               ServerVerificationFlag'))
      w.
Proof.
  unfold iot_tls_connect, connect_body.
  rewrite bind_store_none, bind_store_some. cbv beta.
  match goal with
  | |- (let (o, s) := ?m ?s1 in _) = (let (o', s') := ?m ?s2 in _) =>
      replace s1 with s2 by reflexivity
  end.
  reflexivity.
Qed.

(** ** [iot_tls_disconnect] *)

Lemma close_notify_loop_effect (blocks : list Z) (r : Z) (more : list Z) (s : State) :
  Forall close_retried blocks -> ~ close_retried r ->
  fst (close_notify_loop (blocks ++ r :: more) s) = Next tt
  /\ trace (world (snd (close_notify_loop (blocks ++ r :: more) s)))
     = trace (world s) ++ repeat mbedtls_ssl_close_notify (S (List.length blocks))
  /\ params (snd (close_notify_loop (blocks ++ r :: more) s)) = params s
  /\ flags (data (snd (close_notify_loop (blocks ++ r :: more) s))) = flags (data s).
Proof.
  intros Hbl Hr. revert s. induction Hbl as [| b blocks Hb _ IH]; intros s.
  - simpl. unfold bind. rewrite engine_call_next.
    apply Z.eqb_neq in Hr. rewrite Hr. simpl.
    destruct (call_effect H_ssl mbedtls_ssl_close_notify r s) as (Hp & Hf & Ht).
    repeat split; assumption.
  - change ((b :: blocks) ++ r :: more) with (b :: (blocks ++ r :: more)).
    cbn [close_notify_loop]. unfold bind at 1 2 3 4. rewrite engine_call_next.
    rewrite Hb, Z.eqb_refl.
    destruct (IH (snd (engine_call H_ssl mbedtls_ssl_close_notify
                         MBEDTLS_ERR_SSL_WANT_WRITE s)))
      as (H1 & H2 & H3 & H4).
    destruct (call_effect H_ssl mbedtls_ssl_close_notify MBEDTLS_ERR_SSL_WANT_WRITE s)
      as (Hp & Hf & Ht).
    split; [exact H1 |]. split; [| split; congruence].
    rewrite H2, Ht, <- app_assoc. reflexivity.
Qed.

(** X20.  [iot_tls_disconnect] asks for the close notification again while
    the answer is WANT_WRITE, and returns SUCCESS on the first other answer,
    whatever it is: a failure to close, or a WANT_READ, is not reported.  It
    makes no other call (the transport is not closed, nothing is freed) and
    leaves the parameters and the verification flags as they were. *)
Theorem disconnect_swallows_errors (blocks : list Z) (r : Z) (more : list Z) (s : State) :
  Forall close_retried blocks -> ~ close_retried r ->
  fst (iot_tls_disconnect (blocks ++ r :: more) s) = Next SUCCESS
  /\ trace (world (snd (iot_tls_disconnect (blocks ++ r :: more) s)))
     = trace (world s) ++ repeat mbedtls_ssl_close_notify (S (List.length blocks))
  /\ params (snd (iot_tls_disconnect (blocks ++ r :: more) s)) = params s
  /\ flags (data (snd (iot_tls_disconnect (blocks ++ r :: more) s))) = flags (data s).
Proof.
  intros Hbl Hr.
  destruct (close_notify_loop_effect blocks r more s Hbl Hr) as (H1 & H2 & H3 & H4).
  unfold iot_tls_disconnect, bind.
  destruct (close_notify_loop (blocks ++ r :: more) s) as [[[] | e |] s'];
    try discriminate H1.
  simpl in *. repeat split; assumption.
Qed.

Lemma disconnect_swallows_errors_witness :
  fst (iot_tls_disconnect close_script_sample state_connected) = Next SUCCESS
  /\ trace (world (snd (iot_tls_disconnect close_script_sample state_connected)))
     = trace (world state_connected) ++ repeat mbedtls_ssl_close_notify 2
  /\ params (snd (iot_tls_disconnect close_script_sample state_connected))
     = params state_connected
  /\ flags (data (snd (iot_tls_disconnect close_script_sample state_connected)))
     = flags (data state_connected).
Proof.
  apply (disconnect_swallows_errors [MBEDTLS_ERR_SSL_WANT_WRITE] MBEDTLS_ERR_SSL_WANT_READ
           [] state_connected).
  - apply Forall_cons; [reflexivity | apply Forall_nil].
  - unfold close_retried. discriminate.
Defined.

(** ** The whole life cycle *)

Lemma close_notify_loop_accounted (rets : list Z) (s : State) :
  accounted s -> accounted (snd (close_notify_loop rets s)).
Proof.
  revert s. induction rets as [| r rets IH]; intros s Hs; [exact Hs |].
  cbn [close_notify_loop]. unfold bind. rewrite engine_call_next.
  apply (accounted_call H_ssl mbedtls_ssl_close_notify r) in Hs.
  destruct (r =? MBEDTLS_ERR_SSL_WANT_WRITE); [apply IH |]; exact Hs.
Qed.

Lemma disconnect_accounted (rets : list Z) (s : State) :
  accounted s -> accounted (snd (iot_tls_disconnect rets s)).
Proof.
  intros Hs. apply (close_notify_loop_accounted rets) in Hs.
  unfold iot_tls_disconnect, bind.
  destruct (close_notify_loop rets s) as [[[] | e |] s']; exact Hs.
Qed.

(** X21.  Connect, disconnect, destroy brings a session at rest back to
    rest, however the connect ended and whatever the close notification
    answered: [iot_tls_destroy] returns SUCCESS, every engine object owns
    nothing, all that was acquired is released, nothing was leaked and no
    uninitialised object was used. *)
Theorem destroy_after_disconnect (E : Engine) (n : Network)
    (params' : option TLSConnectParams) (w : World) (rets : list Z) :
  at_rest (mk_State n w) ->
  fst (iot_tls_destroy
         (snd (iot_tls_disconnect rets
                 (state_after (iot_tls_connect E (Some n) params' w)))))
  = Next SUCCESS
  /\ at_rest (snd (iot_tls_destroy
                     (snd (iot_tls_disconnect rets
                             (state_after (iot_tls_connect E (Some n) params' w)))))).
Proof.
  intros Hrest.
  pose proof (connect_body_accounted E params' _ Hrest) as Hacc.
  assert (Hs : state_after (iot_tls_connect E (Some n) params' w)
               = snd (connect_body E params' (mk_State n w))).
  { unfold state_after, session_after, iot_tls_connect.
    destruct (connect_body E params' (mk_State n w)) as [o [n1 w1]]. reflexivity. }
  rewrite Hs.
  apply (disconnect_accounted rets) in Hacc.
  destruct (destroy_accounted _ Hacc) as (Hret & _ & Hat).
  split; assumption.
Qed.

Lemma destroy_after_disconnect_witness :
  fst (iot_tls_destroy (snd (iot_tls_disconnect close_script_sample state_connected)))
  = Next SUCCESS
  /\ at_rest (snd (iot_tls_destroy
                     (snd (iot_tls_disconnect close_script_sample state_connected)))).
Proof.
  apply (destroy_after_disconnect engine_ok session_raw (Some params_ca_verify) new_world
           close_script_sample).
  unfold at_rest. vm_compute. repeat split; reflexivity.
Defined.

(** ** [iot_tls_destroy] without a connect *)

(** X22.  [iot_tls_destroy] frees the eight engine objects without asking
    whether [iot_tls_connect] ever initialised them: on a session with an
    uninitialised object (after [iot_tls_init] alone) it hands
    uninitialised memory to a free function, and returns SUCCESS. *)
Theorem destroy_uninitialised (s : State) (h : handle) :
  get_obj h (data s) = Garbage ->
  fst (iot_tls_destroy s) = Next SUCCESS
  /\ ub (world (snd (iot_tls_destroy s))) = true.
Proof.
  intros Hg. pose proof (destroy_doomed s h Hg) as H.
  unfold wp in H. destruct (iot_tls_destroy s) as [[r | e |] s']; try contradiction.
  destruct H as [-> Hub]. simpl. split; [reflexivity | exact Hub].
Qed.

Lemma destroy_uninitialised_witness :
  fst (iot_tls_destroy (mk_State session_raw new_world)) = Next SUCCESS
  /\ ub (world (snd (iot_tls_destroy (mk_State session_raw new_world)))) = true.
Proof.
  apply (destroy_uninitialised (mk_State session_raw new_world) H_ssl).
  reflexivity.
Defined.

(** ** [iot_tls_connect] on a session in any state *)

Lemma reinitialising_init (u : bool) (k : nat) (hs : list handle) (h : handle)
    (s : State) :
  reinitialising u k hs s -> reinitialising u k (h :: hs) (snd (engine_init h s)).
Proof.
  intros (Hub & Hk & Hclean).
  pose proof (holding_set h Clean (data s)) as Hh.
  unfold reinitialising, engine_init, data, put_obj. simpl. fold (data s).
  split; [exact Hub |]. split.
  - destruct (get_obj h (data s)); simpl in *; lia.
  - intros h' [<- | Hin].
    + apply get_set_same.
    + destruct (get_set_cases h h' Clean (data s)) as [-> | ->];
        [reflexivity | apply Hclean; exact Hin].
Qed.

Lemma reinitialising_all (u : bool) (k : nat) (s : State) :
  reinitialising u k all_handles s -> reinitialised u k s.
Proof.
  intros (Hub & Hk & Hclean).
  assert (Hall : all_clean (data s)) by (intros h; apply Hclean, in_all_handles).
  rewrite (all_clean_holding _ Hall) in Hk.
  split; [exact Hub |]. split; [lia |].
  intros h. rewrite Hall. discriminate.
Qed.

Lemma reinitialised_call {A : Type} (u : bool) (k : nat) (h : handle) (c : call) (a : A)
    (s : State) :
  reinitialised u k s -> reinitialised u k (snd (engine_call h c a s)).
Proof.
  intros (Hub & Hk & Hinit). unfold engine_call.
  destruct (get_obj h (data s)) eqn:Eh.
  - exfalso. exact (Hinit h Eh).
  - unfold reinitialised. simpl. repeat split; try assumption.
    intros h'. unfold data, put_obj. simpl.
    destruct (get_set_cases h h' Holding (data s)) as [-> | ->];
      [discriminate | apply Hinit].
  - unfold reinitialised. simpl. repeat split; assumption.
Qed.

Lemma reinitialised_stable (u : bool) (k : nat) : stable (reinitialised u k).
Proof.
  intros s c _ Hs. split.
  - intros h A a. apply reinitialised_call. exact Hs.
  - intros A a. exact Hs.
Qed.

Lemma reinitialised_net (u : bool) (k : nat) (f : Network -> Network) (s : State) :
  (forall n h, get_obj h (tlsDataParams (f n)) = get_obj h (tlsDataParams n)) ->
  reinitialised u k s -> reinitialised u k (mk_State (f (net s)) (world s)).
Proof.
  intros Hf (Hub & Hk & Hinit). unfold reinitialised, data, initialised in *. simpl.
  repeat split; try assumption.
  intros h. rewrite Hf. apply Hinit.
Qed.

Lemma reinitialised_init_step (params' : option TLSConnectParams) (s0 s : State) :
  s = s0 ->
  wp (store_params params' ;; init_objects)
    (fun _ => reinitialised (ub (world s0)) (leaked (world s0) + holding (data s0)))
    (fun _ _ => False) s.
Proof.
  intros ->.
  set (u := ub (world s0)). set (k := (leaked (world s0) + holding (data s0))%nat).
  assert (Hs : reinitialising u k [] s0) by (repeat split; intros h []).
  apply wp_bind.
  apply wp_conseq with (Q := fun _ => reinitialising u k []) (X := fun _ _ => False);
    [| | intros ? ? []].
  { destruct params' as [p |]; [apply wp_modify_net | apply wp_pure]; exact Hs. }
  clearbody u k. clear s0 Hs. intros _ s Hs. unfold init_objects.
  apply wp_bind, wp_engine_init. apply (reinitialising_init _ _ _ H_server_fd) in Hs.
  apply wp_bind, wp_engine_init. apply (reinitialising_init _ _ _ H_ssl) in Hs.
  apply wp_bind, wp_engine_init. apply (reinitialising_init _ _ _ H_conf) in Hs.
  apply wp_bind, wp_engine_init. apply (reinitialising_init _ _ _ H_ctr_drbg) in Hs.
  apply wp_bind, wp_engine_init. apply (reinitialising_init _ _ _ H_cacert) in Hs.
  apply wp_bind, wp_engine_init. apply (reinitialising_init _ _ _ H_clicert) in Hs.
  apply wp_bind, wp_engine_init. apply (reinitialising_init _ _ _ H_pkey) in Hs.
  apply wp_engine_init. apply (reinitialising_init _ _ _ H_entropy) in Hs.
  apply reinitialising_all.
  destruct Hs as (Hub & Hk & Hclean). repeat split; try assumption.
  intros h _. apply Hclean. destruct h; simpl; tauto.
Qed.

Lemma reinitialised_verify_step (E : Engine) (u : bool) (k : nat) (s : State) :
  reinitialised u k s ->
  wp (verify_peer E) (fun _ => reinitialised u k) (fun _ _ => False) s.
Proof.
  intros Hs. unfold verify_peer.
  apply wp_bind, wp_gets. cbv beta.
  destruct (Bool.eqb (ServerVerificationFlag (params s)) true); [| apply wp_pure; exact Hs].
  apply wp_bind, wp_engine_call.
  apply (reinitialised_call u k H_ssl mbedtls_ssl_get_verify_result
           (ssl_get_verify_result_ret E)) in Hs.
  apply wp_bind, wp_modify_net.
  apply (reinitialised_net u k (set_flags (ssl_get_verify_result_ret E))) in Hs;
    [| intros n h; destruct h; reflexivity].
  destruct (negb (ssl_get_verify_result_ret E =? 0)); [| apply wp_pure; exact Hs].
  apply wp_bind, wp_emit, wp_pure. exact Hs.
Qed.

Lemma connect_body_reinitialised (E : Engine) (params' : option TLSConnectParams)
    (s : State) :
  reinitialised (ub (world s)) (leaked (world s) + holding (data s))
    (snd (connect_body E params' s)).
Proof.
  set (R := reinitialised (ub (world s)) (leaked (world s) + holding (data s))).
  assert (H : wp (connect_body E params') (fun _ => R) (left_from E R R R) s).
  { apply (connect_body_steps E params' (fun x => x = s) R R R (fun _ => R));
      try apply reinitialised_stable; try reflexivity.
    - intros _. apply reinitialised_stable.
    - intros x Hx. apply (reinitialised_init_step params' s x Hx).
    - intros x Hx _. exact Hx.
    - intros x Hx _. apply (reinitialised_net _ _ clear_ServerVerificationFlag); [| exact Hx].
      intros n h. reflexivity.
    - intros x Hx. apply reinitialised_call. exact Hx.
    - intros x. apply reinitialised_verify_step. }
  unfold wp in H. destruct (connect_body E params' s) as [[r | e |] s']; simpl;
    try exact H;
    destruct H as [[H _] | [[[H _] _] | [[H | H] _]]]; exact H.
Qed.

(** X23.  [iot_tls_connect] may be called on a session in any state: it
    initialises the eight engine objects before it uses any, so that it uses
    no uninitialised object, whatever the memory held.  But it frees nothing
    first: what the objects of the session still owned (a session connected
    before and not destroyed) is lost, all of it and nothing else. *)
Theorem connect_on_used_session (E : Engine) (n : Network)
    (params' : option TLSConnectParams) (w : World) :
  ub (snd (iot_tls_connect E (Some n) params' w)) = ub w
  /\ leaked (snd (iot_tls_connect E (Some n) params' w))
     = (leaked w + holding (tlsDataParams n))%nat.
Proof.
  pose proof (connect_body_reinitialised E params' (mk_State n w)) as (Hub & Hk & _).
  unfold iot_tls_connect.
  destruct (connect_body E params' (mk_State n w)) as [o s']. simpl in *.
  split; assumption.
Qed.
